(** * arowa: the collaborative timer broker

    A shallow embedding of the timer core ([src/shared/timer-core.js]), of the
    message codec ([messages.ts], the second part of
    [src/server/server.ts]) and of the session manager (the revision of
    [sessions.ts] that reads a [Map] of sockets on each user,
    [src/unnamed/part_005]), with the properties of the specification stated
    over them.

    Conventions.  JavaScript numbers are modelled as [Z]: every number the
    timer handles is an integral count of seconds or of milliseconds.  The
    clock [Date.now()] is an explicit argument [now].  A method that mutates
    [this] and returns a snapshot takes the object and returns the mutated
    object; the snapshot is its [state].  Code that can throw, or loop for
    ever, returns an [outcome].

    The codec is given twice: on objects typed as [messages.d.ts] types
    them, which is what the session manager is modelled on, and on frames
    that carry any value in the place of a number, where [NaN] appears.
    The two agree on typed frames.

    The session manager reads [user.sockets].  The [formatInternalUser] of
    the repository writes no such property, so that the users the manager
    stores do not have it, and the reads of it throw; the model follows the
    code there. *)

From Stdlib Require Import ZArith List String Ascii Bool Lia.
Import ListNotations.
Open Scope Z_scope.

(** ** Results of code that may throw or not terminate *)

Inductive outcome (A : Type) : Type :=
| Ret (a : A)      (* normal completion *)
| Throw            (* a JavaScript exception (TypeError, Error) *)
| OutOfFuel.       (* the loop budget ran out *)
Arguments Ret {A} a.
Arguments Throw {A}.
Arguments OutOfFuel {A}.

Definition obind {A B} (m : outcome A) (k : A -> outcome B) : outcome B :=
  match m with
  | Ret a => k a
  | Throw => Throw
  | OutOfFuel => OutOfFuel
  end.

Definition omap {A B} (f : A -> B) (m : outcome A) : outcome B :=
  obind m (fun a => Ret (f a)).

(** ** Shared constants ([src/shared/constants.js]) *)

Definition MAX_DURATION : Z := 86400.
Definition MIN_DURATION : Z := 1.
Definition DEFAULT_DURATION : Z := 1500.
Definition MAX_STRING_LENGTH : nat := 1000.
Definition MAX_NAME_LENGTH : nat := 50.
Definition MAX_URL_LENGTH : nat := 500.
Definition MAX_SAFE_INTEGER : Z := 9007199254740991.

(** ** Data model ([src/types/messages.d.ts]) *)

Module Interval.
Record t : Type := mk {
  name : string;
  duration : Z;
  alert : string;
  customCSS : string
}.
End Interval.

(** The public (wire) form of the timer state. *)
Module TimerState.
Record t : Type := mk {
  repeat : bool;
  interval : Z;
  remaining : Z;
  isRunning : bool;
  isPaused : bool
}.
End TimerState.

(** The internal form adds the timing baseline. *)
Module TimerStateInternal.
Record t : Type := mk {
  repeat : bool;
  interval : Z;
  remaining : Z;
  isRunning : bool;
  isPaused : bool;
  startedInterval : Z;
  startedAt : Z;
  pausedAt : Z;
  timePaused : Z
}.
End TimerStateInternal.

(** [arr[i]] for an integral index: [undefined] (here [None]) out of range. *)
Definition item {A} (arr : list A) (i : Z) : option A :=
  if i <? 0 then None else nth_error arr (Z.to_nat i).

Definition len {A} (arr : list A) : Z := Z.of_nat (List.length arr).

(** [(intervals[i]?.duration ?? DEFAULT_DURATION) * 1000] *)
Definition duration_ms_or_default (intervals : list Interval.t) (i : Z) : Z :=
  match item intervals i with
  | Some iv => Interval.duration iv * 1000
  | None => DEFAULT_DURATION * 1000
  end.

(** ** The timer core ([src/shared/timer-core.js]) *)

Module TimerCore.
Module S := TimerStateInternal.

Record t : Type := mk {
  intervals : list Interval.t;
  state : S.t
}.

(** [constructor(intervals = [])] *)
Definition new (intervals : list Interval.t) : t :=
  {| intervals := intervals;
     state := {| S.repeat := false;
                 S.interval := 0;
                 S.remaining := duration_ms_or_default intervals 0;
                 S.isRunning := false;
                 S.isPaused := false;
                 S.startedInterval := 0;
                 S.startedAt := 0;
                 S.pausedAt := 0;
                 S.timePaused := 0 |} |}.

(** [resume()] *)
Definition resume (now : Z) (tc : t) : t :=
  let timer := state tc in
  if S.isPaused timer then
    {| intervals := intervals tc;
       state := {| S.repeat := S.repeat timer;
                   S.interval := S.interval timer;
                   S.remaining := S.remaining timer;
                   S.isRunning := S.isRunning timer;
                   S.isPaused := false;
                   S.startedInterval := S.startedInterval timer;
                   S.startedAt := S.startedAt timer;
                   S.pausedAt := 0;
                   S.timePaused := S.timePaused timer + (now - S.pausedAt timer) |} |}
  else tc.

(** [start()]: the clock is read once more inside [resume]; both reads see
    the same instant. *)
Definition start (now : Z) (tc : t) : t :=
  let tc1 :=
    if S.isPaused (state tc) then resume now tc
    else if negb (S.isRunning (state tc)) then
      let timer := state tc in
      {| intervals := intervals tc;
         state := {| S.repeat := S.repeat timer;
                     S.interval := S.interval timer;
                     S.remaining := S.remaining timer;
                     S.isRunning := S.isRunning timer;
                     S.isPaused := S.isPaused timer;
                     S.startedInterval := S.interval timer;
                     S.startedAt := now;
                     S.pausedAt := S.pausedAt timer;
                     S.timePaused := 0 |} |}
    else tc in
  let timer := state tc1 in
  {| intervals := intervals tc1;
     state := {| S.repeat := S.repeat timer;
                 S.interval := S.interval timer;
                 S.remaining := S.remaining timer;
                 S.isRunning := true;
                 S.isPaused := false;
                 S.startedInterval := S.startedInterval timer;
                 S.startedAt := S.startedAt timer;
                 S.pausedAt := 0;
                 S.timePaused := S.timePaused timer |} |}.

(** [pause()] *)
Definition pause (now : Z) (tc : t) : t :=
  let timer := state tc in
  {| intervals := intervals tc;
     state := {| S.repeat := S.repeat timer;
                 S.interval := S.interval timer;
                 S.remaining := S.remaining timer;
                 S.isRunning := S.isRunning timer;
                 S.isPaused := true;
                 S.startedInterval := S.startedInterval timer;
                 S.startedAt := S.startedAt timer;
                 S.pausedAt := now;
                 S.timePaused := S.timePaused timer |} |}.

(** The state that [stop()] writes, and that [sync()] writes when the run
    is over. *)
Definition stopped (first_ms : Z) (timer : S.t) : S.t :=
  {| S.repeat := S.repeat timer;
     S.interval := 0;
     S.remaining := first_ms;
     S.isRunning := false;
     S.isPaused := false;
     S.startedInterval := 0;
     S.startedAt := 0;
     S.pausedAt := 0;
     S.timePaused := 0 |}.

(** [stop()] *)
Definition stop (tc : t) : t :=
  {| intervals := intervals tc;
     state := stopped (duration_ms_or_default (intervals tc) 0) (state tc) |}.

(** [repeat(repeat = null)]: [Boolean(repeat ?? !timer.repeat)] *)
Definition repeat (value : option bool) (tc : t) : t :=
  let timer := state tc in
  {| intervals := intervals tc;
     state := {| S.repeat := match value with
                             | Some b => b
                             | None => negb (S.repeat timer)
                             end;
                 S.interval := S.interval timer;
                 S.remaining := S.remaining timer;
                 S.isRunning := S.isRunning timer;
                 S.isPaused := S.isPaused timer;
                 S.startedInterval := S.startedInterval timer;
                 S.startedAt := S.startedAt timer;
                 S.pausedAt := S.pausedAt timer;
                 S.timePaused := S.timePaused timer |} |}.

(** [next()] *)
Definition next (now : Z) (tc : t) : t :=
  let timer := state tc in
  let interval :=
    if S.interval timer + 1 >=? len (intervals tc) then 0
    else S.interval timer + 1 in
  let remaining := duration_ms_or_default (intervals tc) interval in
  {| intervals := intervals tc;
     state :=
       if S.isRunning timer then
         {| S.repeat := S.repeat timer;
            S.interval := interval;
            S.remaining := remaining;
            S.isRunning := S.isRunning timer;
            S.isPaused := S.isPaused timer;
            S.startedInterval := interval;
            S.startedAt := now;
            S.pausedAt := if S.isPaused timer then now else 0;
            S.timePaused := 0 |}
       else
         {| S.repeat := S.repeat timer;
            S.interval := interval;
            S.remaining := remaining;
            S.isRunning := S.isRunning timer;
            S.isPaused := S.isPaused timer;
            S.startedInterval := S.startedInterval timer;
            S.startedAt := S.startedAt timer;
            S.pausedAt := S.pausedAt timer;
            S.timePaused := S.timePaused timer |} |}.

(** The [while (remaining > 0)] loop of [sync()].  [Ret None] is the early
    return of the branch that stops the timer; [Ret (Some (current,
    remaining))] is the exit of the loop. *)
Fixpoint sync_loop (fuel : nat) (intervals : list Interval.t) (rep : bool)
         (current remaining : Z) : outcome (option (Z * Z)) :=
  if remaining >? 0 then
    match fuel with
    | O => OutOfFuel
    | Datatypes.S fuel' =>
        match item intervals current with
        | None => Throw
        | Some iv =>
            let duration := Interval.duration iv * 1000 in
            if remaining <? duration then Ret (Some (current, remaining))
            else
              let remaining := remaining - duration in
              let current := current + 1 in
              let current :=
                if (current >=? len intervals) && rep then 0 else current in
              if (current >=? len intervals) && negb rep then Ret None
              else sync_loop fuel' intervals rep current remaining
        end
    end
  else Ret (Some (current, remaining)).

(** The running time that [sync()] computes at the instant [now]: wall
    time since [startedAt], less the pauses already folded into
    [timePaused] and the pause in flight. *)
Definition elapsed (now : Z) (timer : S.t) : Z :=
  let offset :=
    if S.isPaused timer && (S.pausedAt timer >? 0)
    then now - S.pausedAt timer else 0 in
  now - S.startedAt timer - S.timePaused timer - offset.

(** [sync()], with the budget of loop iterations explicit. *)
Definition sync_fuel (fuel : nat) (now : Z) (tc : t) : outcome t :=
  let timer := state tc in
  if negb (S.isRunning timer) || (S.startedAt timer =? 0) then Ret tc
  else
    let intervals := intervals tc in
    if len intervals =? 0 then Ret tc
    else
      let elapsed := elapsed now timer in
      let current := S.startedInterval timer in
      let current := if current >=? len intervals then 0 else current in
      obind (sync_loop fuel intervals (S.repeat timer) current elapsed)
        (fun r =>
           match r with
           | None =>
               match item intervals 0 with
               | None => Throw
               | Some first =>
                   Ret {| TimerCore.intervals := intervals;
                          state := stopped (Interval.duration first * 1000) timer |}
               end
           | Some (current, remaining) =>
               match item intervals current with
               | None => Throw
               | Some iv =>
                   Ret {| TimerCore.intervals := intervals;
                          state :=
                            {| S.repeat := S.repeat timer;
                               S.interval := current;
                               S.remaining := Interval.duration iv * 1000 - remaining;
                               S.isRunning := S.isRunning timer;
                               S.isPaused := S.isPaused timer;
                               S.startedInterval := S.startedInterval timer;
                               S.startedAt := S.startedAt timer;
                               S.pausedAt := S.pausedAt timer;
                               S.timePaused := S.timePaused timer |} |}
               end
           end).

(** Every turn of the loop but the last takes at least one second off the
    elapsed time when the durations respect [MIN_DURATION]; this budget is
    then enough (lemma [sync_loop_total]). *)
Definition budget (now : Z) (timer : S.t) : nat :=
  Datatypes.S (Z.to_nat (elapsed now timer / 1000)).

(** [sync()] *)
Definition sync (now : Z) (tc : t) : outcome t :=
  sync_fuel (budget now (state tc)) now tc.

(** [updateIntervals(intervals)] *)
Definition updateIntervals (now : Z) (intervals : list Interval.t) (tc : t) : t :=
  let timer := state tc in
  if S.interval timer >=? len intervals then
    {| TimerCore.intervals := intervals;
       state := {| S.repeat := S.repeat timer;
                   S.interval := 0;
                   S.remaining := duration_ms_or_default intervals 0;
                   S.isRunning := S.isRunning timer;
                   S.isPaused := S.isPaused timer;
                   S.startedInterval := 0;
                   S.startedAt := if S.startedAt timer =? 0 then 0 else now;
                   S.pausedAt := if S.pausedAt timer =? 0 then 0 else now;
                   S.timePaused := 0 |} |}
  else
    let duration := duration_ms_or_default intervals (S.interval timer) in
    if S.isRunning timer then
      let elapsed := now - S.startedAt timer - S.timePaused timer in
      let capped := S.remaining timer >? duration in
      {| TimerCore.intervals := intervals;
         state := {| S.repeat := S.repeat timer;
                     S.interval := S.interval timer;
                     S.remaining := if capped then duration else S.remaining timer;
                     S.isRunning := S.isRunning timer;
                     S.isPaused := S.isPaused timer;
                     S.startedInterval := S.interval timer;
                     S.startedAt := if capped then now else now - elapsed;
                     S.pausedAt := if S.isPaused timer then now else 0;
                     S.timePaused := 0 |} |}
    else
      {| TimerCore.intervals := intervals;
         state := {| S.repeat := S.repeat timer;
                     S.interval := S.interval timer;
                     S.remaining := duration;
                     S.isRunning := S.isRunning timer;
                     S.isPaused := S.isPaused timer;
                     S.startedInterval := S.startedInterval timer;
                     S.startedAt := S.startedAt timer;
                     S.pausedAt := S.pausedAt timer;
                     S.timePaused := S.timePaused timer |} |}.

(** [updateState(state)] *)
Definition updateState (now : Z) (ext : TimerState.t) (tc : t) : t :=
  let duration := duration_ms_or_default (intervals tc) (TimerState.interval ext) in
  let elapsed := duration - TimerState.remaining ext in
  {| intervals := intervals tc;
     state := {| S.repeat := TimerState.repeat ext;
                 S.interval := TimerState.interval ext;
                 S.remaining := TimerState.remaining ext;
                 S.isRunning := TimerState.isRunning ext;
                 S.isPaused := TimerState.isPaused ext;
                 S.startedInterval := TimerState.interval ext;
                 S.startedAt := if TimerState.isRunning ext then now - elapsed else 0;
                 S.pausedAt := if TimerState.isPaused ext then now else 0;
                 S.timePaused := 0 |} |}.

(** [getState()] *)
Definition getState (tc : t) : S.t := state tc.

(** [setState(state)] with a complete state object. *)
Definition setState (st : S.t) (tc : t) : t :=
  {| intervals := intervals tc; state := st |}.

(** The invariant of the specification on a stopped timer. *)
Definition stopped_invariant (timer : S.t) : Prop :=
  S.isRunning timer = false ->
  S.startedAt timer = 0 /\ S.pausedAt timer = 0 /\
  S.timePaused timer = 0 /\ S.isPaused timer = false.

(** Durations as the codec emits them: at least [MIN_DURATION] seconds. *)
Definition valid_durations (intervals : list Interval.t) : Prop :=
  Forall (fun iv => MIN_DURATION <= Interval.duration iv) intervals.

(** Milliseconds from the start of interval [from] to the end of the list. *)
Definition span_ms (intervals : list Interval.t) (from : Z) : Z :=
  fold_right (fun iv acc => Interval.duration iv * 1000 + acc) 0
             (skipn (Z.to_nat from) intervals).

End TimerCore.

(** ** Strings

    A character stands for one UTF-16 code unit below 256. *)

(** White space and line terminators, as [String.prototype.trim] sees
    them: TAB, LF, VT, FF, CR, SP and NBSP. *)
Definition is_space (c : ascii) : bool :=
  let n := nat_of_ascii c in
  (n =? 9)%nat || (n =? 10)%nat || (n =? 11)%nat || (n =? 12)%nat ||
  (n =? 13)%nat || (n =? 32)%nat || (n =? 160)%nat.

Fixpoint trimStart (s : string) : string :=
  match s with
  | EmptyString => EmptyString
  | String c rest => if is_space c then trimStart rest else s
  end.

Definition is_empty (s : string) : bool :=
  match s with
  | EmptyString => true
  | String _ _ => false
  end.

Fixpoint trimEnd (s : string) : string :=
  match s with
  | EmptyString => EmptyString
  | String c rest =>
      let rest' := trimEnd rest in
      if is_space c && is_empty rest' then EmptyString else String c rest'
  end.

(** [s.trim()] *)
Definition trim (s : string) : string := trimEnd (trimStart s).

(** [s.substring(0, n)] *)
Definition truncate (n : nat) (s : string) : string := substring 0 n s.

Definition lower (c : ascii) : ascii :=
  let n := nat_of_ascii c in
  if ((65 <=? n) && (n <=? 90))%nat
     || ((192 <=? n) && (n <=? 222) && negb (n =? 215))%nat
  then ascii_of_nat (n + 32) else c.

(** [s.toLowerCase()] *)
Fixpoint toLowerCase (s : string) : string :=
  match s with
  | EmptyString => EmptyString
  | String c rest => String (lower c) (toLowerCase rest)
  end.

Fixpoint all_chars (p : ascii -> bool) (s : string) : bool :=
  match s with
  | EmptyString => true
  | String c rest => p c && all_chars p rest
  end.

Definition is_digit (c : ascii) : bool :=
  let n := nat_of_ascii c in ((48 <=? n) && (n <=? 57))%nat.

Definition is_dash (c : ascii) : bool := (nat_of_ascii c =? 45)%nat.

(** [SESSION_ID_REGEX = /^[a-z0-9-]{3,64}$/] *)
Definition SESSION_ID_REGEX (s : string) : bool :=
  let session_char c :=
    let n := nat_of_ascii c in
    ((97 <=? n) && (n <=? 122))%nat || is_digit c || is_dash c in
  all_chars session_char s
  && (3 <=? String.length s)%nat && (String.length s <=? 64)%nat.

(** [CLIENT_ID_REGEX = /^[a-f0-9-]{36}$/] *)
Definition CLIENT_ID_REGEX (s : string) : bool :=
  let client_char c :=
    let n := nat_of_ascii c in
    ((97 <=? n) && (n <=? 102))%nat || is_digit c || is_dash c in
  all_chars client_char s && (String.length s =? 36)%nat.

(** [value || fallback] on a string that may be missing: the empty string
    is falsy. *)
Definition str_or (fallback : string) (value : option string) : string :=
  match value with
  | Some s => if is_empty s then fallback else s
  | None => fallback
  end.

(** [value || fallback] on a number that may be missing: zero is falsy. *)
Definition num_or (fallback : Z) (value : option Z) : Z :=
  match value with
  | Some n => if n =? 0 then fallback else n
  | None => fallback
  end.

(** [Boolean(value ?? false)] *)
Definition bool_or_false (value : option bool) : bool :=
  match value with
  | Some b => b
  | None => false
  end.

(** Truthiness of a timestamp that may be [null]. *)
Definition truthy (value : option Z) : bool :=
  match value with
  | Some n => negb (n =? 0)
  | None => false
  end.

(** ** Objects and maps keyed by strings

    A plain object with string keys and a [Map] both iterate in insertion
    order; writing an existing key keeps its place. *)

Section Assoc.
Context {K V : Type} (eqb : K -> K -> bool).

Fixpoint lookup (k : K) (m : list (K * V)) : option V :=
  match m with
  | [] => None
  | (k', v) :: rest => if eqb k k' then Some v else lookup k rest
  end.

Fixpoint assign (k : K) (v : V) (m : list (K * V)) : list (K * V) :=
  match m with
  | [] => [(k, v)]
  | (k', v') :: rest =>
      if eqb k k' then (k, v) :: rest else (k', v') :: assign k v rest
  end.

Fixpoint remove (k : K) (m : list (K * V)) : list (K * V) :=
  match m with
  | [] => []
  | (k', v') :: rest =>
      if eqb k k' then rest else (k', v') :: remove k rest
  end.
End Assoc.

Definition slookup {V} := @lookup string V String.eqb.
Definition sassign {V} := @assign string V String.eqb.
Definition sremove {V} := @remove string V String.eqb.

(** ** Wire and session records ([src/types/messages.d.ts]) *)

Module IntervalList.
Record t : Type := mk {
  lastUpdated : Z;
  items : list Interval.t
}.
End IntervalList.

Module SessionUpdate.
Record t : Type := mk {
  name : string;
  description : string;
  intervals : IntervalList.t
}.
End SessionUpdate.

Module User.
Record t : Type := mk {
  clientId : string;
  name : string;
  avatarUrl : string;
  isOnline : bool
}.
End User.

(** A transport connection is named by a handle. *)
Definition handle : Type := nat.

(** The [Map] from socket ids to connections that the session manager
    reads in [user.sockets]. *)
Definition SocketMap : Type := list (string * handle).

(** [messages.d.ts] declares [lastPing], [offlineAt] and [ws]; the session
    manager reads a fourth property, [sockets], which is [None] on an
    object that does not have it. *)
Module UserInternal.
Record t : Type := mk {
  clientId : string;
  name : string;
  avatarUrl : string;
  isOnline : bool;
  lastPing : Z;
  offlineAt : option Z;       (* a number, or [null] *)
  ws : option handle;         (* a connection, or [null] *)
  sockets : option SocketMap  (* a [Map], or no such property *)
}.
End UserInternal.

Module Session.
Record t : Type := mk {
  sessionId : string;
  name : string;
  description : string;
  intervals : IntervalList.t;
  timer : TimerState.t;
  users : list (string * User.t)
}.
End Session.

Module SessionInternal.
Record t : Type := mk {
  sessionId : string;
  name : string;
  description : string;
  intervals : IntervalList.t;
  timer : TimerStateInternal.t;
  timerCore : TimerCore.t;
  users : list (string * UserInternal.t);
  createdAt : Z;
  lastActivity : Z;
  emptyAt : option Z          (* a number, or [null] *)
}.
End SessionInternal.

(** ** Objects as the formatters receive them

    A formatter reads its argument field by field behind [?.], [||] and
    [??]; a field of these records is [None] when the property is missing,
    [undefined] or [null]. *)

Module RawInterval.
Record t : Type := mk {
  name : option string;
  duration : option Z;
  alert : option string;
  customCSS : option string
}.

Definition of_interval (iv : Interval.t) : t :=
  {| name := Some (Interval.name iv);
     duration := Some (Interval.duration iv);
     alert := Some (Interval.alert iv);
     customCSS := Some (Interval.customCSS iv) |}.
End RawInterval.

(** A value that is not an array. *)
Inductive NonArray : Type :=
| JUndefined
| JNull
| JBool (b : bool)
| JNumber (n : Z)
| JString (s : string)
| JObject.

Module RawItems.
(** The [items] property: an array whose elements may be [null], or
    anything else. *)
Inductive t : Type :=
| Array (elements : list (option RawInterval.t))
| Other (value : NonArray).

(** [Array.isArray(items)] *)
Definition isArray (items : t) : bool :=
  match items with
  | Array _ => true
  | Other _ => false
  end.

Definition of_items (items : list Interval.t) : t :=
  Array (map (fun iv => Some (RawInterval.of_interval iv)) items).
End RawItems.

Module RawIntervalList.
Record t : Type := mk {
  lastUpdated : option Z;
  items : RawItems.t
}.

(** [{}] *)
Definition empty : t :=
  {| lastUpdated := None; items := RawItems.Other JUndefined |}.

Definition of_list (l : IntervalList.t) : t :=
  {| lastUpdated := Some (IntervalList.lastUpdated l);
     items := RawItems.of_items (IntervalList.items l) |}.
End RawIntervalList.

Module RawSessionUpdate.
Record t : Type := mk {
  name : option string;
  description : option string;
  intervals : option RawIntervalList.t
}.

Definition empty : t :=
  {| name := None; description := None; intervals := None |}.

Definition of_update (u : SessionUpdate.t) : t :=
  {| name := Some (SessionUpdate.name u);
     description := Some (SessionUpdate.description u);
     intervals := Some (RawIntervalList.of_list (SessionUpdate.intervals u)) |}.
End RawSessionUpdate.

Module RawTimer.
Record t : Type := mk {
  repeat : option bool;
  interval : option Z;
  remaining : option Z;
  isRunning : option bool;
  isPaused : option bool;
  startedAt : option Z;
  startedInterval : option Z;
  pausedAt : option Z;
  timePaused : option Z
}.

Definition empty : t :=
  {| repeat := None; interval := None; remaining := None;
     isRunning := None; isPaused := None; startedAt := None;
     startedInterval := None; pausedAt := None; timePaused := None |}.

Definition of_state (timer : TimerState.t) : t :=
  {| repeat := Some (TimerState.repeat timer);
     interval := Some (TimerState.interval timer);
     remaining := Some (TimerState.remaining timer);
     isRunning := Some (TimerState.isRunning timer);
     isPaused := Some (TimerState.isPaused timer);
     startedAt := None; startedInterval := None;
     pausedAt := None; timePaused := None |}.

Definition of_internal (timer : TimerStateInternal.t) : t :=
  {| repeat := Some (TimerStateInternal.repeat timer);
     interval := Some (TimerStateInternal.interval timer);
     remaining := Some (TimerStateInternal.remaining timer);
     isRunning := Some (TimerStateInternal.isRunning timer);
     isPaused := Some (TimerStateInternal.isPaused timer);
     startedAt := Some (TimerStateInternal.startedAt timer);
     startedInterval := Some (TimerStateInternal.startedInterval timer);
     pausedAt := Some (TimerStateInternal.pausedAt timer);
     timePaused := Some (TimerStateInternal.timePaused timer) |}.
End RawTimer.

Module RawUser.
(** [offlineAt] is read through ['offlineAt' in user] as well: [None] is
    a missing property, [Some None] is [null].  No formatter reads
    [sockets]. *)
Record t : Type := mk {
  clientId : option string;
  name : option string;
  avatarUrl : option string;
  offlineAt : option (option Z);
  lastPing : option Z;
  ws : option handle
}.

Definition empty : t :=
  {| clientId := None; name := None; avatarUrl := None;
     offlineAt := None; lastPing := None; ws := None |}.

Definition of_user (u : User.t) : t :=
  {| clientId := Some (User.clientId u);
     name := Some (User.name u);
     avatarUrl := Some (User.avatarUrl u);
     offlineAt := None; lastPing := None; ws := None |}.

Definition of_internal (u : UserInternal.t) : t :=
  {| clientId := Some (UserInternal.clientId u);
     name := Some (UserInternal.name u);
     avatarUrl := Some (UserInternal.avatarUrl u);
     offlineAt := Some (UserInternal.offlineAt u);
     lastPing := Some (UserInternal.lastPing u);
     ws := UserInternal.ws u |}.
End RawUser.

Module RawSession.
Record t : Type := mk {
  sessionId : option string;
  name : option string;
  description : option string;
  intervals : option IntervalList.t;
  timer : option RawTimer.t;
  timerCore : option TimerCore.t;
  users : list (string * RawUser.t);
  createdAt : option Z;
  lastActivity : option Z;
  emptyAt : option Z
}.

(** [{ sessionId, ...update }] *)
Definition of_new (sessionId : string) (update : SessionUpdate.t) : t :=
  {| sessionId := Some sessionId;
     name := Some (SessionUpdate.name update);
     description := Some (SessionUpdate.description update);
     intervals := Some (SessionUpdate.intervals update);
     timer := None; timerCore := None; users := [];
     createdAt := None; lastActivity := None; emptyAt := None |}.

Definition of_internal (s : SessionInternal.t) : t :=
  {| sessionId := Some (SessionInternal.sessionId s);
     name := Some (SessionInternal.name s);
     description := Some (SessionInternal.description s);
     intervals := Some (SessionInternal.intervals s);
     timer := Some (RawTimer.of_internal (SessionInternal.timer s));
     timerCore := Some (SessionInternal.timerCore s);
     users := map (fun kv => (fst kv, RawUser.of_internal (snd kv)))
                  (SessionInternal.users s);
     createdAt := Some (SessionInternal.createdAt s);
     lastActivity := Some (SessionInternal.lastActivity s);
     emptyAt := SessionInternal.emptyAt s |}.
End RawSession.

(** ** Messages *)

(** An inbound frame after [JSON.parse], dispatched on its [type]. *)
Module RawMessage.
Inductive t : Type :=
| session_join (sessionId : option string)
               (session : option RawSessionUpdate.t)
               (timer : option RawTimer.t)
               (user : option RawUser.t)
| session_update (session : option RawSessionUpdate.t)
                 (timer : option RawTimer.t)
| timer_update (timer : option RawTimer.t)
| user_update (user : option RawUser.t)
| user_list
| ping
| unknown (type : string).

(** The [type] property of the frame. *)
Definition type (m : t) : string :=
  match m with
  | session_join _ _ _ _ => "session_join"
  | session_update _ _ => "session_update"
  | timer_update _ => "timer_update"
  | user_update _ => "user_update"
  | user_list => "user_list"
  | ping => "ping"
  | unknown type => type
  end.
End RawMessage.

Module IncomingMessage.
Inductive t : Type :=
| session_join (sessionId : string) (session : SessionUpdate.t)
               (timer : TimerState.t) (user : User.t)
| session_update (session : SessionUpdate.t) (timer : option TimerState.t)
| timer_update (timer : TimerState.t)
| user_update (user : User.t)
| user_list
| ping.

Definition type (m : t) : string :=
  match m with
  | session_join _ _ _ _ => "session_join"
  | session_update _ _ => "session_update"
  | timer_update _ => "timer_update"
  | user_update _ => "user_update"
  | user_list => "user_list"
  | ping => "ping"
  end.

(** The object a formatted message is, as a formatter reads it back. *)
Definition to_raw (m : t) : RawMessage.t :=
  match m with
  | session_join sessionId session timer user =>
      RawMessage.session_join (Some sessionId)
                              (Some (RawSessionUpdate.of_update session))
                              (Some (RawTimer.of_state timer))
                              (Some (RawUser.of_user user))
  | session_update session timer =>
      RawMessage.session_update (Some (RawSessionUpdate.of_update session))
                                (option_map RawTimer.of_state timer)
  | timer_update timer => RawMessage.timer_update (Some (RawTimer.of_state timer))
  | user_update user => RawMessage.user_update (Some (RawUser.of_user user))
  | user_list => RawMessage.user_list
  | ping => RawMessage.ping
  end.
End IncomingMessage.

Module OutgoingMessage.
Inductive t : Type :=
| session_created (sessionId clientId : string)
| session_joined (sessionId clientId : string) (session : Session.t)
| session_updated (sessionId : string) (session : SessionUpdate.t)
| timer_updated (sessionId : string) (timer : TimerState.t)
| user_connected (sessionId : string) (user : User.t)
| user_disconnected (sessionId : string) (user : User.t)
| user_updated (sessionId : string) (user : User.t)
| users_connected (sessionId : string) (users : list (string * User.t))
| pong
| error (message : string).
End OutgoingMessage.

(** ** The message codec ([messages.ts], in [src/server/server.ts])

    The formatters on objects typed as [messages.d.ts] types them: a field
    that is a number there is a number here, or is missing, and
    [Number(n)] is [n].  The formatters of the incoming messages on frames
    of any shape come after. *)

(** [(value || '').trim().substring(0, limit)] *)
Definition clean (limit : nat) (value : option string) : string :=
  truncate limit (trim (str_or "" value)).

(** [formatSessionId(input)] *)
Definition formatSessionId (input : option string) : string :=
  let sessionId := trim (str_or "" input) in
  if SESSION_ID_REGEX sessionId then sessionId else "".

(** [formatClientId(input)]; [fresh] is what [generateUUID()] returns when
    it is called. *)
Definition formatClientId (fresh : string) (input : option string) : string :=
  let clientId := trim (toLowerCase (str_or "" input)) in
  if CLIENT_ID_REGEX clientId then clientId else fresh.

(** [formatUser(user)] *)
Definition formatUser (user : RawUser.t) : User.t :=
  {| User.clientId := str_or "" (RawUser.clientId user);
     User.name := clean MAX_NAME_LENGTH (RawUser.name user);
     User.avatarUrl := clean MAX_URL_LENGTH (RawUser.avatarUrl user);
     User.isOnline := match RawUser.offlineAt user with
                      | Some offlineAt => negb (truthy offlineAt)
                      | None => true
                      end |}.

(** [formatUserList(users)]: the result is keyed by the [clientId] field of
    each user, and a user whose [clientId] is empty is left out. *)
Definition formatUserList (users : list (string * RawUser.t))
  : list (string * User.t) :=
  fold_left (fun acc kv =>
               let user := snd kv in
               let key := str_or "" (RawUser.clientId user) in
               if is_empty key then acc else sassign key (formatUser user) acc)
            users [].

(** [formatInterval(interval)] on a typed interval; a [null] element reads
    as an object with no property. *)
Definition formatInterval (interval : option RawInterval.t) : Interval.t :=
  let field {A} (f : RawInterval.t -> option A) : option A :=
    match interval with
    | Some iv => f iv
    | None => None
    end in
  {| Interval.name := clean MAX_NAME_LENGTH (field RawInterval.name);
     Interval.duration :=
       Z.max MIN_DURATION
             (Z.min MAX_DURATION (num_or DEFAULT_DURATION (field RawInterval.duration)));
     Interval.alert :=
       str_or "Default" (Some (clean MAX_NAME_LENGTH (field RawInterval.alert)));
     Interval.customCSS := trim (str_or "" (field RawInterval.customCSS)) |}.

(** [formatIntervalList(intervals)] *)
Definition formatIntervalList (now : Z) (intervals : RawIntervalList.t)
  : IntervalList.t :=
  {| IntervalList.lastUpdated :=
       match RawIntervalList.lastUpdated intervals with
       | Some n => n
       | None => now
       end;
     IntervalList.items :=
       match RawIntervalList.items intervals with
       | RawItems.Array elements => map formatInterval elements
       | RawItems.Other _ => []
       end |}.

(** [formatTimer(timer)] on a typed timer state. *)
Definition formatTimer (timer : RawTimer.t) : TimerState.t :=
  {| TimerState.repeat := bool_or_false (RawTimer.repeat timer);
     TimerState.interval :=
       Z.max 0 (Z.min (num_or 0 (RawTimer.interval timer)) MAX_SAFE_INTEGER);
     TimerState.remaining :=
       Z.max 0 (Z.min (num_or (DEFAULT_DURATION * 1000) (RawTimer.remaining timer))
                      (MAX_DURATION * 1000));
     TimerState.isRunning := bool_or_false (RawTimer.isRunning timer);
     TimerState.isPaused := bool_or_false (RawTimer.isPaused timer) |}.

Definition or_empty_list (intervals : option RawIntervalList.t) : RawIntervalList.t :=
  match intervals with
  | Some l => l
  | None => RawIntervalList.empty
  end.

(** [session?.intervals || {}] on a session whose interval list, when it
    has one, is a formatted one. *)
Definition or_empty_intervals (intervals : option IntervalList.t) : RawIntervalList.t :=
  match intervals with
  | Some l => RawIntervalList.of_list l
  | None => RawIntervalList.empty
  end.

Definition or_empty_timer (timer : option RawTimer.t) : RawTimer.t :=
  match timer with
  | Some t => t
  | None => RawTimer.empty
  end.

Definition or_empty_user (user : option RawUser.t) : RawUser.t :=
  match user with
  | Some u => u
  | None => RawUser.empty
  end.

Definition or_empty_update (session : option RawSessionUpdate.t) : RawSessionUpdate.t :=
  match session with
  | Some s => s
  | None => RawSessionUpdate.empty
  end.

(** [formatSession(session)] *)
Definition formatSession (now : Z) (session : RawSession.t) : Session.t :=
  {| Session.sessionId := formatSessionId (RawSession.sessionId session);
     Session.name := clean MAX_STRING_LENGTH (RawSession.name session);
     Session.description := clean MAX_STRING_LENGTH (RawSession.description session);
     Session.intervals :=
       formatIntervalList now (or_empty_intervals (RawSession.intervals session));
     Session.timer := formatTimer (or_empty_timer (RawSession.timer session));
     Session.users := formatUserList (RawSession.users session) |}.

(** [formatSessionUpdate(session)] *)
Definition formatSessionUpdate (now : Z) (session : RawSessionUpdate.t)
  : SessionUpdate.t :=
  {| SessionUpdate.name := clean MAX_STRING_LENGTH (RawSessionUpdate.name session);
     SessionUpdate.description :=
       clean MAX_STRING_LENGTH (RawSessionUpdate.description session);
     SessionUpdate.intervals :=
       formatIntervalList now (or_empty_list (RawSessionUpdate.intervals session)) |}.

(** *** Incoming messages *)

Definition formatSessionJoinMsg (now : Z) (sessionId : option string)
           (session : option RawSessionUpdate.t) (timer : option RawTimer.t)
           (user : option RawUser.t) : IncomingMessage.t :=
  IncomingMessage.session_join
    (formatSessionId sessionId)
    (formatSessionUpdate now (or_empty_update session))
    (formatTimer (or_empty_timer timer))
    (formatUser (or_empty_user user)).

Definition formatSessionUpdateMsg (now : Z) (session : option RawSessionUpdate.t)
           (timer : option RawTimer.t) : IncomingMessage.t :=
  IncomingMessage.session_update
    (formatSessionUpdate now (or_empty_update session))
    (option_map formatTimer timer).

Definition formatTimerUpdateMsg (timer : option RawTimer.t) : IncomingMessage.t :=
  IncomingMessage.timer_update (formatTimer (or_empty_timer timer)).

Definition formatUserUpdateMsg (user : option RawUser.t) : IncomingMessage.t :=
  IncomingMessage.user_update (formatUser (or_empty_user user)).

Definition formatUserListMsg : IncomingMessage.t := IncomingMessage.user_list.

Definition formatPingMsg : IncomingMessage.t := IncomingMessage.ping.

(** [formatIncoming(data)] *)
Definition formatIncoming (now : Z) (data : RawMessage.t) : outcome IncomingMessage.t :=
  match data with
  | RawMessage.session_join sessionId session timer user =>
      Ret (formatSessionJoinMsg now sessionId session timer user)
  | RawMessage.session_update session timer =>
      Ret (formatSessionUpdateMsg now session timer)
  | RawMessage.timer_update timer => Ret (formatTimerUpdateMsg timer)
  | RawMessage.user_list => Ret formatUserListMsg
  | RawMessage.user_update user => Ret (formatUserUpdateMsg user)
  | RawMessage.ping => Ret formatPingMsg
  | RawMessage.unknown _ => Throw
  end.

(** *** Outgoing messages *)

Definition formatSessionCreatedMsg (fresh : string) (sessionId clientId : string)
  : OutgoingMessage.t :=
  OutgoingMessage.session_created (formatSessionId (Some sessionId))
                                  (formatClientId fresh (Some clientId)).

Definition formatSessionJoinedMsg (fresh : string) (now : Z)
           (sessionId clientId : string) (session : SessionInternal.t)
  : OutgoingMessage.t :=
  OutgoingMessage.session_joined (formatSessionId (Some sessionId))
                                 (formatClientId fresh (Some clientId))
                                 (formatSession now (RawSession.of_internal session)).

Definition formatUserConnectedMsg (sessionId : string) (user : option UserInternal.t)
  : OutgoingMessage.t :=
  OutgoingMessage.user_connected
    (formatSessionId (Some sessionId))
    (formatUser (or_empty_user (option_map RawUser.of_internal user))).

Definition formatUserDisconnectedMsg (sessionId : string) (user : option UserInternal.t)
  : OutgoingMessage.t :=
  OutgoingMessage.user_disconnected
    (formatSessionId (Some sessionId))
    (formatUser (or_empty_user (option_map RawUser.of_internal user))).

Definition formatUserUpdatedMsg (sessionId : string) (user : option UserInternal.t)
  : OutgoingMessage.t :=
  OutgoingMessage.user_updated
    (formatSessionId (Some sessionId))
    (formatUser (or_empty_user (option_map RawUser.of_internal user))).

Definition formatUsersConnectedMsg (session : SessionInternal.t) : OutgoingMessage.t :=
  OutgoingMessage.users_connected
    (formatSessionId (Some (SessionInternal.sessionId session)))
    (formatUserList (RawSession.users (RawSession.of_internal session))).

Definition formatSessionUpdatedMsg (now : Z) (session : SessionInternal.t)
  : OutgoingMessage.t :=
  OutgoingMessage.session_updated
    (formatSessionId (Some (SessionInternal.sessionId session)))
    {| SessionUpdate.name := trim (SessionInternal.name session);
       SessionUpdate.description := trim (SessionInternal.description session);
       SessionUpdate.intervals :=
         formatIntervalList now (RawIntervalList.of_list (SessionInternal.intervals session)) |}.

Definition formatTimerUpdatedMsg (session : SessionInternal.t) : OutgoingMessage.t :=
  OutgoingMessage.timer_updated
    (formatSessionId (Some (SessionInternal.sessionId session)))
    (formatTimer (RawTimer.of_internal (SessionInternal.timer session))).

Definition formatPongMsg : OutgoingMessage.t := OutgoingMessage.pong.

(** [formatErrorMsg(error)] on a message that is a string. *)
Definition formatErrorMsg (message : string) : OutgoingMessage.t :=
  OutgoingMessage.error (str_or "Unknown error" (Some (trim message))).

(** *** Internal structures *)

(** [formatInternalUser(input)]: the fields of [formatUser], [lastPing],
    [offlineAt] and [ws].  The object it returns has no [sockets]
    property, whatever the input has. *)
Definition formatInternalUser (now : Z) (input : RawUser.t) : UserInternal.t :=
  let user := formatUser input in
  {| UserInternal.clientId := User.clientId user;
     UserInternal.name := User.name user;
     UserInternal.avatarUrl := User.avatarUrl user;
     UserInternal.isOnline := User.isOnline user;
     UserInternal.lastPing := num_or now (RawUser.lastPing input);
     UserInternal.offlineAt :=
       Some (num_or 0 (match RawUser.offlineAt input with
                       | Some offlineAt => offlineAt
                       | None => None
                       end));
     UserInternal.ws := RawUser.ws input;
     UserInternal.sockets := None |}.

(** [formatInternalUsers(input)]: keyed as the input is. *)
Definition formatInternalUsers (now : Z) (input : list (string * RawUser.t))
  : list (string * UserInternal.t) :=
  fold_left (fun acc kv => sassign (fst kv) (formatInternalUser now (snd kv)) acc)
            input [].

(** [formatInternalTimer(input)] *)
Definition formatInternalTimer (input : RawTimer.t) : TimerStateInternal.t :=
  let timer := formatTimer input in
  {| TimerStateInternal.repeat := TimerState.repeat timer;
     TimerStateInternal.interval := TimerState.interval timer;
     TimerStateInternal.remaining := TimerState.remaining timer;
     TimerStateInternal.isRunning := TimerState.isRunning timer;
     TimerStateInternal.isPaused := TimerState.isPaused timer;
     TimerStateInternal.startedInterval := num_or 0 (RawTimer.startedInterval input);
     TimerStateInternal.startedAt := num_or 0 (RawTimer.startedAt input);
     TimerStateInternal.pausedAt := num_or 0 (RawTimer.pausedAt input);
     TimerStateInternal.timePaused := num_or 0 (RawTimer.timePaused input) |}.

(** [formatInternalSession(input)] *)
Definition formatInternalSession (now : Z) (session : RawSession.t) : SessionInternal.t :=
  {| SessionInternal.sessionId := formatSessionId (RawSession.sessionId session);
     SessionInternal.name := clean MAX_STRING_LENGTH (RawSession.name session);
     SessionInternal.description :=
       clean MAX_STRING_LENGTH (RawSession.description session);
     SessionInternal.intervals :=
       formatIntervalList now (or_empty_intervals (RawSession.intervals session));
     SessionInternal.timer :=
       formatInternalTimer (or_empty_timer (RawSession.timer session));
     SessionInternal.timerCore :=
       match RawSession.timerCore session with
       | Some timerCore => timerCore
       | None =>
           TimerCore.new (match RawSession.intervals session with
                          | Some l => IntervalList.items l
                          | None => []
                          end)
       end;
     SessionInternal.users := formatInternalUsers now (RawSession.users session);
     SessionInternal.createdAt := num_or now (RawSession.createdAt session);
     SessionInternal.lastActivity := num_or now (RawSession.lastActivity session);
     SessionInternal.emptyAt := Some (num_or 0 (RawSession.emptyAt session)) |}.

(** ** The codec on frames that are not typed

    [messages.d.ts] types a duration, an index, a remaining time and a
    timestamp as numbers, and the formatters above are the codec on
    objects that are so typed: there [Number(n)] is [n].  [JSON.parse]
    promises nothing of the kind, and a frame may carry a string, a
    boolean, an array or an object in the place of a number.
    [Number(...)], [Math.min] and [Math.max] convert such a value to a
    number or to [NaN], and [NaN] is falsy.  This section has the
    formatters of the incoming messages on frames with any value in the
    place of a number.  The other fields are as above: in the place of a
    string, a value that is falsy reads as a missing one, and one that is
    neither falsy nor a string makes [trim] throw; a boolean is read
    through its truthiness. *)

(** A number of the codec: a number of the model, or [NaN]. *)
Inductive number : Type :=
| Num (value : Z)
| NaN.

Module JsValue.
(** A value, neither [null] nor [undefined], in the place of a number, by
    what the codec sees of it: a number, or a value of another type with
    its truthiness and what [Number(...)] converts it to (['abc'] is
    [Other true NaN], ['5'] is [Other true (Num 5)], [true] is
    [Other true (Num 1)], [[]] is [Other true (Num 0)]). *)
Inductive t : Type :=
| Number (n : number)
| Other (truthy : bool) (converted : number).

Definition truthy (value : t) : bool :=
  match value with
  | Number (Num n) => negb (n =? 0)
  | Number NaN => false
  | Other b _ => b
  end.

(** [Number(value)] *)
Definition toNumber (value : t) : number :=
  match value with
  | Number n => n
  | Other _ n => n
  end.
End JsValue.

(** [Math.min(a, b)] and [Math.max(a, b)]: [NaN] if either is. *)
Definition Math_min (a b : number) : number :=
  match a, b with
  | Num x, Num y => Num (Z.min x y)
  | _, _ => NaN
  end.

Definition Math_max (a b : number) : number :=
  match a, b with
  | Num x, Num y => Num (Z.max x y)
  | _, _ => NaN
  end.

(** [Number(value || fallback)]: the value converted when it is truthy. *)
Definition number_or (fallback : Z) (value : option JsValue.t) : number :=
  match value with
  | Some v => if JsValue.truthy v then JsValue.toNumber v else Num fallback
  | None => Num fallback
  end.

Module Json.

Module RawInterval.
Record t : Type := mk {
  name : option string;
  duration : option JsValue.t;
  alert : option string;
  customCSS : option string
}.
End RawInterval.

Module RawItems.
Inductive t : Type :=
| Array (elements : list (option RawInterval.t))
| Other (value : NonArray).
End RawItems.

Module RawIntervalList.
Record t : Type := mk {
  lastUpdated : option JsValue.t;
  items : RawItems.t
}.

(** [{}] *)
Definition empty : t :=
  {| lastUpdated := None; items := RawItems.Other JUndefined |}.
End RawIntervalList.

Module RawSessionUpdate.
Record t : Type := mk {
  name : option string;
  description : option string;
  intervals : option RawIntervalList.t
}.

Definition empty : t :=
  {| name := None; description := None; intervals := None |}.
End RawSessionUpdate.

Module RawTimer.
Record t : Type := mk {
  repeat : option bool;
  interval : option JsValue.t;
  remaining : option JsValue.t;
  isRunning : option bool;
  isPaused : option bool
}.

Definition empty : t :=
  {| repeat := None; interval := None; remaining := None;
     isRunning := None; isPaused := None |}.
End RawTimer.

Module RawMessage.
Inductive t : Type :=
| session_join (sessionId : option string)
               (session : option RawSessionUpdate.t)
               (timer : option RawTimer.t)
               (user : option RawUser.t)
| session_update (session : option RawSessionUpdate.t)
                 (timer : option RawTimer.t)
| timer_update (timer : option RawTimer.t)
| user_update (user : option RawUser.t)
| user_list
| ping
| unknown (type : string).
End RawMessage.

(** What the formatters return: the records of [messages.d.ts], with a
    [number] where they have a number. *)

Module Interval.
Record t : Type := mk {
  name : string;
  duration : number;
  alert : string;
  customCSS : string
}.

(** The object, as a formatter reads it back. *)
Definition to_raw (iv : t) : RawInterval.t :=
  {| RawInterval.name := Some (name iv);
     RawInterval.duration := Some (JsValue.Number (duration iv));
     RawInterval.alert := Some (alert iv);
     RawInterval.customCSS := Some (customCSS iv) |}.
End Interval.

Module IntervalList.
Record t : Type := mk {
  lastUpdated : number;
  items : list Interval.t
}.

Definition to_raw (l : t) : RawIntervalList.t :=
  {| RawIntervalList.lastUpdated := Some (JsValue.Number (lastUpdated l));
     RawIntervalList.items :=
       RawItems.Array (map (fun iv => Some (Interval.to_raw iv)) (items l)) |}.
End IntervalList.

Module SessionUpdate.
Record t : Type := mk {
  name : string;
  description : string;
  intervals : IntervalList.t
}.

Definition to_raw (u : t) : RawSessionUpdate.t :=
  {| RawSessionUpdate.name := Some (name u);
     RawSessionUpdate.description := Some (description u);
     RawSessionUpdate.intervals := Some (IntervalList.to_raw (intervals u)) |}.
End SessionUpdate.

Module TimerState.
Record t : Type := mk {
  repeat : bool;
  interval : number;
  remaining : number;
  isRunning : bool;
  isPaused : bool
}.

Definition to_raw (timer : t) : RawTimer.t :=
  {| RawTimer.repeat := Some (repeat timer);
     RawTimer.interval := Some (JsValue.Number (interval timer));
     RawTimer.remaining := Some (JsValue.Number (remaining timer));
     RawTimer.isRunning := Some (isRunning timer);
     RawTimer.isPaused := Some (isPaused timer) |}.
End TimerState.

Module IncomingMessage.
Inductive t : Type :=
| session_join (sessionId : string) (session : SessionUpdate.t)
               (timer : TimerState.t) (user : User.t)
| session_update (session : SessionUpdate.t) (timer : option TimerState.t)
| timer_update (timer : TimerState.t)
| user_update (user : User.t)
| user_list
| ping.

(** The object a formatted message is, as a formatter reads it back. *)
Definition to_raw (m : t) : RawMessage.t :=
  match m with
  | session_join sessionId session timer user =>
      RawMessage.session_join (Some sessionId)
                              (Some (SessionUpdate.to_raw session))
                              (Some (TimerState.to_raw timer))
                              (Some (RawUser.of_user user))
  | session_update session timer =>
      RawMessage.session_update (Some (SessionUpdate.to_raw session))
                                (option_map TimerState.to_raw timer)
  | timer_update timer => RawMessage.timer_update (Some (TimerState.to_raw timer))
  | user_update user => RawMessage.user_update (Some (RawUser.of_user user))
  | user_list => RawMessage.user_list
  | ping => RawMessage.ping
  end.
End IncomingMessage.

(** [formatInterval(interval)] *)
Definition formatInterval (interval : option RawInterval.t) : Interval.t :=
  let field {A} (f : RawInterval.t -> option A) : option A :=
    match interval with
    | Some iv => f iv
    | None => None
    end in
  {| Interval.name := clean MAX_NAME_LENGTH (field RawInterval.name);
     Interval.duration :=
       Math_max (Num MIN_DURATION)
                (Math_min (Num MAX_DURATION)
                          (number_or DEFAULT_DURATION (field RawInterval.duration)));
     Interval.alert :=
       str_or "Default" (Some (clean MAX_NAME_LENGTH (field RawInterval.alert)));
     Interval.customCSS := trim (str_or "" (field RawInterval.customCSS)) |}.

(** [formatIntervalList(intervals)]; [lastUpdated] is
    [Number(intervals?.lastUpdated ?? Date.now())]. *)
Definition formatIntervalList (now : Z) (intervals : RawIntervalList.t)
  : IntervalList.t :=
  {| IntervalList.lastUpdated :=
       match RawIntervalList.lastUpdated intervals with
       | Some value => JsValue.toNumber value
       | None => Num now
       end;
     IntervalList.items :=
       match RawIntervalList.items intervals with
       | RawItems.Array elements => map formatInterval elements
       | RawItems.Other _ => []
       end |}.

(** [formatTimer(timer)] *)
Definition formatTimer (timer : RawTimer.t) : TimerState.t :=
  {| TimerState.repeat := bool_or_false (RawTimer.repeat timer);
     TimerState.interval :=
       Math_max (Num 0)
                (Math_min (number_or 0 (RawTimer.interval timer))
                          (Num MAX_SAFE_INTEGER));
     TimerState.remaining :=
       Math_max (Num 0)
                (Math_min (number_or (DEFAULT_DURATION * 1000)
                                     (RawTimer.remaining timer))
                          (Num (MAX_DURATION * 1000)));
     TimerState.isRunning := bool_or_false (RawTimer.isRunning timer);
     TimerState.isPaused := bool_or_false (RawTimer.isPaused timer) |}.

Definition or_empty_list (intervals : option RawIntervalList.t) : RawIntervalList.t :=
  match intervals with
  | Some l => l
  | None => RawIntervalList.empty
  end.

Definition or_empty_timer (timer : option RawTimer.t) : RawTimer.t :=
  match timer with
  | Some t => t
  | None => RawTimer.empty
  end.

Definition or_empty_update (session : option RawSessionUpdate.t) : RawSessionUpdate.t :=
  match session with
  | Some s => s
  | None => RawSessionUpdate.empty
  end.

(** [formatSessionUpdate(session)] *)
Definition formatSessionUpdate (now : Z) (session : RawSessionUpdate.t)
  : SessionUpdate.t :=
  {| SessionUpdate.name := clean MAX_STRING_LENGTH (RawSessionUpdate.name session);
     SessionUpdate.description :=
       clean MAX_STRING_LENGTH (RawSessionUpdate.description session);
     SessionUpdate.intervals :=
       formatIntervalList now (or_empty_list (RawSessionUpdate.intervals session)) |}.

Definition formatSessionJoinMsg (now : Z) (sessionId : option string)
           (session : option RawSessionUpdate.t) (timer : option RawTimer.t)
           (user : option RawUser.t) : IncomingMessage.t :=
  IncomingMessage.session_join
    (formatSessionId sessionId)
    (formatSessionUpdate now (or_empty_update session))
    (formatTimer (or_empty_timer timer))
    (formatUser (or_empty_user user)).

Definition formatSessionUpdateMsg (now : Z) (session : option RawSessionUpdate.t)
           (timer : option RawTimer.t) : IncomingMessage.t :=
  IncomingMessage.session_update
    (formatSessionUpdate now (or_empty_update session))
    (option_map formatTimer timer).

Definition formatTimerUpdateMsg (timer : option RawTimer.t) : IncomingMessage.t :=
  IncomingMessage.timer_update (formatTimer (or_empty_timer timer)).

Definition formatUserUpdateMsg (user : option RawUser.t) : IncomingMessage.t :=
  IncomingMessage.user_update (formatUser (or_empty_user user)).

(** [formatIncoming(data)] *)
Definition formatIncoming (now : Z) (data : RawMessage.t) : outcome IncomingMessage.t :=
  match data with
  | RawMessage.session_join sessionId session timer user =>
      Ret (formatSessionJoinMsg now sessionId session timer user)
  | RawMessage.session_update session timer =>
      Ret (formatSessionUpdateMsg now session timer)
  | RawMessage.timer_update timer => Ret (formatTimerUpdateMsg timer)
  | RawMessage.user_list => Ret IncomingMessage.user_list
  | RawMessage.user_update user => Ret (formatUserUpdateMsg user)
  | RawMessage.ping => Ret IncomingMessage.ping
  | RawMessage.unknown _ => Throw
  end.
End Json.

(** A typed object is one of these frames, and a typed result one of
    these results: every number is itself. *)
Module Typed.
Definition value (n : Z) : JsValue.t := JsValue.Number (Num n).

Definition raw_interval (iv : RawInterval.t) : Json.RawInterval.t :=
  {| Json.RawInterval.name := RawInterval.name iv;
     Json.RawInterval.duration := option_map value (RawInterval.duration iv);
     Json.RawInterval.alert := RawInterval.alert iv;
     Json.RawInterval.customCSS := RawInterval.customCSS iv |}.

Definition raw_items (items : RawItems.t) : Json.RawItems.t :=
  match items with
  | RawItems.Array elements =>
      Json.RawItems.Array (map (option_map raw_interval) elements)
  | RawItems.Other other => Json.RawItems.Other other
  end.

Definition raw_list (l : RawIntervalList.t) : Json.RawIntervalList.t :=
  {| Json.RawIntervalList.lastUpdated :=
       option_map value (RawIntervalList.lastUpdated l);
     Json.RawIntervalList.items := raw_items (RawIntervalList.items l) |}.

Definition raw_update (u : RawSessionUpdate.t) : Json.RawSessionUpdate.t :=
  {| Json.RawSessionUpdate.name := RawSessionUpdate.name u;
     Json.RawSessionUpdate.description := RawSessionUpdate.description u;
     Json.RawSessionUpdate.intervals :=
       option_map raw_list (RawSessionUpdate.intervals u) |}.

Definition raw_timer (state : RawTimer.t) : Json.RawTimer.t :=
  {| Json.RawTimer.repeat := RawTimer.repeat state;
     Json.RawTimer.interval := option_map value (RawTimer.interval state);
     Json.RawTimer.remaining := option_map value (RawTimer.remaining state);
     Json.RawTimer.isRunning := RawTimer.isRunning state;
     Json.RawTimer.isPaused := RawTimer.isPaused state |}.

Definition raw_message (data : RawMessage.t) : Json.RawMessage.t :=
  match data with
  | RawMessage.session_join sessionId session timer user =>
      Json.RawMessage.session_join sessionId (option_map raw_update session)
                                   (option_map raw_timer timer) user
  | RawMessage.session_update session timer =>
      Json.RawMessage.session_update (option_map raw_update session)
                                     (option_map raw_timer timer)
  | RawMessage.timer_update timer =>
      Json.RawMessage.timer_update (option_map raw_timer timer)
  | RawMessage.user_update user => Json.RawMessage.user_update user
  | RawMessage.user_list => Json.RawMessage.user_list
  | RawMessage.ping => Json.RawMessage.ping
  | RawMessage.unknown type => Json.RawMessage.unknown type
  end.

Definition interval (iv : Interval.t) : Json.Interval.t :=
  {| Json.Interval.name := Interval.name iv;
     Json.Interval.duration := Num (Interval.duration iv);
     Json.Interval.alert := Interval.alert iv;
     Json.Interval.customCSS := Interval.customCSS iv |}.

Definition interval_list (l : IntervalList.t) : Json.IntervalList.t :=
  {| Json.IntervalList.lastUpdated := Num (IntervalList.lastUpdated l);
     Json.IntervalList.items := map interval (IntervalList.items l) |}.

Definition update (u : SessionUpdate.t) : Json.SessionUpdate.t :=
  {| Json.SessionUpdate.name := SessionUpdate.name u;
     Json.SessionUpdate.description := SessionUpdate.description u;
     Json.SessionUpdate.intervals := interval_list (SessionUpdate.intervals u) |}.

Definition timer (state : TimerState.t) : Json.TimerState.t :=
  {| Json.TimerState.repeat := TimerState.repeat state;
     Json.TimerState.interval := Num (TimerState.interval state);
     Json.TimerState.remaining := Num (TimerState.remaining state);
     Json.TimerState.isRunning := TimerState.isRunning state;
     Json.TimerState.isPaused := TimerState.isPaused state |}.

Definition message (m : IncomingMessage.t) : Json.IncomingMessage.t :=
  match m with
  | IncomingMessage.session_join sessionId session t user =>
      Json.IncomingMessage.session_join sessionId (update session) (timer t) user
  | IncomingMessage.session_update session t =>
      Json.IncomingMessage.session_update (update session) (option_map timer t)
  | IncomingMessage.timer_update t => Json.IncomingMessage.timer_update (timer t)
  | IncomingMessage.user_update user => Json.IncomingMessage.user_update user
  | IncomingMessage.user_list => Json.IncomingMessage.user_list
  | IncomingMessage.ping => Json.IncomingMessage.ping
  end.
End Typed.

(** ** Random identifiers ([messages.ts]) *)

(** [generateUUID()].  [random n] is the value of
    [(Math.random() * 16) | 0] at the [n]-th replacement, a number from 0
    to 15. *)
Module UUID.

(** [v.toString(16)] for a [v] from 0 to 15. *)
Definition hex_digit (v : Z) : ascii :=
  if v <? 10 then ascii_of_nat (48 + Z.to_nat v) else ascii_of_nat (87 + Z.to_nat v).

Definition template : string := "xxxxxxxx-xxxx-4xxx-yxxx-xxxxxxxxxxxx"%string.

(** [template.replace(/[xy]/g, c => ...)], from the [n]-th call of the
    callback on. *)
Fixpoint replace (random : nat -> Z) (n : nat) (s : string) : string :=
  match s with
  | EmptyString => EmptyString
  | String c rest =>
      if Ascii.eqb c "x"%char then
        String (hex_digit (random n)) (replace random (Datatypes.S n) rest)
      else if Ascii.eqb c "y"%char then
        String (hex_digit (Z.lor (Z.land (random n) 3) 8))
               (replace random (Datatypes.S n) rest)
      else String c (replace random n rest)
  end.

Definition generateUUID (random : nat -> Z) : string := replace random 0 template.
End UUID.

(** ** Transport connections ([src/types/server.d.ts]) *)

Module ServerWebSocket.
Record t : Type := mk {
  readyState : Z;
  isAlive : bool;
  socketId : option string;
  sessionId : option string;
  clientId : option string
}.

(** The metadata attached by [handleWebSocketConnection]. *)
Definition opened : t :=
  {| readyState := 1; isAlive := true;
     socketId := None; sessionId := None; clientId := None |}.
End ServerWebSocket.

Definition CLEANUP_INTERVAL : Z := 300000.
Definition SESSION_TIMEOUT : Z := 10 * 60 * 1000.

(** ** The session manager ([sessions.ts], [src/unnamed/part_005]) *)

Module SessionManager.

(** The manager with the world it acts on: the connections it was handed,
    the frames it has written to them (oldest first), and the number of
    calls of [generateUUID] so far. *)
Record t : Type := mk {
  sessions : list (string * SessionInternal.t);
  connections : list (handle * ServerWebSocket.t);
  sent : list (handle * OutgoingMessage.t);
  uuids : nat
}.

Definition empty : t :=
  {| sessions := []; connections := []; sent := []; uuids := 0 |}.

(** A method: it reads and writes the manager, and returns, throws or
    runs out of budget. *)
Definition M (A : Type) : Type := t -> outcome A * t.

Definition ret {A} (a : A) : M A := fun m => (Ret a, m).

Definition bind {A B} (c : M A) (k : A -> M B) : M B :=
  fun m =>
    match c m with
    | (Ret a, m') => k a m'
    | (Throw, m') => (Throw, m')
    | (OutOfFuel, m') => (OutOfFuel, m')
    end.

Declare Scope manager_scope.
Delimit Scope manager_scope with manager.
Notation "x <- c ;; k" := (bind c (fun x => k))
  (at level 61, c at next level, right associativity) : manager_scope.
Notation "c ;; k" := (bind c (fun _ => k))
  (at level 61, right associativity) : manager_scope.
Local Open Scope manager_scope.

Definition get : M t := fun m => (Ret m, m).
Definition modify (f : t -> t) : M unit := fun m => (Ret tt, f m).
Definition lift {A} (o : outcome A) : M A := fun m => (o, m).
Definition skip : M unit := ret tt.

(** A [TypeError]: a property read, or a method called, on [undefined]. *)
Definition throw {A} : M A := fun m => (Throw, m).

(** [try { body } catch (error) { handler }] *)
Definition try_catch (body : M unit) (handler : M unit) : M unit :=
  fun m =>
    match body m with
    | (Throw, m') => handler m'
    | r => r
    end.

Fixpoint forEach {A} (l : list A) (f : A -> M unit) : M unit :=
  match l with
  | [] => skip
  | x :: rest => f x ;; forEach rest f
  end.

(** [array.some(f)]: it stops at the first element that [f] accepts. *)
Fixpoint some {A} (f : A -> outcome bool) (l : list A) : outcome bool :=
  match l with
  | [] => Ret false
  | x :: rest => obind (f x) (fun found => if found then Ret true else some f rest)
  end.

(** [array.filter(f).length] *)
Fixpoint count {A} (f : A -> outcome bool) (l : list A) : outcome nat :=
  match l with
  | [] => Ret 0%nat
  | x :: rest =>
      obind (f x)
            (fun kept => omap (fun n => if kept then Datatypes.S n else n)
                              (count f rest))
  end.

Definition socket (ws : handle) (m : t) : ServerWebSocket.t :=
  match lookup Nat.eqb ws (connections m) with
  | Some c => c
  | None => ServerWebSocket.mk 3 false None None None
  end.

Definition isOpen (m : t) (ws : handle) : bool :=
  ServerWebSocket.readyState (socket ws m) =? 1.

Definition setSocket (ws : handle) (f : ServerWebSocket.t -> ServerWebSocket.t)
  : M unit :=
  modify (fun m =>
            {| sessions := sessions m;
               connections := assign Nat.eqb ws (f (socket ws m)) (connections m);
               sent := sent m;
               uuids := uuids m |}).

Definition setSessions
           (f : list (string * SessionInternal.t) -> list (string * SessionInternal.t))
  : M unit :=
  modify (fun m =>
            {| sessions := f (sessions m);
               connections := connections m;
               sent := sent m;
               uuids := uuids m |}).

(** [Array.from(user.sockets.values()).some(ws => ws.readyState === 1)];
    on a user that has no [sockets], reading [values] is a [TypeError]. *)
Definition userOnline (m : t) (user : UserInternal.t) : outcome bool :=
  match UserInternal.sockets user with
  | Some sockets => Ret (existsb (fun kv => isOpen m (snd kv)) sockets)
  | None => Throw
  end.

(** [Object.values(session.users).some(u => ...some(readyState === 1))] *)
Definition hasOnline (m : t) (session : SessionInternal.t) : outcome bool :=
  some (fun kv => userOnline m (snd kv)) (SessionInternal.users session).

Definition nonempty (value : option string) : bool :=
  match value with
  | Some s => negb (is_empty s)
  | None => false
  end.

Definition same (a : option string) (b : string) : bool :=
  match a with
  | Some s => String.eqb s b
  | None => false
  end.

Definition same_opt (a b : option string) : bool :=
  match a, b with
  | Some x, Some y => String.eqb x y
  | None, None => true
  | _, _ => false
  end.

(** A session with some of its properties written. *)
Definition withTimer (core : TimerCore.t) (session : SessionInternal.t)
  : SessionInternal.t :=
  {| SessionInternal.sessionId := SessionInternal.sessionId session;
     SessionInternal.name := SessionInternal.name session;
     SessionInternal.description := SessionInternal.description session;
     SessionInternal.intervals := SessionInternal.intervals session;
     SessionInternal.timer := TimerCore.state core;
     SessionInternal.timerCore := core;
     SessionInternal.users := SessionInternal.users session;
     SessionInternal.createdAt := SessionInternal.createdAt session;
     SessionInternal.lastActivity := SessionInternal.lastActivity session;
     SessionInternal.emptyAt := SessionInternal.emptyAt session |}.

Definition withCore (core : TimerCore.t) (session : SessionInternal.t)
  : SessionInternal.t :=
  {| SessionInternal.sessionId := SessionInternal.sessionId session;
     SessionInternal.name := SessionInternal.name session;
     SessionInternal.description := SessionInternal.description session;
     SessionInternal.intervals := SessionInternal.intervals session;
     SessionInternal.timer := SessionInternal.timer session;
     SessionInternal.timerCore := core;
     SessionInternal.users := SessionInternal.users session;
     SessionInternal.createdAt := SessionInternal.createdAt session;
     SessionInternal.lastActivity := SessionInternal.lastActivity session;
     SessionInternal.emptyAt := SessionInternal.emptyAt session |}.

Definition withUsers (users : list (string * UserInternal.t))
           (session : SessionInternal.t) : SessionInternal.t :=
  {| SessionInternal.sessionId := SessionInternal.sessionId session;
     SessionInternal.name := SessionInternal.name session;
     SessionInternal.description := SessionInternal.description session;
     SessionInternal.intervals := SessionInternal.intervals session;
     SessionInternal.timer := SessionInternal.timer session;
     SessionInternal.timerCore := SessionInternal.timerCore session;
     SessionInternal.users := users;
     SessionInternal.createdAt := SessionInternal.createdAt session;
     SessionInternal.lastActivity := SessionInternal.lastActivity session;
     SessionInternal.emptyAt := SessionInternal.emptyAt session |}.

Definition withEmptyAt (emptyAt : option Z) (session : SessionInternal.t)
  : SessionInternal.t :=
  {| SessionInternal.sessionId := SessionInternal.sessionId session;
     SessionInternal.name := SessionInternal.name session;
     SessionInternal.description := SessionInternal.description session;
     SessionInternal.intervals := SessionInternal.intervals session;
     SessionInternal.timer := SessionInternal.timer session;
     SessionInternal.timerCore := SessionInternal.timerCore session;
     SessionInternal.users := SessionInternal.users session;
     SessionInternal.createdAt := SessionInternal.createdAt session;
     SessionInternal.lastActivity := SessionInternal.lastActivity session;
     SessionInternal.emptyAt := emptyAt |}.

Definition withLastActivity (lastActivity : Z) (session : SessionInternal.t)
  : SessionInternal.t :=
  {| SessionInternal.sessionId := SessionInternal.sessionId session;
     SessionInternal.name := SessionInternal.name session;
     SessionInternal.description := SessionInternal.description session;
     SessionInternal.intervals := SessionInternal.intervals session;
     SessionInternal.timer := SessionInternal.timer session;
     SessionInternal.timerCore := SessionInternal.timerCore session;
     SessionInternal.users := SessionInternal.users session;
     SessionInternal.createdAt := SessionInternal.createdAt session;
     SessionInternal.lastActivity := lastActivity;
     SessionInternal.emptyAt := SessionInternal.emptyAt session |}.

Definition withUpdate (update : SessionUpdate.t) (session : SessionInternal.t)
  : SessionInternal.t :=
  {| SessionInternal.sessionId := SessionInternal.sessionId session;
     SessionInternal.name := SessionUpdate.name update;
     SessionInternal.description := SessionUpdate.description update;
     SessionInternal.intervals := SessionUpdate.intervals update;
     SessionInternal.timer := SessionInternal.timer session;
     SessionInternal.timerCore := SessionInternal.timerCore session;
     SessionInternal.users := SessionInternal.users session;
     SessionInternal.createdAt := SessionInternal.createdAt session;
     SessionInternal.lastActivity := SessionInternal.lastActivity session;
     SessionInternal.emptyAt := SessionInternal.emptyAt session |}.

(** A user with some of its properties written. *)
Definition withOfflineAt (offlineAt : option Z) (user : UserInternal.t)
  : UserInternal.t :=
  {| UserInternal.clientId := UserInternal.clientId user;
     UserInternal.name := UserInternal.name user;
     UserInternal.avatarUrl := UserInternal.avatarUrl user;
     UserInternal.isOnline := UserInternal.isOnline user;
     UserInternal.lastPing := UserInternal.lastPing user;
     UserInternal.offlineAt := offlineAt;
     UserInternal.ws := UserInternal.ws user;
     UserInternal.sockets := UserInternal.sockets user |}.

Definition withSockets (sockets : SocketMap) (user : UserInternal.t)
  : UserInternal.t :=
  {| UserInternal.clientId := UserInternal.clientId user;
     UserInternal.name := UserInternal.name user;
     UserInternal.avatarUrl := UserInternal.avatarUrl user;
     UserInternal.isOnline := UserInternal.isOnline user;
     UserInternal.lastPing := UserInternal.lastPing user;
     UserInternal.offlineAt := UserInternal.offlineAt user;
     UserInternal.ws := UserInternal.ws user;
     UserInternal.sockets := Some sockets |}.

Definition withProfile (name avatarUrl : string) (user : UserInternal.t)
  : UserInternal.t :=
  {| UserInternal.clientId := UserInternal.clientId user;
     UserInternal.name := name;
     UserInternal.avatarUrl := avatarUrl;
     UserInternal.isOnline := UserInternal.isOnline user;
     UserInternal.lastPing := UserInternal.lastPing user;
     UserInternal.offlineAt := UserInternal.offlineAt user;
     UserInternal.ws := UserInternal.ws user;
     UserInternal.sockets := UserInternal.sockets user |}.

(** [Object.assign(target, source)] with a [source] that comes from
    [formatInternalUser]: every property is copied over, and [sockets],
    which the source does not have, is left as it is in the target. *)
Definition assignUser (target source : UserInternal.t) : UserInternal.t :=
  {| UserInternal.clientId := UserInternal.clientId source;
     UserInternal.name := UserInternal.name source;
     UserInternal.avatarUrl := UserInternal.avatarUrl source;
     UserInternal.isOnline := UserInternal.isOnline source;
     UserInternal.lastPing := UserInternal.lastPing source;
     UserInternal.offlineAt := UserInternal.offlineAt source;
     UserInternal.ws := UserInternal.ws source;
     UserInternal.sockets := UserInternal.sockets target |}.

Section Manager.
(** [crypto.createHash('sha256').update(input).digest('hex')] *)
Variable sha256_hex : string -> string.
(** The value of the [n]-th call of [generateUUID()]. *)
Variable uuid : nat -> string.

(** [hashString(input)] *)
Definition hashString (input : string) : string := sha256_hex input.

(** [generateUUID()] *)
Definition generateUUID : M string :=
  fun m =>
    (Ret (uuid (uuids m)),
     {| sessions := sessions m; connections := connections m;
        sent := sent m; uuids := Datatypes.S (uuids m) |}).

(** A formatter that calls [formatClientId(input)]: [generateUUID()] is
    called, and its value used, when the input is not a client id. *)
Definition withClientId {A} (input : option string) (format : string -> A) : M A :=
  if CLIENT_ID_REGEX (trim (toLowerCase (str_or "" input)))
  then m <- get ;; ret (format (uuid (uuids m)))
  else fresh <- generateUUID ;; ret (format fresh).

(** [ws.send(JSON.stringify(message))] *)
Definition send (ws : handle) (message : OutgoingMessage.t) : M unit :=
  modify (fun m =>
            {| sessions := sessions m; connections := connections m;
               sent := sent m ++ [(ws, message)]; uuids := uuids m |}).

(** [sendMessage(ws, message)] *)
Definition sendMessage (ws : handle) (message : OutgoingMessage.t) : M unit :=
  m <- get ;;
  if negb (isOpen m ws) then skip else send ws message.

(** [sendError(ws, message)] *)
Definition sendError (ws : handle) (message : string) : M unit :=
  sendMessage ws (formatErrorMsg message).

(** [broadcastToSession(session, message, exclude, ignore)]; calling
    [forEach] on the [sockets] of a user that has none is a
    [TypeError]. *)
Definition broadcastToSession (session : SessionInternal.t)
           (message : OutgoingMessage.t) (exclude ignore : option string)
  : M unit :=
  forEach (SessionInternal.users session)
          (fun entry =>
             let '(clientId, user) := entry in
             if nonempty ignore && same ignore clientId then skip
             else
               match UserInternal.sockets user with
               | None => throw
               | Some sockets =>
                   forEach sockets
                           (fun kv =>
                              m <- get ;;
                              if nonempty exclude
                                 && same_opt exclude
                                      (ServerWebSocket.socketId (socket (snd kv) m))
                              then skip
                              else sendMessage (snd kv) message)
               end).

(** [getSession(sessionId)] *)
Definition getSession (sessionId : option string) : M (option SessionInternal.t) :=
  m <- get ;;
  ret (match sessionId with
       | Some id => slookup id (sessions m)
       | None => None
       end).

(** [setSession(sessionId, session)]: what is stored is a copy. *)
Definition setSession (now : Z) (sessionId : string) (session : SessionInternal.t)
  : M unit :=
  if is_empty sessionId then skip
  else setSessions
         (sassign sessionId
                  (formatInternalSession now (RawSession.of_internal session))).

(** The stored session [sessionId], rewritten in place. *)
Definition updateStored (sessionId : string)
           (f : SessionInternal.t -> SessionInternal.t) : M unit :=
  setSessions (fun sessions =>
                 match slookup sessionId sessions with
                 | Some session => sassign sessionId (f session) sessions
                 | None => sessions
                 end).

(** A handler holds a session that [getSession] returned: the stored
    object itself, until [setSession] puts a copy in its place.  [alias]
    is the key under which the session at hand is the stored object, if
    there is one; a property written to the session at hand is then
    written to the store. *)
Definition assignTo (alias : option string) (session : SessionInternal.t) : M unit :=
  match alias with
  | Some key => updateStored key (fun _ => session)
  | None => skip
  end.

(** The alias of an object kept under [key], after
    [setSession(sessionId, ...)]. *)
Definition unlessReplaced (key : option string) (sessionId : string) : option string :=
  match key with
  | Some k => if negb (is_empty sessionId) && String.eqb sessionId k then None
              else Some k
  | None => None
  end.

(** The timer core of a session is one object, shared by the session
    at hand and by the copy that [setSession] stored: a method called
    on it shows in the stored session too. *)
Definition shareCore (session : SessionInternal.t) : M unit :=
  updateStored (SessionInternal.sessionId session)
               (withCore (SessionInternal.timerCore session)).

(** [session.timer = session.timerCore.sync()] *)
Definition syncTimer (now : Z) (alias : option string) (session : SessionInternal.t)
  : M SessionInternal.t :=
  core <- lift (TimerCore.sync now (SessionInternal.timerCore session)) ;;
  let session := withTimer core session in
  assignTo alias session ;;
  shareCore session ;;
  ret session.

(** [createSession(sessionId, update, timer)] *)
Definition createSession (now : Z) (sessionId : string) (update : SessionUpdate.t)
           (timer : TimerState.t) : M SessionInternal.t :=
  let session := formatInternalSession now (RawSession.of_new sessionId update) in
  let core :=
    TimerCore.updateIntervals
      now (IntervalList.items (SessionInternal.intervals session))
      (SessionInternal.timerCore session) in
  let core := TimerCore.updateState now timer core in
  let session := withTimer core session in
  setSession now (SessionInternal.sessionId session) session ;;
  ret session.

(** [getSocketSession(ws)]: the session, with the key under which it is
    still the stored object. *)
Definition getSocketSession (now : Z) (ws : handle)
  : M (option (SessionInternal.t * option string)) :=
  m <- get ;;
  let key := ServerWebSocket.sessionId (socket ws m) in
  found <- getSession key ;;
  match found with
  | None => sendError ws "Session not found" ;; ret None
  | Some session =>
      let session := withLastActivity now session in
      assignTo key session ;;
      setSession now (SessionInternal.sessionId session) session ;;
      ret (Some (session, unlessReplaced key (SessionInternal.sessionId session)))
  end.

(** [broadcastTimerUpdate(session, exclude)] *)
Definition broadcastTimerUpdate (now : Z) (alias : option string)
           (session : SessionInternal.t) (exclude : option string) : M unit :=
  session <- syncTimer now alias session ;;
  broadcastToSession session (formatTimerUpdatedMsg session) exclude None.

(** [handleSessionJoin(ws, message)].  In the branch of a user that the
    session already has, [sockets.set] on a user without [sockets] is a
    [TypeError]. *)
Definition handleSessionJoin (now : Z) (ws : handle) (message : IncomingMessage.t)
  : M unit :=
  match message with
  | IncomingMessage.session_join sessionId update timer user =>
      socketId <- generateUUID ;;
      clientId <- withClientId (Some (User.clientId user))
                               (fun fresh => formatClientId fresh (Some (User.clientId user))) ;;
      setSocket ws (fun c =>
                      {| ServerWebSocket.readyState := ServerWebSocket.readyState c;
                         ServerWebSocket.isAlive := ServerWebSocket.isAlive c;
                         ServerWebSocket.socketId := Some socketId;
                         ServerWebSocket.sessionId := Some sessionId;
                         ServerWebSocket.clientId := Some clientId |}) ;;
      found <- getSession (Some sessionId) ;;
      let isNew := match found with Some _ => false | None => true end in
      let alias := match found with Some _ => Some sessionId | None => None end in
      session <- match found with
                 | Some session => ret session
                 | None => createSession now sessionId update timer
                 end ;;
      let existing := slookup clientId (SessionInternal.users session) in
      session <- syncTimer now alias session ;;
      session <-
        match existing with
        | Some existing =>
            match UserInternal.sockets existing with
            | None => throw
            | Some sockets =>
                let sockets := sassign socketId ws sockets in
                let existing :=
                  assignUser
                    (withSockets sockets existing)
                    (formatInternalUser
                       now
                       {| RawUser.clientId := Some (User.clientId user);
                          RawUser.name := Some (User.name user);
                          RawUser.avatarUrl := Some (User.avatarUrl user);
                          RawUser.offlineAt := Some None;
                          RawUser.lastPing := Some now;
                          RawUser.ws := None |}) in
                let session :=
                  withUsers (sassign clientId existing (SessionInternal.users session))
                            session in
                assignTo alias session ;;
                m <- get ;;
                online <- lift (hasOnline m session) ;;
                if online && truthy (SessionInternal.emptyAt session)
                then
                  let session := withEmptyAt None session in
                  assignTo alias session ;; ret session
                else ret session
            end
        | None =>
            let hashedId := hashString clientId in
            let created :=
              formatInternalUser
                now
                {| RawUser.clientId := Some hashedId;
                   RawUser.name := Some (User.name user);
                   RawUser.avatarUrl := Some (User.avatarUrl user);
                   RawUser.offlineAt := Some None;
                   RawUser.lastPing := Some now;
                   RawUser.ws := None |} in
            let session :=
              withUsers (sassign clientId created (SessionInternal.users session))
                        session in
            assignTo alias session ;; ret session
        end ;;
      setSession now (SessionInternal.sessionId session) session ;;
      reply <-
        withClientId
          (Some clientId)
          (fun fresh =>
             if isNew then formatSessionCreatedMsg fresh sessionId clientId
             else formatSessionJoinedMsg fresh now sessionId clientId session) ;;
      sendMessage ws reply ;;
      broadcastToSession
        session
        (formatUserConnectedMsg (SessionInternal.sessionId session)
                                (slookup clientId (SessionInternal.users session)))
        (Some socketId) (Some clientId)
  | _ => skip
  end.

(** [handleSessionUpdate(ws, message)].  The message at hand is the
    formatted one; [Array.isArray] looks at the array it carries. *)
Definition handleSessionUpdate (now : Z) (ws : handle) (message : IncomingMessage.t)
  : M unit :=
  match message with
  | IncomingMessage.session_update update timer =>
      found <- getSocketSession now ws ;;
      match found with
      | None => skip
      | Some (session, alias) =>
          if negb (RawItems.isArray
                     (RawItems.of_items
                        (IntervalList.items (SessionUpdate.intervals update))))
          then sendError ws "Invalid intervals data"
          else
            let session := withUpdate update session in
            let core :=
              TimerCore.updateIntervals
                now (IntervalList.items (SessionInternal.intervals session))
                (SessionInternal.timerCore session) in
            let session := withCore core session in
            assignTo alias session ;;
            shareCore session ;;
            session <-
              match timer with
              | Some timer =>
                  let session :=
                    withTimer (TimerCore.updateState now timer core) session in
                  assignTo alias session ;;
                  shareCore session ;;
                  ret session
              | None => syncTimer now alias session
              end ;;
            setSession now (SessionInternal.sessionId session) session ;;
            m <- get ;;
            broadcastToSession session (formatSessionUpdatedMsg now session)
                               (ServerWebSocket.socketId (socket ws m)) None ;;
            broadcastTimerUpdate now alias session
                                 (ServerWebSocket.socketId (socket ws m))
      end
  | _ => skip
  end.

(** [handleTimerUpdate(ws, message)] *)
Definition handleTimerUpdate (now : Z) (ws : handle) (message : IncomingMessage.t)
  : M unit :=
  match message with
  | IncomingMessage.timer_update timer =>
      found <- getSocketSession now ws ;;
      match found with
      | None => skip
      | Some (session, alias) =>
          let session :=
            withTimer (TimerCore.updateState now timer
                                             (SessionInternal.timerCore session))
                      session in
          assignTo alias session ;;
          shareCore session ;;
          setSession now (SessionInternal.sessionId session) session ;;
          m <- get ;;
          broadcastTimerUpdate now alias session
                               (ServerWebSocket.socketId (socket ws m))
      end
  | _ => skip
  end.

(** [handleUserUpdate(ws, message)] *)
Definition handleUserUpdate (now : Z) (ws : handle) (message : IncomingMessage.t)
  : M unit :=
  match message with
  | IncomingMessage.user_update user =>
      m <- get ;;
      match ServerWebSocket.clientId (socket ws m) with
      | None => skip
      | Some clientId =>
          if is_empty clientId then skip
          else
            found <- getSocketSession now ws ;;
            match found with
            | None => skip
            | Some (session, alias) =>
                match slookup clientId (SessionInternal.users session) with
                | None => skip
                | Some existing =>
                    let existing :=
                      withProfile (User.name user) (User.avatarUrl user) existing in
                    let session :=
                      withUsers (sassign clientId existing
                                         (SessionInternal.users session))
                                session in
                    assignTo alias session ;;
                    setSession now (SessionInternal.sessionId session) session ;;
                    m <- get ;;
                    broadcastToSession
                      session
                      (formatUserUpdatedMsg (SessionInternal.sessionId session)
                                            (Some existing))
                      (ServerWebSocket.socketId (socket ws m)) None
                end
            end
      end
  | _ => skip
  end.

(** [handleUserList(ws, message)] *)
Definition handleUserList (now : Z) (ws : handle) (message : IncomingMessage.t)
  : M unit :=
  match message with
  | IncomingMessage.user_list =>
      found <- getSocketSession now ws ;;
      match found with
      | None => skip
      | Some (session, _) => sendMessage ws (formatUsersConnectedMsg session)
      end
  | _ => skip
  end.

(** [this.handlers.get(type)] *)
Definition handlers (type : string)
  : option (Z -> handle -> IncomingMessage.t -> M unit) :=
  if String.eqb type "session_join" then Some handleSessionJoin
  else if String.eqb type "session_update" then Some handleSessionUpdate
  else if String.eqb type "timer_update" then Some handleTimerUpdate
  else if String.eqb type "user_update" then Some handleUserUpdate
  else if String.eqb type "user_list" then Some handleUserList
  else None.

(** [handleMessage(ws, message)] *)
Definition handleMessage (now : Z) (ws : handle) (message : RawMessage.t) : M unit :=
  try_catch
    (parsed <- lift (formatIncoming now message) ;;
     match handlers (IncomingMessage.type parsed) with
     | Some handler => handler now ws parsed
     | None => sendError ws "Unknown message type"
     end)
    (let messageType := str_or "unknown" (Some (RawMessage.type message)) in
     sendError ws ("Failed to process " ++ messageType)).

(** [cleanupSessions()] *)
Definition cleanupSessions (now : Z) : M unit :=
  m <- get ;;
  forEach (sessions m)
          (fun entry =>
             let '(sessionId, session) := entry in
             online <- lift (count (fun kv => userOnline m (snd kv))
                                   (SessionInternal.users session)) ;;
             if (online =? 0)%nat
                && truthy (SessionInternal.emptyAt session)
                && (match SessionInternal.emptyAt session with
                    | Some emptyAt => now - emptyAt >? SESSION_TIMEOUT
                    | None => false
                    end)
             then setSessions (sremove sessionId)
             else skip).

(** The inner loop of [trackOfflineUsers()] over the users of one
    session: whether it ran to the end, and the users as it leaves
    them. *)
Fixpoint trackUsers (m : t) (now : Z) (users : list (string * UserInternal.t))
  : outcome unit * list (string * UserInternal.t) :=
  match users with
  | [] => (Ret tt, [])
  | (clientId, user) :: rest =>
      match userOnline m user with
      | Ret isOnline =>
          let user :=
            if negb isOnline && negb (truthy (UserInternal.offlineAt user))
            then withOfflineAt (Some now) user
            else if isOnline && truthy (UserInternal.offlineAt user)
                 then withOfflineAt None user
                 else user in
          let '(done, rest) := trackUsers m now rest in
          (done, (clientId, user) :: rest)
      | Throw => (Throw, users)
      | OutOfFuel => (OutOfFuel, users)
      end
  end.

(** The outer loop, over the sessions. *)
Fixpoint trackSessions (m : t) (now : Z) (stored : list (string * SessionInternal.t))
  : outcome unit * list (string * SessionInternal.t) :=
  match stored with
  | [] => (Ret tt, [])
  | (sessionId, session) :: rest =>
      let '(done, users) := trackUsers m now (SessionInternal.users session) in
      let session := withUsers users session in
      match done with
      | Ret _ =>
          let '(done, rest) := trackSessions m now rest in
          (done, (sessionId, session) :: rest)
      | _ => (done, (sessionId, session) :: rest)
      end
  end.

(** [trackOfflineUsers()] *)
Definition trackOfflineUsers (now : Z) : M unit :=
  fun m =>
    let '(done, stored) := trackSessions m now (sessions m) in
    (done, {| sessions := stored; connections := connections m;
              sent := sent m; uuids := uuids m |}).

(** [cleanupOfflineUsers()] *)
Definition cleanupOfflineUsers (now : Z) : M unit :=
  trackOfflineUsers now ;;
  m <- get ;;
  forEach (sessions m)
          (fun entry =>
             let '(sessionId, session) := entry in
             let remove :=
               map fst
                   (filter (fun kv =>
                              match UserInternal.offlineAt (snd kv) with
                              | Some offlineAt =>
                                  negb (offlineAt =? 0)
                                  && (now - offlineAt >? CLEANUP_INTERVAL)
                              | None => false
                              end)
                           (SessionInternal.users session)) in
             forEach remove
                     (fun clientId =>
                        m <- get ;;
                        match slookup sessionId (sessions m) with
                        | None => skip
                        | Some session =>
                            let user := slookup clientId (SessionInternal.users session) in
                            let session :=
                              withUsers (sremove clientId (SessionInternal.users session))
                                        session in
                            updateStored sessionId (fun _ => session) ;;
                            broadcastToSession
                              session
                              (formatUserDisconnectedMsg sessionId user)
                              None (Some clientId)
                        end) ;;
             updateStored
               sessionId
               (fun session =>
                  if (List.length (SessionInternal.users session) =? 0)%nat
                     && negb (truthy (SessionInternal.emptyAt session))
                  then withEmptyAt (Some now) session
                  else session)).

(** The body of the timer that [startCleanup()] arms. *)
Definition cleanupTick (now : Z) : M unit :=
  cleanupSessions now ;;
  cleanupOfflineUsers now.

(** [removeClient(ws)]; [user.sockets.delete] on a user without
    [sockets] is a [TypeError]. *)
Definition removeClient (now : Z) (ws : handle) : M unit :=
  m <- get ;;
  let c := socket ws m in
  match ServerWebSocket.socketId c, ServerWebSocket.sessionId c,
        ServerWebSocket.clientId c with
  | Some socketId, Some sessionId, Some clientId =>
      if is_empty socketId || is_empty sessionId || is_empty clientId then skip
      else
        found <- getSession (Some sessionId) ;;
        match found with
        | None => skip
        | Some session =>
            match slookup clientId (SessionInternal.users session) with
            | None => skip
            | Some user =>
                match UserInternal.sockets user with
                | None => throw
                | Some sockets =>
                    let sockets := sremove socketId sockets in
                    let user := withSockets sockets user in
                    let session :=
                      withUsers (sassign clientId user (SessionInternal.users session))
                                session in
                    updateStored sessionId (fun _ => session) ;;
                    if (0 <? List.length sockets)%nat then skip
                    else
                      let user := withOfflineAt (Some now) user in
                      let session :=
                        withUsers (sassign clientId user (SessionInternal.users session))
                                  session in
                      updateStored sessionId (fun _ => session) ;;
                      broadcastToSession
                        session
                        (formatUserUpdatedMsg (SessionInternal.sessionId session)
                                              (Some user))
                        (Some socketId) (Some clientId) ;;
                      m <- get ;;
                      online <- lift (hasOnline m session) ;;
                      if negb online && negb (truthy (SessionInternal.emptyAt session))
                      then updateStored sessionId
                                        (fun _ => withEmptyAt (Some now) session)
                      else skip
                end
            end
        end
  | _, _, _ => skip
  end.

(** *** The transport's calls ([src/server/server.ts]) *)

(** [handleWebSocketConnection(ws)]: a connection that has just opened. *)
Definition handleWebSocketConnection (ws : handle) : M unit :=
  setSocket ws (fun _ => ServerWebSocket.opened).

(** [handleWebSocketClose(ws, code, reason)]: the connection is closed
    when the event is delivered.  Nothing catches what [removeClient]
    throws. *)
Definition handleWebSocketClose (now : Z) (ws : handle) : M unit :=
  setSocket ws (fun c =>
                  {| ServerWebSocket.readyState := 3;
                     ServerWebSocket.isAlive := ServerWebSocket.isAlive c;
                     ServerWebSocket.socketId := ServerWebSocket.socketId c;
                     ServerWebSocket.sessionId := ServerWebSocket.sessionId c;
                     ServerWebSocket.clientId := ServerWebSocket.clientId c |}) ;;
  removeClient now ws.

(** [handleWebSocketMessage(ws, message)] on a frame that parsed as an
    object; a frame with no [type] has the empty one.  The [pong] is
    written with [ws.send] directly. *)
Definition handleWebSocketMessage (now : Z) (ws : handle) (data : RawMessage.t)
  : M unit :=
  if is_empty (RawMessage.type data)
  then sendError ws "Invalid message format"
  else
    match data with
    | RawMessage.ping => send ws formatPongMsg
    | _ => handleMessage now ws data
    end.

End Manager.
End SessionManager.

(** * Vocabulary of the properties *)

Module TimerCoreSpec.
Import TimerCore.

(** The pair that the specification calls the timer's reading. *)
Definition reading (tc : t) : Z * Z :=
  (S.interval (state tc), S.remaining (state tc)).

(** The intervals of the test suite and of the specification's scenarios. *)
Definition three_intervals : list Interval.t :=
  [ Interval.mk "Work" 25 "Default" "";
    Interval.mk "Break" 5 "Default" "";
    Interval.mk "LongBreak" 15 "Default" "" ].

(** Two results of [sync()] that agree on the reading. *)
Definition agree (a b : outcome t) : Prop :=
  match a, b with
  | Ret x, Ret y => reading x = reading y
  | Throw, Throw => True
  | OutOfFuel, OutOfFuel => True
  | _, _ => False
  end.

(** A timer that [pause()] and then [start()] were called on while it was
    stopped: it is running, and its baseline was never set
    ([startedAt = 0]). *)
Definition unstarted : t :=
  start 1001000 (pause 1000000 (new three_intervals)).

(** A view that is stopped with a negative remaining time, one that runs
    from the interval before the first, and a list whose interval lasts
    less than nothing. *)
Definition overdrawn_view : TimerState.t :=
  {| TimerState.repeat := false;
     TimerState.interval := 0;
     TimerState.remaining := -5;
     TimerState.isRunning := false;
     TimerState.isPaused := false |}.

Definition early_view : TimerState.t :=
  {| TimerState.repeat := false;
     TimerState.interval := -1;
     TimerState.remaining := 3000;
     TimerState.isRunning := true;
     TimerState.isPaused := false |}.

Definition negative_interval : list Interval.t :=
  [ Interval.mk "Work" (-5) "Default" "" ].

(** A peer's view that is running on an index beyond the three
    intervals. *)
Definition stray_view : TimerState.t :=
  {| TimerState.repeat := true;
     TimerState.interval := 3;
     TimerState.remaining := 3000;
     TimerState.isRunning := true;
     TimerState.isPaused := false |}.

(** A peer's view that is running with nothing left in the first
    interval. *)
Definition expired_view : TimerState.t :=
  {| TimerState.repeat := false;
     TimerState.interval := 0;
     TimerState.remaining := 0;
     TimerState.isRunning := true;
     TimerState.isPaused := false |}.

(** A peer's view that is running three seconds before the end of the
    second interval. *)
Definition running_view : TimerState.t :=
  {| TimerState.repeat := true;
     TimerState.interval := 1;
     TimerState.remaining := 3000;
     TimerState.isRunning := true;
     TimerState.isPaused := false |}.

End TimerCoreSpec.

Module CodecSpec.
Local Open Scope string_scope.

(** A string that does not begin with white space. *)
Definition starts_clean (s : string) : Prop :=
  match s with
  | EmptyString => True
  | String c _ => is_space c = false
  end.

(** A field is settled when cutting it leaves no white space at its end. *)
Definition settled (limit : nat) (value : option string) : Prop :=
  trim (clean limit value) = clean limit value.

(** In the place of a number: a value that [Number(...)] converts, or
    one that is missing or falsy (the fallback is taken), but not a truthy
    value that converts to [NaN]. *)
Definition numeric (value : option JsValue.t) : bool :=
  match value with
  | Some v =>
      if JsValue.truthy v
      then match JsValue.toNumber v with Num _ => true | NaN => false end
      else true
  | None => true
  end.

(** The same, and the number is positive. *)
Definition positive_value (value : option JsValue.t) : bool :=
  match value with
  | Some v =>
      if JsValue.truthy v
      then match JsValue.toNumber v with Num n => (0 <? n)%Z | NaN => false end
      else true
  | None => true
  end.

Definition settled_interval (interval : option Json.RawInterval.t) : Prop :=
  match interval with
  | Some iv =>
      settled MAX_NAME_LENGTH (Json.RawInterval.name iv) /\
      settled MAX_NAME_LENGTH (Json.RawInterval.alert iv) /\
      numeric (Json.RawInterval.duration iv) = true
  | None => True
  end.

Definition settled_items (items : Json.RawItems.t) : Prop :=
  match items with
  | Json.RawItems.Array elements => Forall settled_interval elements
  | Json.RawItems.Other _ => True
  end.

Definition settled_update (session : Json.RawSessionUpdate.t) : Prop :=
  settled MAX_STRING_LENGTH (Json.RawSessionUpdate.name session) /\
  settled MAX_STRING_LENGTH (Json.RawSessionUpdate.description session) /\
  settled_items (Json.RawIntervalList.items
                   (Json.or_empty_list (Json.RawSessionUpdate.intervals session))).

(** An index that converts, and a remaining time that is missing, falsy
    or converts to a positive number. *)
Definition settled_timer (timer : Json.RawTimer.t) : Prop :=
  numeric (Json.RawTimer.interval timer) = true /\
  positive_value (Json.RawTimer.remaining timer) = true.

(** Names that settle, and no [offlineAt] that is truthy. *)
Definition settled_user (user : RawUser.t) : Prop :=
  settled MAX_NAME_LENGTH (RawUser.name user) /\
  settled MAX_URL_LENGTH (RawUser.avatarUrl user) /\
  match RawUser.offlineAt user with
  | Some offlineAt => truthy offlineAt = false
  | None => True
  end.

(** The messages on which the codec is idempotent. *)
Definition settled_message (message : Json.RawMessage.t) : Prop :=
  match message with
  | Json.RawMessage.session_join _ session timer user =>
      settled_update (Json.or_empty_update session) /\
      settled_timer (Json.or_empty_timer timer) /\
      settled_user (or_empty_user user)
  | Json.RawMessage.session_update session timer =>
      settled_update (Json.or_empty_update session) /\
      settled_timer (Json.or_empty_timer timer)
  | Json.RawMessage.timer_update timer => settled_timer (Json.or_empty_timer timer)
  | Json.RawMessage.user_update user => settled_user (or_empty_user user)
  | _ => True
  end.

(** A display name of 51 characters: 49 letters, a space, a letter. *)
Definition long_name : string :=
  "aaaaaaaaaaaaaaaaaaaaaaaaaaaaaaaaaaaaaaaaaaaaaaaaa b".

Definition renaming : Json.RawMessage.t :=
  Json.RawMessage.user_update
    (Some {| RawUser.clientId := Some "aaaaaaaa-aaaa-4aaa-8aaa-aaaaaaaaaaaa";
             RawUser.name := Some long_name;
             RawUser.avatarUrl := Some "";
             RawUser.offlineAt := None;
             RawUser.lastPing := None;
             RawUser.ws := None |}).

(** The [session] property of a frame with one interval of the given
    [duration]. *)
Definition agenda (duration : JsValue.t) : Json.RawSessionUpdate.t :=
  {| Json.RawSessionUpdate.name := Some "  Focus ";
     Json.RawSessionUpdate.description := None;
     Json.RawSessionUpdate.intervals :=
       Some {| Json.RawIntervalList.lastUpdated := None;
               Json.RawIntervalList.items :=
                 Json.RawItems.Array
                   [Some {| Json.RawInterval.name := Some " Work";
                            Json.RawInterval.duration := Some duration;
                            Json.RawInterval.alert := None;
                            Json.RawInterval.customCSS := None |}] |} |}.

(** A session update whose duration is the text ['abc']. *)
Definition worded : Json.RawMessage.t :=
  Json.RawMessage.session_update
    (Some (agenda (JsValue.Other true NaN))) None.

(** A session update whose fields need trimming, whose duration is the
    text ['25'], and whose timer has one minute left. *)
Definition tidy : Json.RawMessage.t :=
  Json.RawMessage.session_update
    (Some (agenda (JsValue.Other true (Num 25))))
    (Some {| Json.RawTimer.repeat := None;
             Json.RawTimer.interval := Some (JsValue.Number (Num 0));
             Json.RawTimer.remaining := Some (JsValue.Number (Num 60000));
             Json.RawTimer.isRunning := Some true;
             Json.RawTimer.isPaused := None |}).

(** A timer object with its [remaining] property replaced. *)
Definition withRemaining (remaining : option Z) (timer : RawTimer.t) : RawTimer.t :=
  {| RawTimer.repeat := RawTimer.repeat timer;
     RawTimer.interval := RawTimer.interval timer;
     RawTimer.remaining := remaining;
     RawTimer.isRunning := RawTimer.isRunning timer;
     RawTimer.isPaused := RawTimer.isPaused timer;
     RawTimer.startedAt := RawTimer.startedAt timer;
     RawTimer.startedInterval := RawTimer.startedInterval timer;
     RawTimer.pausedAt := RawTimer.pausedAt timer;
     RawTimer.timePaused := RawTimer.timePaused timer |}.

End CodecSpec.

Module SessionManagerSpec.
Import SessionManager.
Local Open Scope string_scope.

(** One run of the random source of [generateUUID()]. *)
Definition socket_ids (n : nat) : string :=
  match n with
  | 0%nat => "00000000-0000-4000-8000-000000000001"
  | 1%nat => "00000000-0000-4000-8000-000000000002"
  | 2%nat => "00000000-0000-4000-8000-000000000003"
  | _ => "00000000-0000-4000-8000-000000000004"
  end.

(** Two client ids. *)
Definition alice : string := "aaaaaaaa-aaaa-4aaa-8aaa-aaaaaaaaaaaa".
Definition bob : string := "bbbbbbbb-bbbb-4bbb-8bbb-bbbbbbbbbbbb".

Definition work : RawInterval.t :=
  {| RawInterval.name := Some "Work"; RawInterval.duration := Some 25;
     RawInterval.alert := Some "Default"; RawInterval.customCSS := Some "" |}.

(** The [session] property of a frame, with the given [intervals.items]. *)
Definition focus (items : RawItems.t) : RawSessionUpdate.t :=
  {| RawSessionUpdate.name := Some "Focus";
     RawSessionUpdate.description := Some "";
     RawSessionUpdate.intervals :=
       Some {| RawIntervalList.lastUpdated := Some 1000000;
               RawIntervalList.items := items |} |}.

(** A [session_join] frame for the session [room-1]. *)
Definition join (clientId name : string) : RawMessage.t :=
  RawMessage.session_join
    (Some "room-1") (Some (focus (RawItems.Array [Some work]))) None
    (Some {| RawUser.clientId := Some clientId; RawUser.name := Some name;
             RawUser.avatarUrl := Some ""; RawUser.offlineAt := None;
             RawUser.lastPing := None; RawUser.ws := None |}).

(** A [session_update] frame whose [intervals.items] is not an array. *)
Definition bad_update (value : NonArray) : RawMessage.t :=
  RawMessage.session_update (Some (focus (RawItems.Other value))) None.

(** The manager after a sequence of calls, from the empty manager.  A call
    that throws leaves the manager as it was when it threw. *)
Definition after (events : list (M unit)) : t :=
  fold_left (fun m event => snd (event m)) events empty.

(** The interval items of the stored session [room-1]. *)
Definition room_items (m : t) : option (list Interval.t) :=
  option_map (fun session => IntervalList.items (SessionInternal.intervals session))
             (slookup "room-1" (sessions m)).

(** The frames written since the manager was in the state [before]. *)
Definition sent_since (before now : t) : list (handle * OutgoingMessage.t) :=
  skipn (List.length (sent before)) (sent now).

(** The open connections of the user [clientId] of the session
    [sessionId]: the connections that joined as that user, as
    [handleSessionJoin] recorded on them, and whose [readyState] is [1]. *)
Definition open_sockets (m : t) (sessionId clientId : string) : list handle :=
  map fst
      (filter (fun entry : handle * ServerWebSocket.t =>
                 (ServerWebSocket.readyState (snd entry) =? 1)%Z
                 && same (ServerWebSocket.sessionId (snd entry)) sessionId
                 && same (ServerWebSocket.clientId (snd entry)) clientId)
              (connections m)).

(** The users of a session that have an open connection. *)
Definition online_users (m : t) (session : SessionInternal.t) : list string :=
  filter (fun clientId =>
            negb (List.length (open_sockets m (SessionInternal.sessionId session)
                                            clientId) =? 0)%nat)
         (map fst (SessionInternal.users session)).

(** The invariant of the specification on a stored session: [emptyAt] is
    set exactly when no user has an open connection. *)
Definition empty_mark_invariant (m : t) (session : SessionInternal.t) : Prop :=
  truthy (SessionInternal.emptyAt session) = true <-> online_users m session = [].

(** What the transport and the cleanup timer deliver to the broker. *)
Inductive event : Type :=
| Connect (ws : handle)
| Message (now : Z) (ws : handle) (data : RawMessage.t)
| Close (now : Z) (ws : handle)
| Tick (now : Z).

(** The user objects of an outbound frame. *)
Definition users_of (message : OutgoingMessage.t) : list User.t :=
  match message with
  | OutgoingMessage.session_joined _ _ session => map snd (Session.users session)
  | OutgoingMessage.user_connected _ user => [user]
  | OutgoingMessage.user_disconnected _ user => [user]
  | OutgoingMessage.user_updated _ user => [user]
  | OutgoingMessage.users_connected _ users => map snd users
  | _ => []
  end.

(** A character of a hexadecimal digest: [0-9] or [a-f]. *)
Definition is_hex (c : ascii) : bool :=
  let n := nat_of_ascii c in
  is_digit c || ((97 <=? n) && (n <=? 102))%nat.

(** A SHA-256 digest in hexadecimal: 64 characters. *)
Definition is_sha256_hex (s : string) : bool :=
  all_chars is_hex s && (String.length s =? 64)%nat.

(** A method that preserves the invariant [I] of the manager, however it
    ends, and returns values that satisfy [Q]. *)
Definition preserves (I : t -> Prop) {A} (c : M A) (Q : A -> Prop) : Prop :=
  forall m, I m -> I (snd (c m)) /\ forall a, fst (c m) = Ret a -> Q a.

Section Hashing.
Variable sha256_hex : string -> string.

(** A user as the store keeps one: under a client id, with the digest of
    that id for [clientId], and without [sockets]. *)
Definition hashed_user (entry : string * UserInternal.t) : Prop :=
  CLIENT_ID_REGEX (fst entry) = true /\
  UserInternal.clientId (snd entry) = hashString sha256_hex (fst entry) /\
  UserInternal.sockets (snd entry) = None.

Definition hashed_session (session : SessionInternal.t) : Prop :=
  Forall hashed_user (SessionInternal.users session).

(** The digest of a client id. *)
Definition hashed_id (id : string) : Prop :=
  exists raw, CLIENT_ID_REGEX raw = true /\ id = hashString sha256_hex raw.

(** A frame all of whose user objects carry a digest. *)
Definition hashed_message (message : OutgoingMessage.t) : Prop :=
  Forall (fun user => hashed_id (User.clientId user)) (users_of message).

(** A manager whose stored users and written frames are such. *)
Definition hashed (m : t) : Prop :=
  Forall (fun entry : string * SessionInternal.t => hashed_session (snd entry))
         (sessions m) /\
  Forall (fun frame : handle * OutgoingMessage.t => hashed_message (snd frame))
         (sent m).
End Hashing.

(** A stand-in for SHA-256 in the examples: one digest for Alice's client
    id and one for every other input. *)
Definition digest (input : string) : string :=
  if String.eqb input alice
  then "aaaaaaaaaaaaaaaaaaaaaaaaaaaaaaaaaaaaaaaaaaaaaaaaaaaaaaaaaaaaaaaa"
  else "bbbbbbbbbbbbbbbbbbbbbbbbbbbbbbbbbbbbbbbbbbbbbbbbbbbbbbbbbbbbbbbb".

(** Alice creates the session, Bob joins it and asks for the list of
    users. *)
Definition visit : list event :=
  [ Connect 1%nat; Message 1000000 1%nat (join alice "Ada");
    Connect 2%nat; Message 1001000 2%nat (join bob "Bob");
    Message 1002000 2%nat RawMessage.user_list ].

Section Scenarios.
Variable sha256_hex : string -> string.

Definition receive : Z -> handle -> RawMessage.t -> M unit :=
  handleWebSocketMessage sha256_hex socket_ids.

(** Alice creates the session. *)
Definition alone : list (M unit) :=
  [ handleWebSocketConnection 1%nat;
    receive 1000000 1%nat (join alice "Ada") ].

(** Alice creates the session; Bob joins it. *)
Definition room : list (M unit) :=
  alone ++ [ handleWebSocketConnection 2%nat;
             receive 1001000 2%nat (join bob "Bob") ].

(** Then Alice joins again, from a second connection. *)
Definition second_tab : list (M unit) :=
  room ++ [ handleWebSocketConnection 3%nat;
            receive 1002000 3%nat (join alice "Ada") ].
End Scenarios.

Section Broker.
Variable sha256_hex : string -> string.
Variable uuid : nat -> string.

(** The call an event makes. *)
Definition deliver (e : event) : M unit :=
  match e with
  | Connect ws => handleWebSocketConnection ws
  | Message now ws data => handleWebSocketMessage sha256_hex uuid now ws data
  | Close now ws => handleWebSocketClose now ws
  | Tick now => cleanupTick now
  end.

(** The broker after a history of events, from its start.  It is followed
    past an exception that nothing catches as well, as if the process went
    on. *)
Definition run (history : list event) : t :=
  fold_left (fun m e => snd (deliver e m)) history empty.
End Broker.
End SessionManagerSpec.

(** ** Vocabulary of the laws of the code *)

Module TimerCoreLawsSpec.
Import TimerCore.

(** [next()] called once at each instant of [times], in order. *)
Definition nexts (times : list Z) (tc : t) : t :=
  fold_left (fun tc now => next now tc) times tc.
End TimerCoreLawsSpec.

Module CodecLawsSpec.
Local Open Scope string_scope.

(** A character of [CLIENT_ID_REGEX]: [a-f], [0-9] or [-]. *)
Definition is_client_char (c : ascii) : bool :=
  let n := nat_of_ascii c in
  ((97 <=? n) && (n <=? 102))%nat || is_digit c || is_dash c.

(** The bounds of a formatted interval. *)
Definition interval_in_bounds (iv : Interval.t) : Prop :=
  MIN_DURATION <= Interval.duration iv <= MAX_DURATION /\
  (String.length (Interval.name iv) <= MAX_NAME_LENGTH)%nat /\
  (String.length (Interval.alert iv) <= MAX_NAME_LENGTH)%nat /\
  Interval.alert iv <> "" /\
  trim (Interval.customCSS iv) = Interval.customCSS iv.

(** The bounds of an interval formatted from a frame of any shape: the
    same, but for a duration that may be [NaN]. *)
Definition formatted_interval (iv : Json.Interval.t) : Prop :=
  match Json.Interval.duration iv with
  | Num d => MIN_DURATION <= d <= MAX_DURATION
  | NaN => True
  end /\
  (String.length (Json.Interval.name iv) <= MAX_NAME_LENGTH)%nat /\
  (String.length (Json.Interval.alert iv) <= MAX_NAME_LENGTH)%nat /\
  Json.Interval.alert iv <> "" /\
  trim (Json.Interval.customCSS iv) = Json.Interval.customCSS iv.

(** The [duration] property of an element of [items]. *)
Definition duration_of (element : option Json.RawInterval.t) : option JsValue.t :=
  match element with
  | Some iv => Json.RawInterval.duration iv
  | None => None
  end.

(** The elements of [items], none when it is not an array. *)
Definition elements_of (items : Json.RawItems.t) : list (option Json.RawInterval.t) :=
  match items with
  | Json.RawItems.Array elements => elements
  | Json.RawItems.Other _ => []
  end.

(** A formatted interval as a typed one; a duration that is [NaN] has no
    typed counterpart and is read as [0]. *)
Definition narrow (iv : Json.Interval.t) : Interval.t :=
  {| Interval.name := Json.Interval.name iv;
     Interval.duration := match Json.Interval.duration iv with
                          | Num d => d
                          | NaN => 0
                          end;
     Interval.alert := Json.Interval.alert iv;
     Interval.customCSS := Json.Interval.customCSS iv |}.

(** An entry of an outbound roster: keyed by the [clientId] of its user,
    which is not empty, with display fields within their limits. *)
Definition roster_entry (entry : string * User.t) : Prop :=
  User.clientId (snd entry) = fst entry /\
  fst entry <> "" /\
  (String.length (User.name (snd entry)) <= MAX_NAME_LENGTH)%nat /\
  (String.length (User.avatarUrl (snd entry)) <= MAX_URL_LENGTH)%nat.

(** One turn of the [reduce] of [formatUserList]. *)
Definition roster_step (acc : list (string * User.t)) (kv : string * RawUser.t)
  : list (string * User.t) :=
  let user := snd kv in
  let key := str_or "" (RawUser.clientId user) in
  if is_empty key then acc else sassign key (formatUser user) acc.
End CodecLawsSpec.

Module SessionManagerLawsSpec.
Import SessionManager.

(** The manager with some frames written. *)
Definition with_frames (m : t) (frames : list (handle * OutgoingMessage.t)) : t :=
  {| sessions := sessions m; connections := connections m;
     sent := sent m ++ frames; uuids := uuids m |}.

(** The manager with its sessions replaced. *)
Definition with_sessions (m : t) (stored : list (string * SessionInternal.t)) : t :=
  {| sessions := stored; connections := connections m;
     sent := sent m; uuids := uuids m |}.

(** A method that only writes frames: it returns, and leaves the sessions,
    the connections and the random source as they were. *)
Definition appends (c : M unit) (m : t) (frames : list (handle * OutgoingMessage.t))
  : Prop :=
  c m = (Ret tt,
         {| sessions := sessions m; connections := connections m;
            sent := sent m ++ frames; uuids := uuids m |}).

(** A user object that has the [sockets] map the manager reads. *)
Definition has_sockets (user : UserInternal.t) : bool :=
  match UserInternal.sockets user with
  | Some _ => true
  | None => false
  end.

(** The connections in the [sockets] of a user, none when it has no
    [sockets]. *)
Definition sockets_of (user : UserInternal.t) : list handle :=
  match UserInternal.sockets user with
  | Some sockets => map snd sockets
  | None => []
  end.

(** A user that a broadcast gets past: it is ignored, or it has
    [sockets]. *)
Definition passable (ignore : option string) (entry : string * UserInternal.t) : bool :=
  (nonempty ignore && same ignore (fst entry)) || has_sockets (snd entry).

(** The users a broadcast gets to: those before the first that it does
    not get past. *)
Fixpoint reached (ignore : option string) (users : list (string * UserInternal.t))
  : list (string * UserInternal.t) :=
  match users with
  | [] => []
  | entry :: rest =>
      if passable ignore entry then entry :: reached ignore rest else []
  end.

(** The connections a broadcast writes to, in the order of the loops: for
    each user it gets to that is not ignored, each socket that is not
    excluded and whose connection is open. *)
Definition recipients (m : t) (session : SessionInternal.t)
           (exclude ignore : option string) : list handle :=
  flat_map
    (fun entry : string * UserInternal.t =>
       if nonempty ignore && same ignore (fst entry) then []
       else
         filter (fun ws =>
                   negb (nonempty exclude
                         && same_opt exclude (ServerWebSocket.socketId (socket ws m)))
                   && isOpen m ws)
                (sockets_of (snd entry)))
    (reached ignore (SessionInternal.users session)).

(** The names of the frames that [formatIncoming] accepts. *)
Definition known_type (type : string) : bool :=
  existsb (String.eqb type)
          ["session_join"; "session_update"; "timer_update"; "user_update";
           "user_list"; "ping"]%string.

(** The session a connection is bound to, if it is stored. *)
Definition bound (m : t) (ws : handle) : option SessionInternal.t :=
  match ServerWebSocket.sessionId (socket ws m) with
  | Some id => slookup id (sessions m)
  | None => None
  end.

(** The stored user a connection joined as, if there is one. *)
Definition bound_user (m : t) (ws : handle) : option UserInternal.t :=
  let c := socket ws m in
  if nonempty (ServerWebSocket.socketId c)
     && nonempty (ServerWebSocket.sessionId c)
     && nonempty (ServerWebSocket.clientId c)
  then
    match bound m ws, ServerWebSocket.clientId c with
    | Some session, Some clientId => slookup clientId (SessionInternal.users session)
    | _, _ => None
    end
  else None.

(** The error frame written to [ws], if its connection is open. *)
Definition error_reply (m : t) (ws : handle) (message : string)
  : list (handle * OutgoingMessage.t) :=
  if isOpen m ws then [(ws, OutgoingMessage.error message)] else [].

(** A session all of whose users have [sockets]. *)
Definition sound (session : SessionInternal.t) : bool :=
  forallb (fun kv : string * UserInternal.t => has_sockets (snd kv))
          (SessionInternal.users session).

(** A session with no open connection in the [sockets] of its users and
    an [emptyAt] stamp older than [SESSION_TIMEOUT]. *)
Definition expired (m : t) (now : Z) (session : SessionInternal.t) : bool :=
  negb (existsb (fun kv : string * UserInternal.t =>
                   existsb (isOpen m) (sockets_of (snd kv)))
                (SessionInternal.users session))
  && match SessionInternal.emptyAt session with
     | Some emptyAt => negb (emptyAt =? 0) && (SESSION_TIMEOUT <? now - emptyAt)
     | None => false
     end.

(** The sessions that come before the first one that is not sound, and
    the ones from that one on. *)
Fixpoint examined (stored : list (string * SessionInternal.t))
  : list (string * SessionInternal.t) :=
  match stored with
  | [] => []
  | entry :: rest => if sound (snd entry) then entry :: examined rest else []
  end.

Fixpoint unexamined (stored : list (string * SessionInternal.t))
  : list (string * SessionInternal.t) :=
  match stored with
  | [] => []
  | entry :: rest => if sound (snd entry) then unexamined rest else stored
  end.

(** The users of every stored session have [sockets], and [offlineAt] set
    exactly when none of their connections is open. *)
Definition offline_marks_agree (m : t) : Prop :=
  Forall (fun entry : string * SessionInternal.t =>
            Forall (fun kv : string * UserInternal.t =>
                      userOnline m (snd kv)
                      = Ret (negb (truthy (UserInternal.offlineAt (snd kv)))))
                   (SessionInternal.users (snd entry)))
         (sessions m).

(** Who is in which session: the session ids with the client ids of
    their users, in the order of the maps. *)
Definition rosters (m : t) : list (string * list string) :=
  map (fun entry : string * SessionInternal.t =>
         (fst entry, map fst (SessionInternal.users (snd entry))))
      (sessions m).

(** The client ids of the stored session [sessionId], if there is one,
    are [keys]. *)
Definition stored_keys (m : t) (sessionId : string) (keys : list string) : Prop :=
  match slookup sessionId (sessions m) with
  | Some session => map fst (SessionInternal.users session) = keys
  | None => True
  end.

(** The rosters are [kept], and the client ids of the stored session
    [sessionId] are [keys]. *)
Definition steady (kept : list (string * list string)) (sessionId : string)
           (keys : list string) (m : t) : Prop :=
  rosters m = kept /\ stored_keys m sessionId keys.

(** A connection that has opened and sent nothing. *)
Definition lobby : t := snd (handleWebSocketConnection 0%nat empty).

(** Alice has created the session [room-1]. *)
Definition solo : t :=
  SessionManagerSpec.after (SessionManagerSpec.alone (fun s => s)).

End SessionManagerLawsSpec.

(** * Properties *)

(** ** Arrays and comparisons *)

Ltac zbool :=
  repeat match goal with
         | |- context [?a >? ?b] => rewrite (Z.gtb_ltb a b)
         | |- context [?a >=? ?b] => rewrite (Z.geb_leb a b)
         | H : context [?a >? ?b] |- _ => rewrite (Z.gtb_ltb a b) in H
         | H : context [?a >=? ?b] |- _ => rewrite (Z.geb_leb a b) in H
         end.

Ltac zcase :=
  zbool;
  repeat match goal with
         | |- context [?a <? ?b] => destruct (Z.ltb_spec a b)
         | |- context [?a <=? ?b] => destruct (Z.leb_spec a b)
         | |- context [?a =? ?b] => destruct (Z.eqb_spec a b)
         end.

Lemma item_in_range {A} (arr : list A) (i : Z) :
  0 <= i < len arr -> exists x, item arr i = Some x /\ In x arr.
Proof.
  intros [Hlo Hhi]. unfold item, len in *.
  destruct (Z.ltb_spec i 0); [lia|].
  destruct (nth_error arr (Z.to_nat i)) as [x|] eqn:E.
  - exists x. split; [reflexivity|]. eapply nth_error_In; eassumption.
  - apply nth_error_None in E. lia.
Qed.

Lemma item_out_of_range {A} (arr : list A) (i : Z) :
  len arr <= i -> item arr i = None.
Proof.
  intros H. unfold item, len in *.
  destruct (Z.ltb_spec i 0); [reflexivity|].
  apply nth_error_None. lia.
Qed.

Lemma item_some_range {A} (arr : list A) (i : Z) (x : A) :
  item arr i = Some x -> 0 <= i < len arr.
Proof.
  unfold item, len. destruct (Z.ltb_spec i 0); [discriminate|].
  intros E. assert (nth_error arr (Z.to_nat i) <> None) as Hn by congruence.
  apply nth_error_Some in Hn. lia.
Qed.

(** ** Objects keyed by strings *)

Module AssocFacts.

Lemma lookup_assign_same {V} (k : string) (v : V) (m : list (string * V)) :
  slookup k (sassign k v m) = Some v.
Proof.
  unfold slookup, sassign. induction m as [|[k' v'] m IH]; simpl.
  - rewrite String.eqb_refl. reflexivity.
  - destruct (String.eqb k k') eqn:E; simpl.
    + rewrite String.eqb_refl. reflexivity.
    + rewrite E. exact IH.
Qed.

Lemma lookup_assign_other {V} (k k' : string) (v : V) (m : list (string * V)) :
  k <> k' -> slookup k' (sassign k v m) = slookup k' m.
Proof.
  intros Hne. unfold slookup, sassign. induction m as [|[k0 v0] m IH]; simpl.
  - destruct (String.eqb_spec k' k); [congruence|reflexivity].
  - destruct (String.eqb_spec k k0) as [->|Hk]; simpl.
    + destruct (String.eqb_spec k' k0); [congruence|reflexivity].
    + destruct (String.eqb_spec k' k0); [reflexivity|exact IH].
Qed.

Lemma in_assign {V} (k : string) (v : V) (m : list (string * V)) (entry : string * V) :
  In entry (sassign k v m) -> entry = (k, v) \/ In entry m.
Proof.
  unfold sassign. induction m as [|[k0 v0] m IH]; simpl.
  - intros [H|[]]; left; congruence.
  - destruct (String.eqb k k0); simpl.
    + intros [H|H]; [left; congruence|right; right; exact H].
    + intros [H|H]; [right; left; exact H|].
      destruct (IH H) as [H'|H']; [left; exact H'|right; right; exact H'].
Qed.

Lemma in_keys_assign {V} (k : string) (v : V) (m : list (string * V)) (k' : string) :
  In k' (map fst (sassign k v m)) -> k' = k \/ In k' (map fst m).
Proof.
  rewrite !in_map_iff. intros [entry [Hk Hin]].
  destruct (in_assign k v m entry Hin) as [H|H].
  - left. subst entry. simpl in Hk. congruence.
  - right. exists entry. split; assumption.
Qed.

Lemma nodup_assign {V} (k : string) (v : V) (m : list (string * V)) :
  NoDup (map fst m) -> NoDup (map fst (sassign k v m)).
Proof.
  unfold sassign. induction m as [|[k0 v0] m IH]; simpl; intros Hnd.
  - constructor; [intros []|constructor].
  - inversion Hnd as [|x xs Hnot Hrest]; subst.
    destruct (String.eqb_spec k k0) as [->|Hk]; simpl.
    + constructor; assumption.
    + constructor; [|apply IH, Hrest].
      intros Hin. apply Hnot.
      destruct (in_keys_assign k v m k0 Hin) as [H|H]; [congruence|exact H].
Qed.

Lemma length_assign {V} (k : string) (v : V) (m : list (string * V)) :
  (List.length (sassign k v m) <= Datatypes.S (List.length m))%nat.
Proof.
  unfold sassign. induction m as [|[k0 v0] m IH]; simpl; [lia|].
  destruct (String.eqb k k0); simpl; lia.
Qed.

Lemma keys_assign_present {V} (k : string) (v v' : V) (l : list (string * V)) :
  slookup k l = Some v -> map fst (sassign k v' l) = map fst l.
Proof.
  unfold slookup, sassign. induction l as [|[k0 v0] l IH]; simpl; [discriminate|].
  destruct (String.eqb_spec k k0) as [->|Hk]; simpl; [reflexivity|].
  intros Hl. rewrite (IH Hl). reflexivity.
Qed.

Lemma remove_fresh {V} (k : string) (v : V) (kept rest : list (string * V)) :
  ~ In k (map fst kept) ->
  sremove k (kept ++ (k, v) :: rest) = kept ++ rest.
Proof.
  unfold sremove. induction kept as [|[k0 v0] kept IH]; simpl.
  - intros _. rewrite String.eqb_refl. reflexivity.
  - intros Hnot. destruct (String.eqb_spec k k0) as [->|Hk].
    + exfalso. apply Hnot. left. reflexivity.
    + rewrite IH; [reflexivity|]. intros Hin. apply Hnot. right. exact Hin.
Qed.

Lemma assign_beyond {V} (k : string) (v : V) (l rest : list (string * V)) :
  slookup k l = None -> sassign k v (l ++ rest) = l ++ sassign k v rest.
Proof.
  unfold slookup, sassign. induction l as [|[k0 v0] l IH]; simpl; [reflexivity|].
  destruct (String.eqb k k0); [discriminate|].
  intros Hl. rewrite (IH Hl). reflexivity.
Qed.

Lemma assign_fresh {V} (k : string) (v : V) (l : list (string * V)) :
  slookup k l = None -> sassign k v l = l ++ [(k, v)].
Proof.
  intros Hl. rewrite <- (app_nil_r l) at 1. rewrite (assign_beyond k v l [] Hl).
  reflexivity.
Qed.

Lemma assign_last {V} (k : string) (v v' : V) (l : list (string * V)) :
  slookup k l = None -> sassign k v' (l ++ [(k, v)]) = l ++ [(k, v')].
Proof.
  intros Hl. rewrite (assign_beyond k v' l _ Hl).
  unfold sassign. cbn [assign]. rewrite String.eqb_refl. reflexivity.
Qed.

Lemma lookup_beyond {V} (k : string) (l rest : list (string * V)) :
  slookup k l = None -> slookup k (l ++ rest) = slookup k rest.
Proof.
  unfold slookup. induction l as [|[k0 v0] l IH]; simpl; [reflexivity|].
  destruct (String.eqb k k0); [discriminate|exact IH].
Qed.

Lemma lookup_in {V} (k : string) (v : V) (l : list (string * V)) :
  slookup k l = Some v -> In (k, v) l.
Proof.
  unfold slookup. induction l as [|[k0 v0] l IH]; simpl; [discriminate|].
  destruct (String.eqb_spec k k0) as [->|Hne].
  - intros E. injection E as ->. left. reflexivity.
  - intros E. right. exact (IH E).
Qed.

Lemma Forall_assign {V} (P : string * V -> Prop) (k : string) (v : V)
      (l : list (string * V)) :
  Forall P l -> P (k, v) -> Forall P (sassign k v l).
Proof.
  intros Hl Hv. apply Forall_forall. intros entry Hin.
  destruct (in_assign k v l entry Hin) as [->|Hin']; [exact Hv|].
  rewrite Forall_forall in Hl. exact (Hl entry Hin').
Qed.

Lemma Forall_remove {V} (P : string * V -> Prop) (k : string) (l : list (string * V)) :
  Forall P l -> Forall P (sremove k l).
Proof.
  unfold sremove. induction l as [|[k0 v0] l IH]; simpl; intros Hl; [constructor|].
  inversion Hl as [|x xs Hx Hxs]; subst.
  destruct (String.eqb k k0); [exact Hxs|constructor; [exact Hx|exact (IH Hxs)]].
Qed.

End AssocFacts.

(** ** The timer core *)

Module TimerCoreFacts.
Import TimerCore TimerCoreSpec.

Lemma valid_duration_item (intervals : list Interval.t) (i : Z) (iv : Interval.t) :
  valid_durations intervals -> item intervals i = Some iv ->
  1000 <= Interval.duration iv * 1000.
Proof.
  intros Hv Hi. pose proof (item_some_range _ _ _ Hi) as Hr.
  destruct (item_in_range intervals i Hr) as [x [Hx Hin]].
  rewrite Hi in Hx. inversion Hx; subst x.
  unfold valid_durations in Hv. rewrite Forall_forall in Hv.
  specialize (Hv _ Hin). unfold MIN_DURATION in Hv. lia.
Qed.

Lemma span_ms_step (intervals : list Interval.t) (i : Z) (iv : Interval.t) :
  item intervals i = Some iv ->
  span_ms intervals i = Interval.duration iv * 1000 + span_ms intervals (i + 1).
Proof.
  intros Hi. pose proof (item_some_range _ _ _ Hi) as Hr.
  unfold span_ms, item in *. destruct (Z.ltb_spec i 0); [lia|].
  replace (Z.to_nat (i + 1)) with (Datatypes.S (Z.to_nat i)) by lia.
  remember (Z.to_nat i) as n eqn:En. clear En Hr H.
  revert n Hi. induction intervals as [|x xs IH]; intros n Hi.
  - destruct n; discriminate.
  - destruct n as [|n]; simpl in *.
    + inversion Hi; subst. reflexivity.
    + apply IH. exact Hi.
Qed.

Lemma span_ms_end (intervals : list Interval.t) (i : Z) :
  len intervals <= i -> span_ms intervals i = 0.
Proof.
  intros H. unfold span_ms, len in *.
  rewrite skipn_all2 by lia. reflexivity.
Qed.

(** A larger budget does not change a result already reached. *)
Lemma sync_loop_fuel_mono (fuel : nat) :
  forall intervals rep current remaining r,
    sync_loop fuel intervals rep current remaining = Ret r ->
    forall fuel', (fuel <= fuel')%nat ->
                  sync_loop fuel' intervals rep current remaining = Ret r.
Proof.
  induction fuel as [|fuel IH]; intros intervals rep current remaining r H fuel' Hle.
  - destruct fuel'; simpl in *; destruct (remaining >? 0); congruence.
  - destruct fuel' as [|fuel']; [lia|]. simpl in *.
    destruct (remaining >? 0); [|exact H].
    destruct (item intervals current) as [iv|]; [|discriminate].
    destruct (remaining <? Interval.duration iv * 1000); [exact H|].
    match goal with
    | |- (if ?c then _ else _) = _ => destruct c; [exact H|]
    end.
    apply (IH _ _ _ _ _ H). lia.
Qed.

Lemma span_ms_nonneg (intervals : list Interval.t) (i : Z) :
  valid_durations intervals -> 0 <= span_ms intervals i.
Proof.
  intros Hv. unfold span_ms.
  assert (Hs : Forall (fun iv => MIN_DURATION <= Interval.duration iv)
                      (skipn (Z.to_nat i) intervals)).
  { unfold valid_durations in Hv.
    rewrite <- (firstn_skipn (Z.to_nat i) intervals) in Hv.
    apply Forall_app in Hv. apply Hv. }
  induction Hs; simpl; [lia|]. unfold MIN_DURATION in *. lia.
Qed.

Lemma sync_fuel_mono (fuel fuel' : nat) (now : Z) (tc tc' : t) :
  sync_fuel fuel now tc = Ret tc' -> (fuel <= fuel')%nat ->
  sync_fuel fuel' now tc = Ret tc'.
Proof.
  unfold sync_fuel. intros H Hle.
  destruct (negb (S.isRunning (state tc)) || (S.startedAt (state tc) =? 0));
    [exact H|].
  destruct (len (intervals tc) =? 0); [exact H|].
  destruct (sync_loop fuel _ _ _ _) as [r| |] eqn:E; try discriminate.
  rewrite (sync_loop_fuel_mono _ _ _ _ _ _ E _ Hle). exact H.
Qed.

(** With durations of at least a second the loop ends within the budget,
    at an interval of the list and short of its duration; and without
    repeat it reports the end of the run once the elapsed time covers the
    rest of the list. *)
Lemma sync_loop_total (fuel : nat) :
  forall intervals rep current remaining,
    valid_durations intervals ->
    0 <= current < len intervals ->
    (Z.to_nat (remaining / 1000) < fuel)%nat ->
    exists r,
      sync_loop fuel intervals rep current remaining = Ret r /\
      match r with
      | Some (c, rem) =>
          exists iv, item intervals c = Some iv /\ rem < Interval.duration iv * 1000
      | None => rep = false
      end /\
      (rep = false -> span_ms intervals current <= remaining -> r = None).
Proof.
  induction fuel as [|fuel IH]; intros intervals rep current remaining Hv Hc Hf;
    [lia|].
  destruct (item_in_range intervals current Hc) as [iv [Hiv _]].
  pose proof (valid_duration_item _ _ _ Hv Hiv) as Hd.
  pose proof (span_ms_step _ _ _ Hiv) as Hspan.
  pose proof (span_ms_nonneg intervals (current + 1) Hv) as Hrest.
  simpl. rewrite Hiv, Z.gtb_ltb.
  destruct (Z.ltb_spec 0 remaining) as [Hpos|Hnone].
  - destruct (Z.ltb_spec remaining (Interval.duration iv * 1000)) as [Hin|Hover].
    + (* the elapsed time falls inside the current interval *)
      exists (Some (current, remaining)). split; [reflexivity|]. split.
      * exists iv. split; [exact Hiv|lia].
      * intros _ Hs. lia.
    + (* the current interval is over *)
      assert (Hf' : (Z.to_nat ((remaining - Interval.duration iv * 1000) / 1000) < fuel)%nat).
      { assert ((remaining - Interval.duration iv * 1000) / 1000 <= remaining / 1000 - 1).
        { replace (remaining - Interval.duration iv * 1000)
            with (remaining + (- Interval.duration iv) * 1000) by lia.
          rewrite Z.div_add by lia. lia. }
        assert (0 <= (remaining - Interval.duration iv * 1000) / 1000)
          by (apply Z.div_pos; lia).
        lia. }
      rewrite !Z.geb_leb.
      destruct rep; simpl; rewrite ?andb_false_r, ?andb_true_r.
      * (* repeat: wrap to the first interval *)
        assert (Hn : 0 <= (if len intervals <=? current + 1 then 0 else current + 1)
                     < len intervals)
          by (destruct (Z.leb_spec (len intervals) (current + 1)); lia).
        destruct (IH intervals true _ (remaining - Interval.duration iv * 1000) Hv Hn Hf')
          as [r [Hr [Hpost _]]].
        exists r. split; [exact Hr|]. split; [exact Hpost|].
        intros Hfalse; discriminate.
      * destruct (Z.leb_spec (len intervals) (current + 1)) as [Hend|Hmore].
        -- exists None. repeat split; reflexivity.
        -- assert (Hn : 0 <= current + 1 < len intervals) by lia.
           destruct (IH intervals false _ (remaining - Interval.duration iv * 1000) Hv Hn Hf')
             as [r [Hr [Hpost Hstop]]].
           exists r. split; [exact Hr|]. split; [exact Hpost|].
           intros _ Hs. apply Hstop; [reflexivity|lia].
  - (* nothing has elapsed *)
    exists (Some (current, remaining)). split; [reflexivity|]. split.
    + exists iv. split; [exact Hiv|lia].
    + intros _ Hs. lia.
Qed.

(** *** stop() *)

(** C9.  On a non-empty interval list, [stop()] leaves the timer at the
    first interval with its full duration in milliseconds, neither running
    nor paused, with the whole timing baseline at zero; the repeat flag is
    the one from before the call. *)
Theorem stop_resets (first : Interval.t) (rest : list Interval.t) (timer : S.t) :
  let timer' := state (stop {| intervals := first :: rest; state := timer |}) in
  S.interval timer' = 0 /\
  S.remaining timer' = Interval.duration first * 1000 /\
  S.isRunning timer' = false /\
  S.isPaused timer' = false /\
  S.startedAt timer' = 0 /\
  S.startedInterval timer' = 0 /\
  S.pausedAt timer' = 0 /\
  S.timePaused timer' = 0 /\
  S.repeat timer' = S.repeat timer.
Proof.
  simpl. repeat split; reflexivity.
Qed.

(** *** sync() *)

Lemma budget_enough (now : Z) (timer : S.t) :
  (Z.to_nat (elapsed now timer / 1000) < budget now timer)%nat.
Proof. unfold budget. lia. Qed.

Lemma start_index_range (intervals : list Interval.t) (i : Z) :
  0 <= i -> len intervals <> 0 ->
  0 <= (if i >=? len intervals then 0 else i) < len intervals.
Proof.
  intros Hi Hl. rewrite Z.geb_leb.
  assert (0 <= len intervals) by (unfold len; lia).
  destruct (Z.leb_spec (len intervals) i); lia.
Qed.

(** [sync()] returns on intervals of at least [MIN_DURATION] seconds: it
    keeps a remaining time that is not negative, and lands on the state of
    [stop()] when a run without repeat is over. *)
Lemma sync_returns (now : Z) (tc : t) :
  valid_durations (intervals tc) ->
  0 <= S.startedInterval (state tc) ->
  exists tc',
    sync now tc = Ret tc' /\
    (0 <= S.remaining (state tc) -> 0 <= S.remaining (state tc')) /\
    (S.isRunning (state tc) = true ->
     S.startedAt (state tc) <> 0 ->
     intervals tc <> [] ->
     S.repeat (state tc) = false ->
     span_ms (intervals tc)
             (if S.startedInterval (state tc) >=? len (intervals tc)
              then 0 else S.startedInterval (state tc))
     <= elapsed now (state tc) ->
     tc' = stop tc).
Proof.
  intros Hv Hstart. destruct tc as [ivs timer]. cbn [state intervals] in *.
  unfold sync, sync_fuel. cbn [state intervals].
  destruct (S.isRunning timer) eqn:Hrun; cbn [negb orb].
  2:{ exists {| intervals := ivs; state := timer |}.
      repeat split; [tauto | discriminate]. }
  destruct (Z.eqb_spec (S.startedAt timer) 0) as [H0|H0].
  { exists {| intervals := ivs; state := timer |}.
    repeat split; [tauto | intros _ Hne; contradiction]. }
  destruct (Z.eqb_spec (len ivs) 0) as [Hl|Hl].
  { exists {| intervals := ivs; state := timer |}.
    repeat split; [tauto|]. intros _ _ Hne. destruct ivs; [contradiction|].
    unfold len in Hl. simpl in Hl. lia. }
  pose proof (start_index_range ivs _ Hstart Hl) as Hc.
  destruct (sync_loop_total (budget now timer) ivs (S.repeat timer) _
              (elapsed now timer) Hv Hc (budget_enough now timer))
    as [r [Hr [Hpost Hstop]]].
  rewrite Hr. cbn [obind].
  assert (Hfirst : exists first, item ivs 0 = Some first /\ In first ivs).
  { apply item_in_range. assert (0 <= len ivs) by (unfold len; lia). lia. }
  destruct Hfirst as [first [Hfirst Hin]].
  assert (Hstopped : {| intervals := ivs;
                        state := stopped (Interval.duration first * 1000) timer |}
                     = stop {| intervals := ivs; state := timer |}).
  { unfold stop, duration_ms_or_default. simpl. rewrite Hfirst. reflexivity. }
  destruct r as [[c rem]|].
  - destruct Hpost as [iv [Hiv Hlt]]. rewrite Hiv.
    eexists. split; [reflexivity|]. simpl. split; [lia|].
    intros _ _ _ Hrep Hspan. specialize (Hstop Hrep Hspan). discriminate.
  - rewrite Hfirst. eexists. split; [reflexivity|]. split.
    + simpl. pose proof (valid_duration_item _ _ _ Hv Hfirst). lia.
    + intros _ _ _ _ _. exact Hstopped.
Qed.

(** C6, as stated, fails: on the timer that was paused while stopped and
    then started, which runs without repeat, [sync()] long after the end
    of the last interval returns the timer as it is, still running. *)
Lemma sync_leaves_unstarted_timer_running :
  S.isRunning (state unstarted) = true /\
  S.repeat (state unstarted) = false /\
  span_ms (intervals unstarted) 0 <= elapsed 2000000 (state unstarted) /\
  exists tc',
    sync 2000000 unstarted = Ret tc' /\
    S.isRunning (state tc') = true /\
    tc' <> stop unstarted.
Proof.
  split; [reflexivity|]. split; [reflexivity|].
  split; [vm_compute; discriminate|].
  exists unstarted. split; [reflexivity|]. split; [reflexivity|].
  intros H. apply (f_equal (fun tc => S.isRunning (state tc))) in H.
  discriminate H.
Qed.

(** The bounds that the amended claim puts on the state and on the list
    are needed for its first half: [sync()] returns a stopped timer as it
    is, negative remaining time included; it throws on a start index
    before the list; and on an interval of negative duration it computes a
    negative remaining time. *)
Lemma sync_outside_the_data_model :
  (exists tc',
      sync 1000000 (updateState 1000000 overdrawn_view (new three_intervals))
      = Ret tc' /\
      S.remaining (state tc') = -5) /\
  sync 1000000 (updateState 1000000 early_view (new three_intervals)) = Throw /\
  (exists tc',
      sync 1000000 (start 1000000 (new negative_interval)) = Ret tc' /\
      S.remaining (state tc') = -5000).
Proof.
  split; [eexists; split; reflexivity|].
  split; [reflexivity|]. eexists; split; reflexivity.
Qed.

(** C6, amended.  On intervals of at least [MIN_DURATION] seconds and a
    timer state with a remaining time and a start index that are not
    negative, [sync()] returns, and the state it returns has
    [remaining >= 0].  When moreover the timer runs from a baseline that
    was set ([startedAt <> 0]), without repeat, on a list that is not
    empty, and the elapsed time covers everything from the start interval
    to the end of the list, the state returned is the stopped one: the
    first interval with its full duration, neither running nor paused,
    the whole baseline at zero, the repeat flag kept; it is the state that
    [stop()] produces. *)
Theorem sync_remaining_nonneg (now : Z) (tc : t) :
  valid_durations (intervals tc) ->
  0 <= S.startedInterval (state tc) ->
  0 <= S.remaining (state tc) ->
  exists tc',
    sync now tc = Ret tc' /\
    0 <= S.remaining (state tc') /\
    (S.isRunning (state tc) = true ->
     S.startedAt (state tc) <> 0 ->
     intervals tc <> [] ->
     S.repeat (state tc) = false ->
     span_ms (intervals tc)
             (if S.startedInterval (state tc) >=? len (intervals tc)
              then 0 else S.startedInterval (state tc))
     <= elapsed now (state tc) ->
     S.isRunning (state tc') = false /\
     S.isPaused (state tc') = false /\
     S.interval (state tc') = 0 /\
     S.remaining (state tc') = duration_ms_or_default (intervals tc) 0 /\
     S.startedAt (state tc') = 0 /\
     S.startedInterval (state tc') = 0 /\
     S.pausedAt (state tc') = 0 /\
     S.timePaused (state tc') = 0 /\
     S.repeat (state tc') = S.repeat (state tc) /\
     intervals tc' = intervals tc /\
     tc' = stop tc).
Proof.
  intros Hv Hstart Hrem.
  destruct (sync_returns now tc Hv Hstart) as [tc' [Hs [Hnonneg Hstop]]].
  exists tc'. split; [exact Hs|]. split; [exact (Hnonneg Hrem)|].
  intros Hrun Hat Hne Hrep Hspan.
  rewrite (Hstop Hrun Hat Hne Hrep Hspan).
  repeat split; reflexivity.
Qed.

Lemma sync_remaining_nonneg_witness :
  valid_durations three_intervals /\
  0 <= S.startedInterval (state (start 1000000 (new three_intervals))) /\
  0 <= S.remaining (state (start 1000000 (new three_intervals))) /\
  exists tc',
    sync 1045000 (start 1000000 (new three_intervals)) = Ret tc' /\
    0 <= S.remaining (state tc') /\
    S.isRunning (state tc') = false /\
    reading tc' = (0, 25000).
Proof.
  assert (Hv : valid_durations (intervals (start 1000000 (new three_intervals))))
    by (repeat constructor; unfold MIN_DURATION; simpl; lia).
  assert (Hi : 0 <= S.startedInterval (state (start 1000000 (new three_intervals))))
    by (simpl; lia).
  assert (Hr : 0 <= S.remaining (state (start 1000000 (new three_intervals))))
    by (vm_compute; discriminate).
  split; [exact Hv|]. split; [exact Hi|]. split; [exact Hr|].
  destruct (sync_remaining_nonneg 1045000 _ Hv Hi Hr) as [tc' [Hs [Hr' Hstop]]].
  exists tc'. split; [exact Hs|]. split; [exact Hr'|].
  destruct Hstop as [Hrun [_ [Hint [Hrem _]]]];
    try reflexivity; try discriminate.
  split; [exact Hrun|]. unfold reading. rewrite Hint, Hrem. reflexivity.
Defined.

(** The scenarios of the test suite ([tests/shared/timer-core.test.ts]),
    on a clock that starts at 1000000. *)
Example basic_run_10s :
  omap reading (sync 1010000 (start 1000000 (new three_intervals)))
  = Ret (0, 15000).
Proof. reflexivity. Qed.

Example basic_run_25s :
  omap reading (sync 1025000 (start 1000000 (new three_intervals)))
  = Ret (1, 5000).
Proof. reflexivity. Qed.

Example basic_run_32s :
  omap reading (sync 1032000 (start 1000000 (new three_intervals)))
  = Ret (2, 13000).
Proof. reflexivity. Qed.

Example repeat_wrap_47s :
  omap reading
       (sync 1047000 (start 1000000 (repeat (Some true) (new three_intervals))))
  = Ret (0, 23000).
Proof. reflexivity. Qed.

Example paused_reading :
  omap reading
       (sync 1008000 (pause 1005000 (start 1000000 (new three_intervals))))
  = Ret (0, 20000).
Proof. reflexivity. Qed.

Example resumed_reading :
  omap reading
       (sync 1023000
             (resume 1008000
                     (pause 1005000 (start 1000000 (new three_intervals)))))
  = Ret (0, 5000).
Proof. reflexivity. Qed.

Example empty_list_next :
  reading (next 1000000 (new [])) = (0, 1500000).
Proof. reflexivity. Qed.

(** [sync()] reads the clock and the baseline only through [elapsed]. *)
Lemma sync_fuel_reading (fuel : nat) (now1 now2 : Z) (ivs : list Interval.t)
      (t1 t2 : S.t) :
  S.isRunning t1 = S.isRunning t2 ->
  S.startedAt t1 = S.startedAt t2 ->
  S.startedInterval t1 = S.startedInterval t2 ->
  S.repeat t1 = S.repeat t2 ->
  S.interval t1 = S.interval t2 ->
  S.remaining t1 = S.remaining t2 ->
  elapsed now1 t1 = elapsed now2 t2 ->
  agree (sync_fuel fuel now1 {| intervals := ivs; state := t1 |})
        (sync_fuel fuel now2 {| intervals := ivs; state := t2 |}).
Proof.
  intros Hrun Hat Hsi Hrep Hi Hr He.
  unfold sync_fuel. cbn [state intervals]. rewrite He, Hrun, Hat, Hsi, Hrep.
  destruct (negb (S.isRunning t2) || (S.startedAt t2 =? 0)).
  { unfold agree, reading. simpl. congruence. }
  destruct (len ivs =? 0).
  { unfold agree, reading. simpl. congruence. }
  destruct (sync_loop fuel ivs (S.repeat t2) _ _) as [[[c rem]|]| |];
    cbn [obind]; try exact I.
  - destruct (item ivs c); [reflexivity|exact I].
  - destruct (item ivs 0); [reflexivity|exact I].
Qed.

(** C7.  On a timer that is not paused, [pause()] at [t], [resume()] at
    [t + delta] and [sync()] at a later instant [now] give the reading that
    [sync()] gives at [now - delta] with no pause in between: the span
    [delta] does not count as elapsed time.  With intervals of at least
    [MIN_DURATION] seconds and a start index that is not negative, both
    calls return. *)
Theorem pause_resume_excluded (tc : t) (at_ delta now : Z) :
  S.isPaused (state tc) = false ->
  omap reading (sync now (resume (at_ + delta) (pause at_ tc)))
  = omap reading (sync (now - delta) tc) /\
  (valid_durations (intervals tc) ->
   0 <= S.startedInterval (state tc) ->
   exists paused direct,
     sync now (resume (at_ + delta) (pause at_ tc)) = Ret paused /\
     sync (now - delta) tc = Ret direct /\
     reading paused = reading direct).
Proof.
  intros Hp. destruct tc as [ivs timer]. cbn [state intervals] in *.
  set (timer' := state (resume (at_ + delta)
                               (pause at_ {| intervals := ivs; state := timer |}))).
  assert (Hshape : resume (at_ + delta)
                          (pause at_ {| intervals := ivs; state := timer |})
                   = {| intervals := ivs; state := timer' |}) by reflexivity.
  assert (He : elapsed now timer' = elapsed (now - delta) timer).
  { unfold elapsed, timer'. simpl. rewrite Hp. simpl. lia. }
  assert (Hagree : agree (sync now {| intervals := ivs; state := timer' |})
                         (sync (now - delta) {| intervals := ivs; state := timer |})).
  { unfold sync, budget. cbn [state]. rewrite He.
    apply sync_fuel_reading; try reflexivity. exact He. }
  rewrite Hshape. split.
  - destruct (sync now _) as [a| |]; destruct (sync (now - delta) _) as [b| |];
      simpl in Hagree; try contradiction; try reflexivity.
    simpl. rewrite Hagree. reflexivity.
  - intros Hv Hs.
    destruct (sync_returns (now - delta) {| intervals := ivs; state := timer |} Hv Hs)
      as [direct [Hd _]].
    rewrite Hd in *.
    destruct (sync now _) as [paused| |]; simpl in Hagree; try contradiction.
    exists paused, direct. repeat split. exact Hagree.
Qed.

Lemma pause_resume_excluded_witness :
  S.isPaused (state (start 1000000 (new three_intervals))) = false /\
  omap reading (sync 1023000 (resume (1005000 + 3000)
                  (pause 1005000 (start 1000000 (new three_intervals)))))
  = omap reading (sync (1023000 - 3000) (start 1000000 (new three_intervals))).
Proof.
  split; [reflexivity|].
  apply (pause_resume_excluded (start 1000000 (new three_intervals))
                               1005000 3000 1023000).
  reflexivity.
Defined.

(** *** updateState() then sync() *)

(** C8, as stated, fails: importing a running view with [remaining = 0]
    and reading the timer at the same instant gives the next interval with
    its full duration, neither the imported interval nor a remaining time
    within a millisecond of the imported one. *)
Lemma roundtrip_fails_at_zero :
  exists tc',
    sync 1000000 (updateState 1000000 expired_view (new three_intervals)) = Ret tc' /\
    reading tc' = (1, 5000) /\
    ~ (S.interval (state tc') = TimerState.interval expired_view /\
       Z.abs (S.remaining (state tc') - TimerState.remaining expired_view) <= 1).
Proof.
  eexists. split; [reflexivity|]. split; [reflexivity|].
  simpl. intros [H _]. discriminate.
Qed.

(** The index has to be one of the list as well: a running view on an
    index beyond the list is read back on the first interval that the
    elapsed time leads to, from the start of the list. *)
Lemma roundtrip_fails_beyond_the_list :
  exists tc',
    sync 1000000 (updateState 1000000 stray_view (new three_intervals)) = Ret tc' /\
    S.interval (state tc') <> TimerState.interval stray_view.
Proof.
  eexists. split; [vm_compute; reflexivity|]. vm_compute. discriminate.
Qed.

(** C8, amended.  For an external state that is not running, and for a
    running one whose interval is an index of the list and whose remaining
    time is positive, [updateState(external)] followed by [sync()] at the
    same instant returns the external interval and the external remaining
    time: on whole milliseconds nothing is rounded, so the reading is well
    within the millisecond that the claim allows. *)
Theorem updateState_sync_roundtrip (now : Z) (ext : TimerState.t) (tc : t) :
  (TimerState.isRunning ext = true ->
   0 <= TimerState.interval ext < len (intervals tc) /\
   0 < TimerState.remaining ext) ->
  exists tc',
    sync now (updateState now ext tc) = Ret tc' /\
    S.interval (state tc') = TimerState.interval ext /\
    S.remaining (state tc') = TimerState.remaining ext /\
    Z.abs (S.remaining (state tc') - TimerState.remaining ext) <= 1.
Proof.
  intros Hrun. destruct tc as [ivs timer]. destruct ext as [rep i r run paused].
  cbn [TimerState.interval TimerState.remaining TimerState.isRunning
       state intervals] in *.
  unfold sync, budget, sync_fuel, updateState, duration_ms_or_default.
  cbn [state intervals TimerState.interval TimerState.remaining
       TimerState.isRunning TimerState.isPaused TimerState.repeat
       S.isRunning S.startedAt S.startedInterval S.repeat].
  destruct run; cbn [negb orb].
  2:{ eexists. split; [reflexivity|]. cbn [state S.interval S.remaining].
      repeat split. rewrite Z.sub_diag. cbn. lia. }
  destruct (Hrun eq_refl) as [Hi Hrem].
  destruct (item_in_range ivs i Hi) as [iv [Hiv _]].
  rewrite Hiv.
  destruct (Z.eqb_spec (now - (Interval.duration iv * 1000 - r)) 0) as [H0|H0].
  { eexists. split; [reflexivity|]. cbn [state S.interval S.remaining].
    repeat split. rewrite Z.sub_diag. cbn. lia. }
  destruct (Z.eqb_spec (len ivs) 0) as [Hl|Hl]; [lia|].
  rewrite Z.geb_leb. destruct (Z.leb_spec (len ivs) i) as [Hge|_]; [lia|].
  assert (He : elapsed now
                 {| S.repeat := rep; S.interval := i; S.remaining := r;
                    S.isRunning := true; S.isPaused := paused;
                    S.startedInterval := i;
                    S.startedAt := now - (Interval.duration iv * 1000 - r);
                    S.pausedAt := if paused then now else 0;
                    S.timePaused := 0 |}
               = Interval.duration iv * 1000 - r).
  { unfold elapsed. simpl. destruct paused; simpl; [|lia].
    rewrite Z.gtb_ltb. destruct (Z.ltb_spec 0 now); lia. }
  rewrite He. cbn [sync_loop]. rewrite Hiv, Z.gtb_ltb.
  destruct (Z.ltb_spec 0 (Interval.duration iv * 1000 - r)) as [Hpos|Hneg].
  - destruct (Z.ltb_spec (Interval.duration iv * 1000 - r) (Interval.duration iv * 1000)); [|lia].
    cbn [obind]. rewrite Hiv. eexists. split; [reflexivity|].
    cbn [state S.interval S.remaining]. repeat split; lia.
  - cbn [obind]. rewrite Hiv. eexists. split; [reflexivity|].
    cbn [state S.interval S.remaining]. repeat split; lia.
Qed.

Lemma updateState_sync_roundtrip_witness :
  (TimerState.isRunning running_view = true ->
   0 <= TimerState.interval running_view < len three_intervals /\
   0 < TimerState.remaining running_view) /\
  exists tc',
    sync 1000000 (updateState 1000000 running_view (new three_intervals)) = Ret tc' /\
    reading tc' = (1, 3000).
Proof.
  assert (Hr : TimerState.isRunning running_view = true ->
               0 <= TimerState.interval running_view < len three_intervals /\
               0 < TimerState.remaining running_view).
  { intros _. vm_compute. repeat split; discriminate. }
  split; [exact Hr|].
  destruct (updateState_sync_roundtrip 1000000 running_view (new three_intervals) Hr)
    as [tc' [Hs [Hi [Hrem _]]]].
  exists tc'. split; [exact Hs|]. unfold reading. rewrite Hi, Hrem. reflexivity.
Defined.

(** *** The invariant of a stopped timer *)

(** C4, as stated, fails: [pause()] on the freshly constructed, stopped
    timer breaks the invariant. *)
Lemma pause_breaks_stopped_invariant :
  stopped_invariant (state (new three_intervals)) /\
  ~ stopped_invariant (state (pause 1000000 (new three_intervals))).
Proof.
  split.
  - intros _. repeat split; reflexivity.
  - intros H. destruct (H eq_refl) as [_ [Hp _]]. discriminate.
Qed.

(** C4, amended.  [start], [stop], [repeat], [next], [resume], [sync]
    (whatever the number of turns its loop takes) and [updateIntervals]
    preserve the invariant of a stopped timer;
    [updateState] establishes it for every imported state that is not
    paused while stopped; [pause] preserves it on a running timer, and on
    a stopped one sets [isPaused] and stamps [pausedAt] with the clock. *)
Theorem operations_preserve_stopped_invariant (now : Z) (tc : t) :
  stopped_invariant (state tc) ->
  stopped_invariant (state (start now tc)) /\
  stopped_invariant (state (stop tc)) /\
  (forall value, stopped_invariant (state (repeat value tc))) /\
  stopped_invariant (state (next now tc)) /\
  stopped_invariant (state (resume now tc)) /\
  (forall fuel tc',
    sync_fuel fuel now tc = Ret tc' -> stopped_invariant (state tc')) /\
  (forall intervals, stopped_invariant (state (updateIntervals now intervals tc))) /\
  (forall ext,
      (TimerState.isRunning ext = false -> TimerState.isPaused ext = false) ->
      stopped_invariant (state (updateState now ext tc))) /\
  (S.isRunning (state tc) = true -> stopped_invariant (state (pause now tc))) /\
  (S.isRunning (state tc) = false ->
   S.isPaused (state (pause now tc)) = true /\
   S.pausedAt (state (pause now tc)) = now).
Proof.
  intros Hinv. destruct tc as [ivs timer].
  destruct timer as [rep i r run paused si sa pa tp].
  unfold stopped_invariant in *. cbn [state S.isRunning S.startedAt S.pausedAt
                                       S.timePaused S.isPaused] in Hinv.
  repeat match goal with |- _ /\ _ => split end.
  - simpl. discriminate.
  - simpl. intros _. repeat split.
  - intros value. simpl. exact Hinv.
  - unfold next. cbn [state S.isRunning]. destruct run; simpl; [discriminate|exact Hinv].
  - unfold resume. cbn [state S.isPaused]. destruct paused; simpl; [|exact Hinv].
    intros Hr. destruct (Hinv Hr) as [_ [_ [_ Hp]]]. discriminate.
  - intros fuel tc'. unfold sync_fuel. cbn [state intervals S.isRunning S.startedAt].
    destruct run; cbn [negb orb].
    2:{ intros E. inversion E; subst. exact Hinv. }
    destruct (sa =? 0).
    { intros E. inversion E; subst. simpl. discriminate. }
    destruct (len ivs =? 0).
    { intros E. inversion E; subst. simpl. discriminate. }
    destruct (sync_loop _ _ _ _ _) as [[[c rem]|]| |]; cbn [obind]; try discriminate.
    + destruct (item ivs c); [|discriminate].
      intros E. inversion E; subst. simpl. discriminate.
    + destruct (item ivs 0); [|discriminate].
      intros E. inversion E; subst. simpl. intros _. repeat split.
  - intros ivs'. unfold updateIntervals. cbn [state S.interval S.isRunning].
    destruct (i >=? len ivs').
    + simpl. intros Hr. destruct (Hinv Hr) as [Ha [Hp [Ht Hq]]]. subst.
      repeat split.
    + destruct run; simpl; [discriminate|exact Hinv].
  - intros ext Hext. simpl. intros Hr. rewrite Hr, (Hext Hr). repeat split.
  - intros Hr. simpl in *. subst. discriminate.
  - intros _. split; reflexivity.
Qed.

Lemma operations_preserve_stopped_invariant_witness :
  stopped_invariant (state (new three_intervals)) /\
  stopped_invariant (state (start 1000000 (new three_intervals))) /\
  stopped_invariant (state (stop (new three_intervals))).
Proof.
  assert (H : stopped_invariant (state (new three_intervals)))
    by (intros _; repeat split; reflexivity).
  split; [exact H|].
  destruct (operations_preserve_stopped_invariant 1000000 (new three_intervals) H)
    as [Hstart [Hstop _]].
  split; [exact Hstart|exact Hstop].
Defined.

End TimerCoreFacts.

(** ** The message codec *)

Module CodecFacts.
Import CodecSpec.
Local Open Scope string_scope.

(** *** Strings *)

Lemma trimStart_starts_clean (s : string) : starts_clean (trimStart s).
Proof.
  induction s as [|c s IH]; simpl; [exact I|].
  destruct (is_space c) eqn:E; [exact IH|exact E].
Qed.

Lemma trimStart_clean (s : string) : starts_clean s -> trimStart s = s.
Proof.
  destruct s as [|c s]; simpl; [reflexivity|]. intros E. rewrite E. reflexivity.
Qed.

Lemma trimEnd_starts_clean (s : string) : starts_clean s -> starts_clean (trimEnd s).
Proof.
  destruct s as [|c s]; simpl; [trivial|]. intros E. rewrite E. simpl. exact E.
Qed.

Lemma trimEnd_idem (s : string) : trimEnd (trimEnd s) = trimEnd s.
Proof.
  induction s as [|c s IH]; simpl; [reflexivity|].
  destruct (is_space c && is_empty (trimEnd s)) eqn:E; [reflexivity|].
  simpl. rewrite IH, E. reflexivity.
Qed.

Lemma trim_idem (s : string) : trim (trim s) = trim s.
Proof.
  unfold trim.
  rewrite (trimStart_clean (trimEnd (trimStart s))).
  - apply trimEnd_idem.
  - apply trimEnd_starts_clean, trimStart_starts_clean.
Qed.

Lemma truncate_idem (n : nat) (s : string) : truncate n (truncate n s) = truncate n s.
Proof.
  unfold truncate. revert s. induction n as [|n IH]; intros s.
  - destruct s; reflexivity.
  - destruct s as [|c s]; simpl; [reflexivity|]. rewrite IH. reflexivity.
Qed.

Lemma truncate_short (n : nat) (s : string) :
  (String.length s <= n)%nat -> truncate n s = s.
Proof.
  unfold truncate. revert s. induction n as [|n IH]; intros s Hl.
  - destruct s; simpl in *; [reflexivity|lia].
  - destruct s as [|c s]; simpl in *; [reflexivity|]. rewrite IH by lia. reflexivity.
Qed.

Lemma trimEnd_no_space (p : ascii -> bool) (s : string) :
  (forall c, p c = true -> is_space c = false) ->
  all_chars p s = true -> trimEnd s = s.
Proof.
  intros Hp. induction s as [|c s IH]; simpl; [reflexivity|].
  intros H. apply andb_prop in H. destruct H as [Hc Hs].
  rewrite (Hp c Hc), (IH Hs). reflexivity.
Qed.

Lemma trim_no_space (p : ascii -> bool) (s : string) :
  (forall c, p c = true -> is_space c = false) ->
  all_chars p s = true -> trim s = s.
Proof.
  intros Hp H. unfold trim. rewrite trimStart_clean.
  - eapply trimEnd_no_space; eassumption.
  - destruct s as [|c s]; simpl in *; [exact I|].
    apply andb_prop in H. apply Hp, H.
Qed.

Lemma str_or_empty (s : string) : str_or "" (Some s) = s.
Proof. destruct s; reflexivity. Qed.

Lemma clean_settled (limit : nat) (value : option string) :
  settled limit value ->
  clean limit (Some (clean limit value)) = clean limit value.
Proof.
  unfold settled. intros H. unfold clean at 1. rewrite str_or_empty, H.
  unfold clean. apply truncate_idem.
Qed.

Lemma short_settled (limit : nat) (s : string) :
  (String.length (trim s) <= limit)%nat -> settled limit (Some s).
Proof.
  intros H. unfold settled, clean. rewrite str_or_empty.
  rewrite truncate_short by exact H. apply trim_idem.
Qed.

Lemma session_id_no_space (s : string) :
  SESSION_ID_REGEX s = true -> trim s = s.
Proof.
  unfold SESSION_ID_REGEX. intros H.
  apply andb_prop in H. destruct H as [H _].
  apply andb_prop in H. destruct H as [H _].
  eapply trim_no_space; [|exact H].
  intros c. destruct c as [[] [] [] [] [] [] [] []]; vm_compute; congruence.
Qed.

Lemma formatSessionId_idem (input : option string) :
  formatSessionId (Some (formatSessionId input)) = formatSessionId input.
Proof.
  assert (Hin : formatSessionId input
                = if SESSION_ID_REGEX (trim (str_or "" input))
                  then trim (str_or "" input) else ""%string) by reflexivity.
  destruct (SESSION_ID_REGEX (trim (str_or "" input))) eqn:E;
    rewrite Hin; [|reflexivity].
  unfold formatSessionId. rewrite str_or_empty, (session_id_no_space _ E), E.
  reflexivity.
Qed.

(** *** Formatters applied to their own output *)

Lemma number_or_numeric (fallback : Z) (value : option JsValue.t) :
  numeric value = true -> exists z, number_or fallback value = Num z.
Proof.
  unfold numeric, number_or. destruct value as [v|]; [|intros _; eexists; reflexivity].
  destruct (JsValue.truthy v); [|intros _; eexists; reflexivity].
  destruct (JsValue.toNumber v) as [z|]; [intros _; exists z; reflexivity|discriminate].
Qed.

Lemma number_or_positive (fallback : Z) (value : option JsValue.t) :
  0 < fallback -> positive_value value = true ->
  exists z, number_or fallback value = Num z /\ 0 < z.
Proof.
  intros Hf. unfold positive_value, number_or.
  destruct value as [v|]; [|intros _; exists fallback; split; [reflexivity|exact Hf]].
  destruct (JsValue.truthy v);
    [|intros _; exists fallback; split; [reflexivity|exact Hf]].
  destruct (JsValue.toNumber v) as [z|]; [|discriminate].
  intros H. apply Z.ltb_lt in H. exists z. split; [reflexivity|exact H].
Qed.

Lemma number_or_number (fallback z : Z) :
  number_or fallback (Some (JsValue.Number (Num z)))
  = Num (if (z =? 0)%Z then fallback else z).
Proof. unfold number_or, JsValue.truthy, JsValue.toNumber. destruct (z =? 0)%Z; reflexivity. Qed.

Lemma duration_idem (value : option JsValue.t) :
  numeric value = true ->
  Math_max (Num MIN_DURATION)
    (Math_min (Num MAX_DURATION)
       (number_or DEFAULT_DURATION
          (Some (JsValue.Number
                   (Math_max (Num MIN_DURATION)
                      (Math_min (Num MAX_DURATION)
                         (number_or DEFAULT_DURATION value)))))))
  = Math_max (Num MIN_DURATION)
      (Math_min (Num MAX_DURATION) (number_or DEFAULT_DURATION value)).
Proof.
  intros H. destruct (number_or_numeric DEFAULT_DURATION value H) as [z ->].
  cbn [Math_min Math_max]. rewrite number_or_number. cbn [Math_min Math_max].
  f_equal. unfold MIN_DURATION, MAX_DURATION, DEFAULT_DURATION.
  destruct (Z.eqb_spec (Z.max 1 (Z.min 86400 z)) 0); lia.
Qed.

Lemma index_idem (value : option JsValue.t) :
  numeric value = true ->
  Math_max (Num 0)
    (Math_min
       (number_or 0
          (Some (JsValue.Number
                   (Math_max (Num 0)
                      (Math_min (number_or 0 value) (Num MAX_SAFE_INTEGER))))))
       (Num MAX_SAFE_INTEGER))
  = Math_max (Num 0) (Math_min (number_or 0 value) (Num MAX_SAFE_INTEGER)).
Proof.
  intros H. destruct (number_or_numeric 0 value H) as [z ->].
  cbn [Math_min Math_max]. rewrite number_or_number. cbn [Math_min Math_max].
  f_equal. unfold MAX_SAFE_INTEGER.
  destruct (Z.eqb_spec (Z.max 0 (Z.min z 9007199254740991)) 0); lia.
Qed.

Lemma remaining_idem (value : option JsValue.t) :
  positive_value value = true ->
  Math_max (Num 0)
    (Math_min
       (number_or (DEFAULT_DURATION * 1000)
          (Some (JsValue.Number
                   (Math_max (Num 0)
                      (Math_min (number_or (DEFAULT_DURATION * 1000) value)
                                (Num (MAX_DURATION * 1000)))))))
       (Num (MAX_DURATION * 1000)))
  = Math_max (Num 0)
      (Math_min (number_or (DEFAULT_DURATION * 1000) value)
                (Num (MAX_DURATION * 1000))).
Proof.
  intros H.
  destruct (number_or_positive (DEFAULT_DURATION * 1000) value) as [z [-> Hz]];
    [unfold DEFAULT_DURATION; lia|exact H|].
  cbn [Math_min Math_max]. rewrite number_or_number. cbn [Math_min Math_max].
  f_equal. unfold MAX_DURATION, DEFAULT_DURATION.
  destruct (Z.eqb_spec (Z.max 0 (Z.min z (86400 * 1000))) 0); lia.
Qed.

Lemma typed_number_or (fallback : Z) (value : option Z) :
  number_or fallback (option_map Typed.value value) = Num (num_or fallback value).
Proof.
  destruct value as [z|]; [|reflexivity].
  cbn [option_map]. unfold Typed.value. rewrite number_or_number. reflexivity.
Qed.

Lemma formatInterval_idem (interval : option Json.RawInterval.t) :
  settled_interval interval ->
  Json.formatInterval (Some (Json.Interval.to_raw (Json.formatInterval interval)))
  = Json.formatInterval interval.
Proof.
  intros Hs. unfold Json.formatInterval at 1.
  cbn [Json.Interval.to_raw Json.RawInterval.name Json.RawInterval.duration
       Json.RawInterval.alert Json.RawInterval.customCSS].
  unfold Json.formatInterval.
  cbn [Json.Interval.name Json.Interval.duration Json.Interval.alert
       Json.Interval.customCSS].
  f_equal.
  - destruct interval as [iv|]; [apply clean_settled, Hs|reflexivity].
  - apply duration_idem. destruct interval as [iv|]; [apply Hs|reflexivity].
  - destruct interval as [iv|]; [|reflexivity].
    destruct Hs as [_ [Ha _]].
    remember (clean MAX_NAME_LENGTH (Json.RawInterval.alert iv)) as a eqn:Ea.
    destruct a as [|c a]; [reflexivity|].
    cbn [str_or is_empty]. rewrite Ea, (clean_settled _ _ Ha). rewrite <- Ea. reflexivity.
  - rewrite str_or_empty. apply trim_idem.
Qed.

Lemma formatIntervalList_idem (now now' : Z) (intervals : Json.RawIntervalList.t) :
  settled_items (Json.RawIntervalList.items intervals) ->
  Json.formatIntervalList now' (Json.IntervalList.to_raw
                                  (Json.formatIntervalList now intervals))
  = Json.formatIntervalList now intervals.
Proof.
  intros Hs. unfold Json.formatIntervalList at 1.
  cbn [Json.IntervalList.to_raw Json.RawIntervalList.lastUpdated
       Json.RawIntervalList.items JsValue.toNumber].
  unfold Json.formatIntervalList.
  cbn [Json.IntervalList.lastUpdated Json.IntervalList.items]. f_equal.
  destruct (Json.RawIntervalList.items intervals) as [elements|other]; [|reflexivity].
  simpl in Hs. rewrite map_map.
  induction Hs as [|e es He Hes IH]; simpl; [reflexivity|].
  rewrite (formatInterval_idem e He), IH. reflexivity.
Qed.

Lemma formatSessionUpdate_idem (now now' : Z) (session : Json.RawSessionUpdate.t) :
  settled_update session ->
  Json.formatSessionUpdate now' (Json.SessionUpdate.to_raw
                                   (Json.formatSessionUpdate now session))
  = Json.formatSessionUpdate now session.
Proof.
  intros [Hn [Hd Hi]]. unfold Json.formatSessionUpdate at 1.
  cbn [Json.SessionUpdate.to_raw Json.RawSessionUpdate.name
       Json.RawSessionUpdate.description Json.RawSessionUpdate.intervals
       Json.or_empty_list].
  unfold Json.formatSessionUpdate.
  cbn [Json.SessionUpdate.name Json.SessionUpdate.description
       Json.SessionUpdate.intervals].
  rewrite (clean_settled _ _ Hn), (clean_settled _ _ Hd).
  rewrite (formatIntervalList_idem now now' _ Hi). reflexivity.
Qed.

Lemma formatTimer_idem (timer : Json.RawTimer.t) :
  settled_timer timer ->
  Json.formatTimer (Json.TimerState.to_raw (Json.formatTimer timer))
  = Json.formatTimer timer.
Proof.
  intros [Hi Hr]. unfold Json.formatTimer at 1.
  cbn [Json.TimerState.to_raw Json.RawTimer.repeat Json.RawTimer.interval
       Json.RawTimer.remaining Json.RawTimer.isRunning Json.RawTimer.isPaused
       bool_or_false].
  unfold Json.formatTimer.
  cbn [Json.TimerState.repeat Json.TimerState.interval Json.TimerState.remaining
       Json.TimerState.isRunning Json.TimerState.isPaused].
  rewrite (index_idem _ Hi), (remaining_idem _ Hr). reflexivity.
Qed.

Lemma formatUser_idem (user : RawUser.t) :
  settled_user user ->
  formatUser (RawUser.of_user (formatUser user)) = formatUser user.
Proof.
  intros [Hn [Ha Ho]]. unfold formatUser at 1.
  cbn [RawUser.of_user RawUser.clientId RawUser.name RawUser.avatarUrl
       RawUser.offlineAt].
  unfold formatUser.
  cbn [User.clientId User.name User.avatarUrl User.isOnline].
  rewrite (clean_settled _ _ Hn), (clean_settled _ _ Ha), str_or_empty.
  f_equal. destruct (RawUser.offlineAt user) as [o|]; [|reflexivity].
  rewrite Ho. reflexivity.
Qed.

(** On frames that are typed, the formatters of this section are the
    typed ones. *)
Lemma typed_formatInterval (interval : option RawInterval.t) :
  Json.formatInterval (option_map Typed.raw_interval interval)
  = Typed.interval (formatInterval interval).
Proof.
  unfold Json.formatInterval, formatInterval, Typed.interval.
  cbn [Interval.name Interval.duration Interval.alert Interval.customCSS].
  destruct interval as [[name duration alert css]|]; cbn [option_map]; [|reflexivity].
  cbn [Typed.raw_interval Json.RawInterval.name Json.RawInterval.duration
       Json.RawInterval.alert Json.RawInterval.customCSS RawInterval.name
       RawInterval.duration RawInterval.alert RawInterval.customCSS].
  f_equal. rewrite typed_number_or. reflexivity.
Qed.

Lemma typed_formatTimer (timer : RawTimer.t) :
  Json.formatTimer (Typed.raw_timer timer) = Typed.timer (formatTimer timer).
Proof.
  unfold Json.formatTimer, formatTimer, Typed.timer, Typed.raw_timer.
  cbn [Json.RawTimer.repeat Json.RawTimer.interval Json.RawTimer.remaining
       Json.RawTimer.isRunning Json.RawTimer.isPaused TimerState.repeat
       TimerState.interval TimerState.remaining TimerState.isRunning
       TimerState.isPaused].
  rewrite !typed_number_or. reflexivity.
Qed.

Lemma typed_formatSessionUpdate (now : Z) (session : option RawSessionUpdate.t) :
  Json.formatSessionUpdate now
    (Json.or_empty_update (option_map Typed.raw_update session))
  = Typed.update (formatSessionUpdate now (or_empty_update session)).
Proof.
  unfold Json.formatSessionUpdate, formatSessionUpdate, Typed.update.
  cbn [SessionUpdate.name SessionUpdate.description SessionUpdate.intervals].
  destruct session as [[name description intervals]|]; cbn [option_map]; [|reflexivity].
  cbn [Json.or_empty_update or_empty_update Typed.raw_update
       Json.RawSessionUpdate.name Json.RawSessionUpdate.description
       Json.RawSessionUpdate.intervals RawSessionUpdate.name
       RawSessionUpdate.description RawSessionUpdate.intervals].
  f_equal.
  destruct intervals as [[lastUpdated items]|]; cbn [option_map]; [|reflexivity].
  unfold Json.formatIntervalList, formatIntervalList, Typed.interval_list.
  cbn [Json.or_empty_list or_empty_list Typed.raw_list
       Json.RawIntervalList.lastUpdated Json.RawIntervalList.items
       RawIntervalList.lastUpdated RawIntervalList.items
       IntervalList.lastUpdated IntervalList.items].
  f_equal.
  - destruct lastUpdated; reflexivity.
  - destruct items as [elements|other]; [|reflexivity].
    cbn [Typed.raw_items]. rewrite !map_map.
    apply map_ext. intros e. apply typed_formatInterval.
Qed.

Lemma typed_formatIncoming (now : Z) (data : RawMessage.t) :
  Json.formatIncoming now (Typed.raw_message data)
  = omap Typed.message (formatIncoming now data).
Proof.
  destruct data as [sessionId session timer user|session timer|timer|user| | |type];
    cbn [Typed.raw_message Json.formatIncoming formatIncoming omap obind
         Typed.message];
    try reflexivity.
  - unfold Json.formatSessionJoinMsg, formatSessionJoinMsg. cbn [Typed.message].
    rewrite typed_formatSessionUpdate. f_equal. f_equal.
    destruct timer as [timer|]; [apply typed_formatTimer|reflexivity].
  - unfold Json.formatSessionUpdateMsg, formatSessionUpdateMsg. cbn [Typed.message].
    rewrite typed_formatSessionUpdate. f_equal. f_equal.
    destruct timer as [timer|]; [|reflexivity].
    cbn [option_map]. f_equal. apply typed_formatTimer.
  - unfold Json.formatTimerUpdateMsg, formatTimerUpdateMsg. cbn [Typed.message].
    f_equal. f_equal.
    destruct timer as [timer|]; [apply typed_formatTimer|reflexivity].
Qed.

(** C5, amended.  On every inbound frame that [formatIncoming] accepts
    and in which each cut string field keeps no white space at its end,
    no interval duration and no [timer.interval] is a truthy value that
    [Number(...)] converts to [NaN], [timer.remaining] is missing, falsy
    or converts to a positive number, and the user carries no truthy
    [offlineAt], formatting the formatted message again gives the same
    message, whatever the clock. *)
Theorem formatIncoming_idempotent_on_settled
        (now now' : Z) (message : Json.RawMessage.t)
        (formatted : Json.IncomingMessage.t) :
  settled_message message ->
  Json.formatIncoming now message = Ret formatted ->
  Json.formatIncoming now' (Json.IncomingMessage.to_raw formatted) = Ret formatted.
Proof.
  intros Hs Hf.
  destruct message as [sessionId session timer user|session timer|timer|user| | |type];
    simpl in Hf; inversion Hf; subst formatted; clear Hf; simpl in Hs.
  - destruct Hs as [Hu [Ht Hr]].
    unfold Json.formatSessionJoinMsg.
    cbn [Json.IncomingMessage.to_raw Json.formatIncoming].
    unfold Json.formatSessionJoinMsg.
    cbn [Json.or_empty_update Json.or_empty_timer or_empty_user].
    rewrite formatSessionId_idem, (formatSessionUpdate_idem now now' _ Hu),
      (formatTimer_idem _ Ht), (formatUser_idem _ Hr).
    reflexivity.
  - destruct Hs as [Hu Ht].
    unfold Json.formatSessionUpdateMsg.
    cbn [Json.IncomingMessage.to_raw Json.formatIncoming].
    unfold Json.formatSessionUpdateMsg.
    cbn [Json.or_empty_update].
    rewrite (formatSessionUpdate_idem now now' _ Hu).
    destruct timer as [timer|]; cbn [option_map]; [|reflexivity].
    simpl in Ht. rewrite (formatTimer_idem _ Ht). reflexivity.
  - unfold Json.formatTimerUpdateMsg.
    cbn [Json.IncomingMessage.to_raw Json.formatIncoming].
    unfold Json.formatTimerUpdateMsg.
    cbn [Json.or_empty_timer]. rewrite (formatTimer_idem _ Hs). reflexivity.
  - unfold Json.formatUserUpdateMsg.
    cbn [Json.IncomingMessage.to_raw Json.formatIncoming].
    unfold Json.formatUserUpdateMsg.
    cbn [or_empty_user]. rewrite (formatUser_idem _ Hs). reflexivity.
  - reflexivity.
  - reflexivity.
Qed.

(** C5, as stated, fails: the codec cuts the trimmed name at 50 characters,
    which leaves the space at the end; formatting the message it produced
    trims that space away, so the second pass differs from the first. *)
Lemma formatIncoming_not_idempotent :
  exists once twice,
    Json.formatIncoming 1000000 renaming = Ret once /\
    Json.formatIncoming 1000000 (Json.IncomingMessage.to_raw once) = Ret twice /\
    once <> twice.
Proof.
  eexists. eexists. split; [reflexivity|]. split; [reflexivity|].
  vm_compute. intros H. discriminate H.
Qed.

(** The condition on the numbers is needed as well: a duration that is the
    text ['abc'] is formatted to [NaN], which is falsy, and the second pass
    puts [DEFAULT_DURATION] in its place. *)
Lemma formatIncoming_not_idempotent_on_text :
  exists once twice,
    Json.formatIncoming 1000000 worded = Ret once /\
    Json.formatIncoming 1000000 (Json.IncomingMessage.to_raw once) = Ret twice /\
    map Json.Interval.duration
        (match once with
         | Json.IncomingMessage.session_update session _ =>
             Json.IntervalList.items (Json.SessionUpdate.intervals session)
         | _ => []
         end) = [NaN] /\
    map Json.Interval.duration
        (match twice with
         | Json.IncomingMessage.session_update session _ =>
             Json.IntervalList.items (Json.SessionUpdate.intervals session)
         | _ => []
         end) = [Num 1500].
Proof.
  eexists. eexists. split; [reflexivity|]. split; [reflexivity|].
  split; reflexivity.
Qed.

Lemma formatIncoming_idempotent_on_settled_witness :
  settled_message tidy /\
  exists formatted,
    Json.formatIncoming 1000000 tidy = Ret formatted /\
    Json.formatIncoming 1000001 (Json.IncomingMessage.to_raw formatted)
    = Ret formatted.
Proof.
  assert (Hs : settled_message tidy).
  { repeat split; try (vm_compute; reflexivity).
    constructor; [|constructor]. repeat split; vm_compute; reflexivity. }
  split; [exact Hs|].
  eexists. split; [reflexivity|].
  apply (formatIncoming_idempotent_on_settled 1000000 1000001 tidy _ Hs).
  reflexivity.
Defined.

(** *** formatTimer *)

Lemma formatTimer_zero_only_from_negative (timer : RawTimer.t) :
  TimerState.remaining (formatTimer timer) = 0 ->
  exists r, RawTimer.remaining timer = Some r /\ r < 0.
Proof.
  intros H. unfold formatTimer in H. cbn [TimerState.remaining] in H.
  unfold num_or, DEFAULT_DURATION, MAX_DURATION in H.
  destruct (RawTimer.remaining timer) as [r|]; [|lia].
  exists r. split; [reflexivity|]. destruct (Z.eqb_spec r 0); lia.
Qed.

(** C10.  [formatTimer] replaces a remaining time of 0, like a missing
    one, by [DEFAULT_DURATION * 1000 = 1500000] ms, and caps a positive one
    at 86400000 ms; the timers of the inbound [timer_update] and
    [session_update] and of the outbound [timer_updated] and session
    snapshot all pass through it, so a remaining time of exactly 0 does not
    survive the codec. *)
Theorem formatTimer_zero_remaining :
  DEFAULT_DURATION * 1000 = 1500000 /\
  (forall timer,
      TimerState.remaining (formatTimer (withRemaining (Some 0) timer)) = 1500000) /\
  (forall timer,
      TimerState.remaining (formatTimer (withRemaining None timer)) = 1500000) /\
  (forall timer (r : positive),
      TimerState.remaining (formatTimer (withRemaining (Some (Z.pos r)) timer))
      = Z.min (Z.pos r) 86400000) /\
  (forall now timer,
      formatIncoming now (RawMessage.timer_update (Some timer))
      = Ret (IncomingMessage.timer_update (formatTimer timer))) /\
  (forall now session timer,
      formatIncoming now (RawMessage.session_update session (Some timer))
      = Ret (IncomingMessage.session_update
               (formatSessionUpdate now (or_empty_update session))
               (Some (formatTimer timer)))) /\
  (forall session,
      formatTimerUpdatedMsg session
      = OutgoingMessage.timer_updated
          (formatSessionId (Some (SessionInternal.sessionId session)))
          (formatTimer (RawTimer.of_internal (SessionInternal.timer session)))) /\
  (forall now session,
      Session.timer (formatSession now (RawSession.of_internal session))
      = formatTimer (RawTimer.of_internal (SessionInternal.timer session))).
Proof.
  repeat split.
  intros timer r. cbn. lia.
Qed.

End CodecFacts.

(** ** The session manager *)

Module SessionManagerFacts.
Import SessionManager SessionManagerSpec AssocFacts.
Local Open Scope string_scope.

(** *** session_update *)

(** The array test of [handleSessionUpdate] never fails on a message that
    went through [formatIncoming]: [formatIntervalList] has already put the
    empty array in the place of anything that is not one. *)
Lemma formatted_items_are_an_array (now : Z) (session : option RawSessionUpdate.t) :
  RawItems.isArray
    (RawItems.of_items
       (IntervalList.items
          (SessionUpdate.intervals (formatSessionUpdate now (or_empty_update session)))))
  = true.
Proof. reflexivity. Qed.

Lemma not_an_array_formats_to_empty (now : Z) (lastUpdated : option Z)
      (value : NonArray) :
  IntervalList.items
    (formatIntervalList now {| RawIntervalList.lastUpdated := lastUpdated;
                               RawIntervalList.items := RawItems.Other value |})
  = [].
Proof. reflexivity. Qed.

(** C1, on the code.  Alice and Bob are in a session with one interval,
    and Alice sends a [session_update] whose [intervals.items] is any value
    [value] that is not an array.  The one frame the manager writes is the
    error [Failed to process session_update], to Alice: the array test has
    let the update through, the interval list of the stored session, which
    held the interval before, is empty after, and the broadcast of the
    update has thrown.  The error [Invalid intervals data] is not
    written. *)
Theorem invalid_items_replace_intervals
        (sha256_hex : string -> string) (value : NonArray) :
  let before := after (room sha256_hex) in
  let now := after (room sha256_hex
                    ++ [receive sha256_hex 1002000 1%nat (bad_update value)]) in
  room_items before = Some [Interval.mk "Work" 25 "Default" ""] /\
  room_items now = Some [] /\
  sent_since before now
  = [(1%nat, OutgoingMessage.error "Failed to process session_update")].
Proof. vm_compute. repeat split. Qed.

(** *** session_join by a user the session has

    Alice, who is in the session with Bob, joins again from a second
    connection.  The branch of [handleSessionJoin] for a user the session
    already has reads [existing.sockets], which the stored user does not
    have, and [sockets.set] throws before [Object.assign] copies the
    client id of the frame over the stored one: the one frame written is
    the error, to the new connection, and the stored user keeps the digest
    for [clientId]. *)
Lemma second_join_throws :
  let before := after (room digest) in
  let now := after (second_tab digest) in
  sent_since before now
  = [(3%nat, OutgoingMessage.error "Failed to process session_join")] /\
  option_map
    (fun session =>
       map (fun entry : string * UserInternal.t =>
              (fst entry, UserInternal.clientId (snd entry)))
           (SessionInternal.users session))
    (slookup "room-1" (sessions now))
  = Some [(alice, digest alice); (bob, digest bob)].
Proof. vm_compute. split; reflexivity. Qed.

(** *** emptyAt *)

(** C3, on the code.  Alice creates a session and her connection closes.
    [removeClient] throws at [user.sockets.delete], before the lines that
    stamp [emptyAt], and nothing catches it: after the close no user of
    the stored session has an open connection and [emptyAt] is [0], not
    set, so that the invariant fails.  ([emptyAt] is the number [0] from
    the creation of the session on, when Alice was online: it is never
    [null].) *)
Theorem close_leaves_no_empty_mark (sha256_hex : string -> string) :
  let before := after (alone sha256_hex) in
  let now := snd (handleWebSocketClose 1001000 1%nat before) in
  fst (handleWebSocketClose 1001000 1%nat before) = Throw /\
  exists created session,
    slookup "room-1" (sessions before) = Some created /\
    SessionInternal.emptyAt created = Some 0 /\
    online_users before created = [alice] /\
    slookup "room-1" (sessions now) = Some session /\
    SessionInternal.emptyAt session = Some 0 /\
    online_users now session = [] /\
    ~ empty_mark_invariant now session.
Proof.
  cbv zeta. split; [vm_compute; reflexivity|].
  eexists. eexists.
  split; [vm_compute; reflexivity|]. split; [reflexivity|].
  split; [vm_compute; reflexivity|].
  split; [vm_compute; reflexivity|]. split; [reflexivity|].
  split; [vm_compute; reflexivity|].
  unfold empty_mark_invariant. intros [_ H].
  assert (E : truthy (Some 0) = true) by (apply H; vm_compute; reflexivity).
  discriminate E.
Qed.

(** *** Digests *)

Lemma client_id_is_not_a_digest (s : string) :
  is_sha256_hex s = true -> CLIENT_ID_REGEX s = false.
Proof.
  unfold is_sha256_hex, CLIENT_ID_REGEX. intros H.
  apply andb_prop in H. destruct H as [_ H]. apply Nat.eqb_eq in H. rewrite H.
  apply andb_false_r.
Qed.

(** *** Methods that preserve an invariant *)

Section Rules.
Context {I : t -> Prop}.

Lemma preserves_ret {A} (a : A) (Q : A -> Prop) : Q a -> preserves I (ret a) Q.
Proof.
  intros Ha m Hm. split; [exact Hm|]. intros a' E. injection E as <-. exact Ha.
Qed.

Lemma preserves_skip : preserves I skip (fun _ => True).
Proof. apply preserves_ret. exact Logic.I. Qed.

Lemma preserves_throw {A} (Q : A -> Prop) : preserves I (@throw A) Q.
Proof. intros m Hm. split; [exact Hm|]. intros a E. discriminate E. Qed.

Lemma preserves_lift {A} (o : outcome A) (Q : A -> Prop) :
  (forall a, o = Ret a -> Q a) -> preserves I (lift o) Q.
Proof. intros H m Hm. split; [exact Hm|exact H]. Qed.

Lemma preserves_get : preserves I get (fun m => I m).
Proof. intros m Hm. split; [exact Hm|]. intros a E. injection E as <-. exact Hm. Qed.

Lemma preserves_bind {A B} (c : M A) (k : A -> M B) (P : A -> Prop) (Q : B -> Prop) :
  preserves I c P -> (forall a, P a -> preserves I (k a) Q) ->
  preserves I (bind c k) Q.
Proof.
  intros Hc Hk m Hm. destruct (Hc m Hm) as [Hm' Ha]. unfold bind.
  destruct (c m) as [[a| |] m']; cbn [fst snd] in *.
  - apply (Hk a (Ha a eq_refl) m' Hm').
  - split; [exact Hm'|]. intros b E. discriminate E.
  - split; [exact Hm'|]. intros b E. discriminate E.
Qed.

Lemma preserves_weaken {A} (c : M A) (P Q : A -> Prop) :
  preserves I c P -> (forall a, P a -> Q a) -> preserves I c Q.
Proof.
  intros Hc H m Hm. destruct (Hc m Hm) as [Hm' Ha].
  split; [exact Hm'|]. intros a E. exact (H a (Ha a E)).
Qed.

Lemma preserves_forEach {A} (l : list A) (f : A -> M unit) :
  (forall x, In x l -> preserves I (f x) (fun _ => True)) ->
  preserves I (forEach l f) (fun _ => True).
Proof.
  induction l as [|x l IH]; intros H; cbn [forEach].
  - apply preserves_skip.
  - apply (preserves_bind _ _ (fun _ => True)).
    + apply H. left. reflexivity.
    + intros _ _. apply IH. intros y Hy. apply H. right. exact Hy.
Qed.

Lemma preserves_try_catch (body handler : M unit) :
  preserves I body (fun _ => True) -> preserves I handler (fun _ => True) ->
  preserves I (try_catch body handler) (fun _ => True).
Proof.
  intros Hb Hh m Hm. destruct (Hb m Hm) as [Hm' _]. unfold try_catch.
  destruct (body m) as [[[]| |] m']; cbn [fst snd] in *.
  - split; [exact Hm'|]. intros; exact Logic.I.
  - apply (Hh m' Hm').
  - split; [exact Hm'|]. intros; exact Logic.I.
Qed.

Lemma preserves_sendMessage (ws : handle) (message : OutgoingMessage.t) :
  (forall m, I m -> I (snd (send ws message m))) ->
  preserves I (sendMessage ws message) (fun _ => True).
Proof.
  intros H. unfold sendMessage.
  apply (preserves_bind _ _ _ _ preserves_get). intros m _.
  destruct (negb (isOpen m ws)); [apply preserves_skip|].
  intros m' Hm'. split; [exact (H m' Hm')|intros; exact Logic.I].
Qed.

Lemma preserves_broadcastToSession (session : SessionInternal.t)
      (message : OutgoingMessage.t) (exclude ignore : option string) :
  (forall ws m, I m -> I (snd (send ws message m))) ->
  preserves I (broadcastToSession session message exclude ignore) (fun _ => True).
Proof.
  intros H. unfold broadcastToSession.
  apply preserves_forEach. intros [clientId user] _.
  destruct (nonempty ignore && same ignore clientId); [apply preserves_skip|].
  destruct (UserInternal.sockets user) as [sockets|]; [|apply preserves_throw].
  apply preserves_forEach. intros kv _.
  apply (preserves_bind _ _ _ _ preserves_get). intros m _.
  destruct (_ && _); [apply preserves_skip|apply preserves_sendMessage, H].
Qed.
End Rules.

(** *** Client ids in outbound frames *)

Section Hashed.
Variable sha256_hex : string -> string.
Variable uuid : nat -> string.
Hypothesis uuid_ok : forall n, CLIENT_ID_REGEX (uuid n) = true.

Local Abbreviation hashed_user := (hashed_user sha256_hex).
Local Abbreviation hashed_session := (hashed_session sha256_hex).
Local Abbreviation hashed_id := (hashed_id sha256_hex).
Local Abbreviation hashed_message := (hashed_message sha256_hex).
Local Abbreviation hashed := (hashed sha256_hex).
Local Abbreviation keeps := (preserves hashed).

(** A method that leaves sessions and frames as they are. *)
Lemma keeps_frame {A} (c : M A) (Q : A -> Prop) :
  (forall m, sessions (snd (c m)) = sessions m /\ sent (snd (c m)) = sent m) ->
  (forall m a, fst (c m) = Ret a -> Q a) ->
  keeps c Q.
Proof.
  intros Hf Hq m [Hs Ht]. destruct (Hf m) as [Es Et].
  split; [split; [rewrite Es; exact Hs|rewrite Et; exact Ht]|apply Hq].
Qed.

Lemma keeps_setSocket (ws : handle) (f : ServerWebSocket.t -> ServerWebSocket.t) :
  keeps (setSocket ws f) (fun _ => True).
Proof. apply keeps_frame; [intros m; split; reflexivity|intros; exact I]. Qed.

Lemma keeps_generateUUID : keeps (generateUUID uuid) (fun _ => True).
Proof. apply keeps_frame; [intros m; split; reflexivity|intros; exact I]. Qed.

Lemma keeps_withClientId {A} (input : option string) (format : string -> A) :
  keeps (withClientId uuid input format) (fun a => exists n, a = format (uuid n)).
Proof.
  unfold withClientId.
  destruct (CLIENT_ID_REGEX (trim (toLowerCase (str_or "" input)))).
  - apply keeps_frame; [intros m; split; reflexivity|].
    intros m a E. injection E as <-. eexists. reflexivity.
  - apply keeps_frame; [intros m; split; reflexivity|].
    intros m a E. injection E as <-. eexists. reflexivity.
Qed.

Lemma hashed_send (message : OutgoingMessage.t) :
  hashed_message message ->
  forall ws m, hashed m -> hashed (snd (send ws message m)).
Proof.
  intros Hmsg ws m [Hs Ht]. split; [exact Hs|]. cbn [send modify snd sent].
  apply Forall_app. split; [exact Ht|]. constructor; [exact Hmsg|constructor].
Qed.

Lemma keeps_send (ws : handle) (message : OutgoingMessage.t) :
  hashed_message message -> keeps (send ws message) (fun _ => True).
Proof.
  intros Hmsg m Hm. split; [exact (hashed_send message Hmsg ws m Hm)|intros; exact I].
Qed.

Lemma keeps_sendMessage (ws : handle) (message : OutgoingMessage.t) :
  hashed_message message -> keeps (sendMessage ws message) (fun _ => True).
Proof. intros Hmsg. apply preserves_sendMessage, hashed_send, Hmsg. Qed.

Lemma keeps_sendError (ws : handle) (message : string) :
  keeps (sendError ws message) (fun _ => True).
Proof. apply keeps_sendMessage. constructor. Qed.

Lemma keeps_broadcastToSession (session : SessionInternal.t)
      (message : OutgoingMessage.t) (exclude ignore : option string) :
  hashed_message message ->
  keeps (broadcastToSession session message exclude ignore) (fun _ => True).
Proof. intros Hmsg. apply preserves_broadcastToSession, hashed_send, Hmsg. Qed.

Lemma keeps_setSessions
      (f : list (string * SessionInternal.t) -> list (string * SessionInternal.t)) :
  (forall stored,
      Forall (fun entry : string * SessionInternal.t => hashed_session (snd entry))
             stored ->
      Forall (fun entry : string * SessionInternal.t => hashed_session (snd entry))
             (f stored)) ->
  keeps (setSessions f) (fun _ => True).
Proof.
  intros H m [Hs Ht]. split; [|intros; exact I].
  split; [apply H, Hs|exact Ht].
Qed.

Lemma keeps_getSession (sessionId : option string) :
  keeps (getSession sessionId)
        (fun found => forall session, found = Some session -> hashed_session session).
Proof.
  intros m Hm. split; [exact Hm|].
  intros found E. injection E as <-. intros session Hl.
  destruct sessionId as [id|]; [|discriminate Hl].
  destruct Hm as [Hs _]. rewrite Forall_forall in Hs.
  exact (Hs _ (lookup_in id session _ Hl)).
Qed.

Lemma keeps_updateStored (sessionId : string)
      (f : SessionInternal.t -> SessionInternal.t) :
  (forall session, hashed_session session -> hashed_session (f session)) ->
  keeps (updateStored sessionId f) (fun _ => True).
Proof.
  intros H. apply keeps_setSessions. intros stored Hs.
  destruct (slookup sessionId stored) as [session|] eqn:Hl; [|exact Hs].
  apply Forall_assign; [exact Hs|]. apply H.
  rewrite Forall_forall in Hs. exact (Hs _ (lookup_in _ _ _ Hl)).
Qed.

Lemma keeps_assignTo (alias : option string) (session : SessionInternal.t) :
  hashed_session session -> keeps (assignTo alias session) (fun _ => True).
Proof.
  intros Hs. destruct alias as [key|]; [|apply preserves_skip].
  apply keeps_updateStored. intros _ _. exact Hs.
Qed.

Lemma keeps_shareCore (session : SessionInternal.t) :
  keeps (shareCore session) (fun _ => True).
Proof. apply keeps_updateStored. intros stored Hs. exact Hs. Qed.

(** **** The formatters *)

Lemma hashed_formatInternalUser (now : Z) (key : string) (user : UserInternal.t) :
  hashed_user (key, user) ->
  hashed_user (key, formatInternalUser now (RawUser.of_internal user)).
Proof.
  intros [Hk [Hc _]]. split; [exact Hk|]. split; [|reflexivity].
  cbn [snd fst formatInternalUser UserInternal.clientId formatUser User.clientId
       RawUser.of_internal RawUser.clientId] in *.
  rewrite CodecFacts.str_or_empty. exact Hc.
Qed.

Lemma hashed_formatInternalUsers (now : Z) (users : list (string * UserInternal.t)) :
  Forall hashed_user users ->
  Forall hashed_user
         (formatInternalUsers
            now (map (fun kv => (fst kv, RawUser.of_internal (snd kv))) users)).
Proof.
  unfold formatInternalUsers. intros Hu.
  assert (G : forall acc, Forall hashed_user acc ->
              Forall hashed_user
                     (fold_left (fun acc kv =>
                                   sassign (fst kv) (formatInternalUser now (snd kv)) acc)
                                (map (fun kv => (fst kv, RawUser.of_internal (snd kv)))
                                     users)
                                acc)).
  { induction Hu as [|[key user] users Hx Hu IH]; intros acc Hacc; [exact Hacc|].
    cbn [map fold_left fst snd]. apply IH.
    apply Forall_assign; [exact Hacc|]. apply hashed_formatInternalUser, Hx. }
  apply G. constructor.
Qed.

Lemma hashed_formatInternalSession (now : Z) (session : SessionInternal.t) :
  hashed_session session ->
  hashed_session (formatInternalSession now (RawSession.of_internal session)).
Proof. intros H. apply (hashed_formatInternalUsers now _ H). Qed.

Lemma hashed_new_session (now : Z) (sessionId : string) (update : SessionUpdate.t) :
  hashed_session (formatInternalSession now (RawSession.of_new sessionId update)).
Proof. constructor. Qed.

Lemma hashed_formatUser (key : string) (user : UserInternal.t) :
  hashed_user (key, user) ->
  hashed_id (User.clientId (formatUser (RawUser.of_internal user))).
Proof.
  intros [Hk [Hc _]]. exists key. split; [exact Hk|].
  cbn [formatUser User.clientId RawUser.of_internal RawUser.clientId].
  rewrite CodecFacts.str_or_empty. exact Hc.
Qed.

Lemma hashed_formatUserList (users : list (string * UserInternal.t)) :
  Forall hashed_user users ->
  Forall (fun user => hashed_id (User.clientId user))
         (map snd (formatUserList
                     (map (fun kv => (fst kv, RawUser.of_internal (snd kv))) users))).
Proof.
  unfold formatUserList. intros Hu.
  assert (G : forall acc : list (string * User.t),
              Forall (fun entry => hashed_id (User.clientId (snd entry))) acc ->
              Forall (fun entry => hashed_id (User.clientId (snd entry)))
                     (fold_left
                        (fun acc kv =>
                           let user := snd kv in
                           let key := str_or "" (RawUser.clientId user) in
                           if is_empty key then acc
                           else sassign key (formatUser user) acc)
                        (map (fun kv => (fst kv, RawUser.of_internal (snd kv))) users)
                        acc)).
  { induction Hu as [|[key user] users Hx Hu IH]; intros acc Hacc; [exact Hacc|].
    cbn [map fold_left fst snd]. apply IH.
    destruct (is_empty _); [exact Hacc|].
    apply Forall_assign; [exact Hacc|]. exact (hashed_formatUser key user Hx). }
  apply Forall_map. apply G. constructor.
Qed.

Lemma hashed_lookup (session : SessionInternal.t) (clientId : string)
      (user : UserInternal.t) :
  hashed_session session ->
  slookup clientId (SessionInternal.users session) = Some user ->
  hashed_user (clientId, user).
Proof.
  intros Hs Hl.
  exact (proj1 (Forall_forall _ _) Hs _ (lookup_in _ _ _ Hl)).
Qed.

Lemma hashed_user_frame (session : SessionInternal.t) (clientId : string)
      (user : UserInternal.t) :
  hashed_session session ->
  slookup clientId (SessionInternal.users session) = Some user ->
  Forall (fun user => hashed_id (User.clientId user))
         [formatUser (or_empty_user (option_map RawUser.of_internal (Some user)))].
Proof.
  intros Hs Hl. constructor; [|constructor].
  exact (hashed_formatUser clientId user (hashed_lookup session clientId user Hs Hl)).
Qed.

(** **** The methods of the manager *)

Lemma keeps_setSession (now : Z) (sessionId : string) (session : SessionInternal.t) :
  hashed_session session -> keeps (setSession now sessionId session) (fun _ => True).
Proof.
  intros Hs. unfold setSession. destruct (is_empty sessionId); [apply preserves_skip|].
  apply keeps_setSessions. intros stored Hst.
  apply Forall_assign; [exact Hst|]. apply hashed_formatInternalSession, Hs.
Qed.

Lemma keeps_syncTimer (now : Z) (alias : option string) (session : SessionInternal.t) :
  hashed_session session ->
  keeps (syncTimer now alias session)
        (fun synced => hashed_session synced /\
                       SessionInternal.users synced = SessionInternal.users session).
Proof.
  intros Hs. unfold syncTimer.
  apply (preserves_bind _ _ (fun _ => True)); [apply preserves_lift; intros; exact I|].
  intros core _.
  apply (preserves_bind _ _ (fun _ => True)); [apply keeps_assignTo, Hs|]. intros _ _.
  apply (preserves_bind _ _ (fun _ => True)); [apply keeps_shareCore|]. intros _ _.
  apply preserves_ret. split; [exact Hs|reflexivity].
Qed.

Lemma keeps_createSession (now : Z) (sessionId : string) (update : SessionUpdate.t)
      (timer : TimerState.t) :
  keeps (createSession now sessionId update timer)
        (fun session => hashed_session session).
Proof.
  unfold createSession.
  apply (preserves_bind _ _ (fun _ => True)).
  - apply keeps_setSession. apply hashed_new_session.
  - intros _ _. apply preserves_ret. apply hashed_new_session.
Qed.

Lemma keeps_getSocketSession (now : Z) (ws : handle) :
  keeps (getSocketSession now ws)
        (fun found => forall session alias,
                        found = Some (session, alias) -> hashed_session session).
Proof.
  unfold getSocketSession.
  apply (preserves_bind _ _ _ _ preserves_get). intros m _.
  apply (preserves_bind _ _ _ _ (keeps_getSession _)). intros [session|] Hfound.
  - assert (Hs : hashed_session (withLastActivity now session))
      by exact (Hfound session eq_refl).
    apply (preserves_bind _ _ (fun _ => True)); [apply keeps_assignTo, Hs|]. intros _ _.
    apply (preserves_bind _ _ (fun _ => True)); [apply keeps_setSession, Hs|]. intros _ _.
    apply preserves_ret. intros s a E. injection E as <- _. exact Hs.
  - apply (preserves_bind _ _ (fun _ => True)); [apply keeps_sendError|]. intros _ _.
    apply preserves_ret. intros s a E. discriminate E.
Qed.

Lemma keeps_broadcastTimerUpdate (now : Z) (alias : option string)
      (session : SessionInternal.t) (exclude : option string) :
  hashed_session session ->
  keeps (broadcastTimerUpdate now alias session exclude) (fun _ => True).
Proof.
  intros Hs. unfold broadcastTimerUpdate.
  apply (preserves_bind _ _ _ _ (keeps_syncTimer now alias session Hs)). intros synced _.
  apply keeps_broadcastToSession. constructor.
Qed.

Lemma keeps_handleSessionJoin (now : Z) (ws : handle) (message : IncomingMessage.t) :
  keeps (handleSessionJoin sha256_hex uuid now ws message) (fun _ => True).
Proof.
  destruct message as [sessionId update timer user| | | | |]; try apply preserves_skip.
  unfold handleSessionJoin.
  apply (preserves_bind _ _ _ _ keeps_generateUUID). intros socketId _.
  apply (preserves_bind _ _ _ _ (keeps_withClientId _ _)). intros clientId [n ->].
  set (clientId := formatClientId (uuid n) (Some (User.clientId user))).
  assert (Hcid : CLIENT_ID_REGEX clientId = true).
  { unfold clientId, formatClientId.
    destruct (CLIENT_ID_REGEX (trim (toLowerCase (str_or "" (Some (User.clientId user))))))
             eqn:E; [exact E|apply uuid_ok]. }
  apply (preserves_bind _ _ _ _ (keeps_setSocket _ _)). intros _ _.
  apply (preserves_bind _ _ _ _ (keeps_getSession _)). intros found Hfound.
  apply (preserves_bind _ _ (fun session => hashed_session session)).
  { destruct found as [session|].
    - apply preserves_ret. exact (Hfound session eq_refl).
    - apply keeps_createSession. }
  intros session Hs.
  apply (preserves_bind _ _ _ _ (keeps_syncTimer now _ session Hs)).
  intros synced [Hsynced Husers].
  apply (preserves_bind _ _ (fun joined =>
                           hashed_session joined /\
                           exists u, slookup clientId (SessionInternal.users joined)
                                     = Some u)).
  { destruct (slookup clientId (SessionInternal.users session)) as [existing|] eqn:Hl.
    - destruct (hashed_lookup session clientId existing Hs Hl) as [_ [_ He]].
      cbn [snd] in He. rewrite He. apply preserves_throw.
    - match goal with
      | |- context [bind (assignTo _ ?s) _] =>
          assert (Hj : hashed_session s /\
                       exists u, slookup clientId (SessionInternal.users s) = Some u)
      end.
      { split.
        - apply Forall_assign; [exact Hsynced|].
          split; [exact Hcid|]. split; [|reflexivity].
          cbn [snd fst formatInternalUser UserInternal.clientId formatUser
               User.clientId RawUser.clientId].
          apply CodecFacts.str_or_empty.
        - eexists. cbn [withUsers SessionInternal.users].
          apply lookup_assign_same. }
      apply (preserves_bind _ _ (fun _ => True)); [apply keeps_assignTo, Hj|].
      intros _ _. apply preserves_ret. exact Hj. }
  intros joined [Hj [u Hu]].
  apply (preserves_bind _ _ (fun _ => True)); [apply keeps_setSession, Hj|]. intros _ _.
  apply (preserves_bind _ _ (fun reply => hashed_message reply)).
  { eapply preserves_weaken; [apply keeps_withClientId|].
    intros reply [k ->]. destruct found.
    - apply (hashed_formatUserList _ Hj).
    - constructor. }
  intros reply Hreply.
  apply (preserves_bind _ _ (fun _ => True)); [apply keeps_sendMessage, Hreply|].
  intros _ _. apply keeps_broadcastToSession.
  rewrite Hu. exact (hashed_user_frame joined clientId u Hj Hu).
Qed.


Lemma keeps_handleSessionUpdate (now : Z) (ws : handle) (message : IncomingMessage.t) :
  keeps (handleSessionUpdate now ws message) (fun _ => True).
Proof.
  destruct message as [| update timer | | | |]; try apply preserves_skip.
  unfold handleSessionUpdate.
  apply (preserves_bind _ _ _ _ (keeps_getSocketSession now ws)).
  intros [[session alias]|] Hfound; [|apply preserves_skip].
  assert (Hs : hashed_session session) by exact (Hfound session alias eq_refl).
  destruct (negb _); [apply keeps_sendError|].
  apply (preserves_bind _ _ (fun _ => True)); [apply keeps_assignTo, Hs|]. intros _ _.
  apply (preserves_bind _ _ (fun _ => True)); [apply keeps_shareCore|]. intros _ _.
  apply (preserves_bind _ _ (fun updated => hashed_session updated)).
  { destruct timer as [timer|].
    - apply (preserves_bind _ _ (fun _ => True)); [apply keeps_assignTo, Hs|]. intros _ _.
      apply (preserves_bind _ _ (fun _ => True)); [apply keeps_shareCore|]. intros _ _.
      apply preserves_ret. exact Hs.
    - eapply preserves_weaken; [apply keeps_syncTimer; exact Hs|].
      intros synced [H _]. exact H. }
  intros updated Hu.
  apply (preserves_bind _ _ (fun _ => True)); [apply keeps_setSession, Hu|]. intros _ _.
  apply (preserves_bind _ _ _ _ preserves_get). intros m _.
  apply (preserves_bind _ _ (fun _ => True)).
  - apply keeps_broadcastToSession. constructor.
  - intros _ _. apply keeps_broadcastTimerUpdate, Hu.
Qed.

Lemma keeps_handleTimerUpdate (now : Z) (ws : handle) (message : IncomingMessage.t) :
  keeps (handleTimerUpdate now ws message) (fun _ => True).
Proof.
  destruct message as [| | timer | | |]; try apply preserves_skip.
  unfold handleTimerUpdate.
  apply (preserves_bind _ _ _ _ (keeps_getSocketSession now ws)).
  intros [[session alias]|] Hfound; [|apply preserves_skip].
  assert (Hs : hashed_session session) by exact (Hfound session alias eq_refl).
  apply (preserves_bind _ _ (fun _ => True)); [apply keeps_assignTo, Hs|]. intros _ _.
  apply (preserves_bind _ _ (fun _ => True)); [apply keeps_shareCore|]. intros _ _.
  apply (preserves_bind _ _ (fun _ => True)); [apply keeps_setSession, Hs|]. intros _ _.
  apply (preserves_bind _ _ _ _ preserves_get). intros m _.
  apply keeps_broadcastTimerUpdate, Hs.
Qed.

Lemma keeps_handleUserUpdate (now : Z) (ws : handle) (message : IncomingMessage.t) :
  keeps (handleUserUpdate now ws message) (fun _ => True).
Proof.
  destruct message as [| | | user | |]; try apply preserves_skip.
  unfold handleUserUpdate.
  apply (preserves_bind _ _ _ _ preserves_get). intros m _.
  destruct (ServerWebSocket.clientId (socket ws m)) as [clientId|];
    [|apply preserves_skip].
  destruct (is_empty clientId); [apply preserves_skip|].
  apply (preserves_bind _ _ _ _ (keeps_getSocketSession now ws)).
  intros [[session alias]|] Hfound; [|apply preserves_skip].
  assert (Hs : hashed_session session) by exact (Hfound session alias eq_refl).
  destruct (slookup clientId (SessionInternal.users session)) as [existing|] eqn:Hl;
    [|apply preserves_skip].
  pose proof (hashed_lookup session clientId existing Hs Hl) as He.
  set (renamed := withProfile (User.name user) (User.avatarUrl user) existing).
  assert (Hr : hashed_user (clientId, renamed)) by exact He.
  assert (Hu : hashed_session
                 (withUsers (sassign clientId renamed (SessionInternal.users session))
                            session))
    by (apply Forall_assign; [exact Hs|exact Hr]).
  apply (preserves_bind _ _ (fun _ => True)); [apply keeps_assignTo, Hu|]. intros _ _.
  apply (preserves_bind _ _ (fun _ => True)); [apply keeps_setSession, Hu|]. intros _ _.
  apply (preserves_bind _ _ _ _ preserves_get). intros m' _.
  apply keeps_broadcastToSession.
  constructor; [|constructor]. exact (hashed_formatUser clientId renamed Hr).
Qed.

Lemma keeps_handleUserList (now : Z) (ws : handle) (message : IncomingMessage.t) :
  keeps (handleUserList now ws message) (fun _ => True).
Proof.
  destruct message; try apply preserves_skip.
  unfold handleUserList.
  apply (preserves_bind _ _ _ _ (keeps_getSocketSession now ws)).
  intros [[session alias]|] Hfound; [|apply preserves_skip].
  apply keeps_sendMessage.
  exact (hashed_formatUserList _ (Hfound session alias eq_refl)).
Qed.

Lemma keeps_handleMessage (now : Z) (ws : handle) (message : RawMessage.t) :
  keeps (handleMessage sha256_hex uuid now ws message) (fun _ => True).
Proof.
  unfold handleMessage. apply preserves_try_catch; [|apply keeps_sendError].
  apply (preserves_bind _ _ (fun _ => True)); [apply preserves_lift; intros; exact I|].
  intros parsed _. unfold handlers.
  repeat match goal with
         | |- context [if ?b then _ else _] => destruct b
         end;
    first [ apply keeps_handleSessionJoin | apply keeps_handleSessionUpdate
          | apply keeps_handleTimerUpdate | apply keeps_handleUserUpdate
          | apply keeps_handleUserList | apply keeps_sendError ].
Qed.

Lemma keeps_handleWebSocketMessage (now : Z) (ws : handle) (data : RawMessage.t) :
  keeps (handleWebSocketMessage sha256_hex uuid now ws data) (fun _ => True).
Proof.
  unfold handleWebSocketMessage.
  destruct (is_empty (RawMessage.type data)); [apply keeps_sendError|].
  destruct data; try apply keeps_handleMessage.
  apply keeps_send. constructor.
Qed.

Lemma keeps_removeClient (now : Z) (ws : handle) :
  keeps (removeClient now ws) (fun _ => True).
Proof.
  unfold removeClient.
  apply (preserves_bind _ _ _ _ preserves_get). intros m _.
  destruct (ServerWebSocket.socketId (socket ws m)) as [socketId|];
    [|apply preserves_skip].
  destruct (ServerWebSocket.sessionId (socket ws m)) as [sessionId|];
    [|apply preserves_skip].
  destruct (ServerWebSocket.clientId (socket ws m)) as [clientId|];
    [|apply preserves_skip].
  destruct (_ || _); [apply preserves_skip|].
  apply (preserves_bind _ _ _ _ (keeps_getSession _)).
  intros [session|] Hfound; [|apply preserves_skip].
  destruct (slookup clientId (SessionInternal.users session)) as [user|] eqn:Hl;
    [|apply preserves_skip].
  destruct (hashed_lookup session clientId user (Hfound session eq_refl) Hl)
    as [_ [_ Hn]].
  cbn [snd] in Hn. rewrite Hn. apply preserves_throw.
Qed.

Lemma keeps_handleWebSocketClose (now : Z) (ws : handle) :
  keeps (handleWebSocketClose now ws) (fun _ => True).
Proof.
  unfold handleWebSocketClose.
  apply (preserves_bind _ _ _ _ (keeps_setSocket _ _)). intros _ _.
  apply keeps_removeClient.
Qed.

Lemma keeps_cleanupSessions (now : Z) : keeps (cleanupSessions now) (fun _ => True).
Proof.
  unfold cleanupSessions.
  apply (preserves_bind _ _ _ _ preserves_get). intros m _.
  apply preserves_forEach. intros [sessionId session] _.
  apply (preserves_bind _ _ (fun _ => True)); [apply preserves_lift; intros; exact I|].
  intros online _.
  destruct (_ && _); [|apply preserves_skip].
  apply keeps_setSessions. intros stored. apply Forall_remove.
Qed.

(** Under the invariant, [trackOfflineUsers] throws at the first user it
    meets: it returns only when no session has a user, and then it has
    changed nothing. *)
Lemma trackUsers_hashed (m : t) (now : Z) (users : list (string * UserInternal.t)) :
  Forall hashed_user users ->
  snd (trackUsers m now users) = users /\
  (fst (trackUsers m now users) = Ret tt -> users = []).
Proof.
  intros Hu. destruct Hu as [|[clientId user] users [_ [_ Hn]] _].
  - split; reflexivity.
  - cbn [trackUsers]. unfold userOnline. cbn [snd] in Hn. rewrite Hn.
    split; [reflexivity|]. intros E. discriminate E.
Qed.

Lemma trackSessions_hashed (m : t) (now : Z)
      (stored : list (string * SessionInternal.t)) :
  Forall (fun entry : string * SessionInternal.t => hashed_session (snd entry)) stored ->
  Forall (fun entry : string * SessionInternal.t => hashed_session (snd entry))
         (snd (trackSessions m now stored)) /\
  (fst (trackSessions m now stored) = Ret tt ->
   Forall (fun entry : string * SessionInternal.t =>
             SessionInternal.users (snd entry) = [])
          (snd (trackSessions m now stored))).
Proof.
  induction 1 as [|[sessionId session] stored Hs Hst IH].
  - split; [constructor|]. intros _. constructor.
  - cbn [trackSessions].
    destruct (trackUsers_hashed m now (SessionInternal.users session) Hs) as [Eu Hnil].
    destruct (trackUsers m now (SessionInternal.users session)) as [done users].
    cbn [fst snd] in Eu, Hnil. subst users.
    destruct done as [[]| |].
    + destruct IH as [IH1 IH2].
      destruct (trackSessions m now stored) as [done' rest]. cbn [fst snd] in *.
      split.
      * constructor; [exact Hs|exact IH1].
      * intros E. constructor; [exact (Hnil eq_refl)|exact (IH2 E)].
    + cbn [fst snd]. split; [constructor; [exact Hs|exact Hst]|].
      intros E. discriminate E.
    + cbn [fst snd]. split; [constructor; [exact Hs|exact Hst]|].
      intros E. discriminate E.
Qed.

Lemma keeps_cleanupOfflineUsers (now : Z) :
  keeps (cleanupOfflineUsers now) (fun _ => True).
Proof.
  intros m [Hs Hf]. split; [|intros; exact I].
  unfold cleanupOfflineUsers, bind at 1, trackOfflineUsers.
  destruct (trackSessions_hashed m now (sessions m) Hs) as [Hh Hnil].
  destruct (trackSessions m now (sessions m)) as [done stored]. cbn [fst snd] in *.
  set (m1 := {| sessions := stored; connections := connections m;
                sent := sent m; uuids := uuids m |}).
  assert (Hm1 : hashed m1) by (split; [exact Hh|exact Hf]).
  destruct done as [[]| |]; [|exact Hm1|exact Hm1].
  specialize (Hnil eq_refl).
  unfold bind at 1, get. cbv beta iota.
  change (sessions m1) with stored.
  match goal with
  | |- context [forEach stored ?body] =>
      assert (K : keeps (forEach stored body) (fun _ => True))
  end.
  { apply preserves_forEach. intros [sessionId session] Hin.
    rewrite Forall_forall in Hnil. pose proof (Hnil _ Hin) as Hno. cbn [snd] in Hno.
    cbv zeta. rewrite Hno. cbn [filter map forEach].
    apply (preserves_bind _ _ (fun _ => True)); [apply preserves_skip|]. intros _ _.
    apply keeps_updateStored. intros s H.
    destruct (_ && _); exact H. }
  exact (proj1 (K m1 Hm1)).
Qed.

Lemma keeps_cleanupTick (now : Z) : keeps (cleanupTick now) (fun _ => True).
Proof.
  unfold cleanupTick.
  apply (preserves_bind _ _ _ _ (keeps_cleanupSessions now)). intros _ _.
  apply keeps_cleanupOfflineUsers.
Qed.

Lemma keeps_deliver (e : event) : keeps (deliver sha256_hex uuid e) (fun _ => True).
Proof.
  destruct e as [ws|now ws data|now ws|now]; cbn [deliver].
  - apply keeps_setSocket.
  - apply keeps_handleWebSocketMessage.
  - apply keeps_handleWebSocketClose.
  - apply keeps_cleanupTick.
Qed.

Lemma hashed_empty : hashed empty.
Proof. split; constructor. Qed.

Lemma hashed_run (history : list event) : hashed (run sha256_hex uuid history).
Proof.
  unfold run.
  assert (G : forall m, hashed m ->
                        hashed (fold_left (fun m e => snd (deliver sha256_hex uuid e m))
                                          history m)).
  { induction history as [|e history IH]; intros m Hm; [exact Hm|].
    cbn [fold_left]. apply IH. apply (keeps_deliver e m Hm). }
  apply G, hashed_empty.
Qed.

End Hashed.



End SessionManagerFacts.

(** * Laws of the code *)

(** ** The timer core *)

Module TimerCoreLaws.
Import TimerCore TimerCoreSpec TimerCoreFacts TimerCoreLawsSpec.

(** *** start() and next() *)

(** X1.  [start()] on a timer that [start()] has just been called on
    changes nothing, whatever the clock reads at the second call: the
    running timer keeps the baseline of the first call. *)
Theorem start_idempotent (now now' : Z) (tc : t) :
  start now' (start now tc) = start now tc.
Proof.
  destruct tc as [ivs [rep i r run paused si sa pa tp]].
  unfold start, resume. cbn [state S.isPaused S.isRunning].
  destruct paused, run; reflexivity.
Qed.

Lemma next_interval (now : Z) (tc : t) :
  0 <= S.interval (state tc) < len (intervals tc) ->
  S.interval (state (next now tc))
  = (S.interval (state tc) + 1) mod len (intervals tc) /\
  intervals (next now tc) = intervals tc.
Proof.
  intros Hi. unfold next. cbn [intervals state].
  split; [|reflexivity].
  assert (Hv : (if S.interval (state tc) + 1 >=? len (intervals tc)
                then 0 else S.interval (state tc) + 1)
               = (S.interval (state tc) + 1) mod len (intervals tc)).
  { rewrite Z.geb_leb.
    destruct (Z.leb_spec (len (intervals tc)) (S.interval (state tc) + 1)).
    - replace (S.interval (state tc) + 1) with (len (intervals tc)) by lia.
      rewrite Z.mod_same by lia. reflexivity.
    - rewrite Z.mod_small by lia. reflexivity. }
  destruct (S.isRunning (state tc)); cbn [S.interval]; exact Hv.
Qed.

Lemma nexts_interval (times : list Z) :
  forall tc,
    0 <= S.interval (state tc) < len (intervals tc) ->
    S.interval (state (nexts times tc))
    = (S.interval (state tc) + len times) mod len (intervals tc) /\
    intervals (nexts times tc) = intervals tc.
Proof.
  induction times as [|now times IH]; intros tc Hi.
  - simpl. unfold len at 1. simpl. rewrite Z.add_0_r, Z.mod_small by lia.
    split; reflexivity.
  - cbn [nexts fold_left]. fold (nexts times (next now tc)).
    destruct (next_interval now tc Hi) as [Hn Hl].
    assert (Hr : 0 <= S.interval (state (next now tc)) < len (intervals (next now tc))).
    { rewrite Hn, Hl. apply Z.mod_pos_bound. lia. }
    destruct (IH (next now tc) Hr) as [Hk Hl'].
    rewrite Hk, Hl', Hn, Hl. split; [|reflexivity].
    rewrite Zplus_mod_idemp_l. f_equal. unfold len. simpl List.length. lia.
Qed.

Lemma next_remaining (now : Z) (tc : t) :
  S.remaining (state (next now tc))
  = duration_ms_or_default (intervals (next now tc)) (S.interval (state (next now tc))).
Proof.
  unfold next. cbn [intervals state]. destruct (S.isRunning (state tc)); reflexivity.
Qed.

Lemma nexts_remaining (times : list Z) :
  forall tc,
    S.remaining (state tc)
    = duration_ms_or_default (intervals tc) (S.interval (state tc)) ->
    S.remaining (state (nexts times tc))
    = duration_ms_or_default (intervals (nexts times tc))
                             (S.interval (state (nexts times tc))).
Proof.
  induction times as [|now times IH]; intros tc H; [exact H|].
  cbn [nexts fold_left]. apply IH, next_remaining.
Qed.

(** X2.  With the index inside the list, as many calls of [next()] as
    there are intervals bring the timer back to the interval it was on,
    with that interval's full duration remaining, whenever the calls are
    made. *)
Theorem next_cycles (times : list Z) (tc : t) :
  0 <= S.interval (state tc) < len (intervals tc) ->
  List.length times = List.length (intervals tc) ->
  S.interval (state (nexts times tc)) = S.interval (state tc) /\
  S.remaining (state (nexts times tc))
  = duration_ms_or_default (intervals tc) (S.interval (state tc)).
Proof.
  intros Hi Hl.
  destruct (nexts_interval times tc Hi) as [Hk Hivs].
  assert (Hback : S.interval (state (nexts times tc)) = S.interval (state tc)).
  { rewrite Hk. unfold len at 1. rewrite Hl. fold (len (intervals tc)).
    rewrite <- (Z.mul_1_l (len (intervals tc))) at 1.
    rewrite Z.mod_add by lia. apply Z.mod_small. exact Hi. }
  split; [exact Hback|].
  destruct times as [|now times].
  - exfalso. unfold len in Hi. simpl in Hl. lia.
  - cbn [nexts fold_left]. fold (nexts times (next now tc)).
    rewrite (nexts_remaining times (next now tc) (next_remaining now tc)).
    change (nexts times (next now tc)) with (nexts (now :: times) tc).
    rewrite Hivs, Hback. reflexivity.
Qed.

Lemma next_cycles_witness :
  0 <= S.interval (state (new three_intervals)) < len three_intervals /\
  S.interval (state (nexts [1000; 2000; 3000] (new three_intervals))) = 0.
Proof.
  assert (Hi : 0 <= S.interval (state (new three_intervals))
               < len (intervals (new three_intervals)))
    by (vm_compute; split; [discriminate|reflexivity]).
  split; [exact Hi|].
  apply (next_cycles [1000; 2000; 3000] (new three_intervals) Hi).
  reflexivity.
Defined.

(** *** Reading a running timer *)

(** X3.  A [sync()] that leaves the timer running does not move its
    baseline: reading the clock again later gives the same result from the
    synced timer as from the timer before the sync. *)
Theorem sync_keeps_baseline (fuel : nat) (now : Z) (tc tc1 : t) :
  sync_fuel fuel now tc = Ret tc1 ->
  S.isRunning (state tc1) = true ->
  forall now', sync now' tc1 = sync now' tc.
Proof.
  intros Hs Hrun now'.
  destruct tc as [ivs timer]. unfold sync_fuel in Hs. cbn [state intervals] in Hs.
  destruct (negb (S.isRunning timer) || (S.startedAt timer =? 0)) eqn:Eearly.
  { inversion Hs; reflexivity. }
  destruct (len ivs =? 0) eqn:Elen.
  { inversion Hs; reflexivity. }
  destruct (sync_loop fuel ivs (S.repeat timer) _ _) as [[[c rem]|]| |];
    cbn [obind] in Hs; try discriminate.
  - destruct (item ivs c) as [iv|]; [|discriminate].
    inversion Hs; subst tc1; clear Hs.
    unfold sync, budget, sync_fuel, elapsed. cbn [state intervals S.isRunning S.startedAt
      S.isPaused S.pausedAt S.timePaused S.startedInterval S.repeat].
    rewrite Eearly, Elen. reflexivity.
  - destruct (item ivs 0) as [first|]; [|discriminate].
    inversion Hs; subst tc1. simpl in Hrun. discriminate.
Qed.

Lemma sync_keeps_baseline_witness :
  exists tc1,
    sync_fuel 20 1010000 (start 1000000 (new three_intervals)) = Ret tc1 /\
    S.isRunning (state tc1) = true /\
    sync 1030000 tc1 = sync 1030000 (start 1000000 (new three_intervals)).
Proof.
  eexists. split; [reflexivity|]. split; [reflexivity|].
  apply (sync_keeps_baseline 20 1010000 (start 1000000 (new three_intervals)));
    reflexivity.
Defined.

(** X4.  While the timer is paused (with a pause instant recorded),
    [sync()] gives the same result at every reading of the clock. *)
Theorem paused_reading_is_frozen (now now' : Z) (tc : t) :
  S.isPaused (state tc) = true ->
  0 < S.pausedAt (state tc) ->
  sync now' tc = sync now tc.
Proof.
  intros Hp Hat.
  assert (He : elapsed now' (state tc) = elapsed now (state tc)).
  { unfold elapsed. rewrite Hp. cbn [andb]. rewrite Z.gtb_ltb.
    destruct (Z.ltb_spec 0 (S.pausedAt (state tc))); lia. }
  unfold sync, budget, sync_fuel. rewrite He. reflexivity.
Qed.

Lemma paused_reading_is_frozen_witness :
  S.isPaused (state (pause 1005000 (start 1000000 (new three_intervals)))) = true /\
  0 < S.pausedAt (state (pause 1005000 (start 1000000 (new three_intervals)))) /\
  sync 1999000 (pause 1005000 (start 1000000 (new three_intervals)))
  = sync 1005000 (pause 1005000 (start 1000000 (new three_intervals))).
Proof.
  split; [reflexivity|]. split; [reflexivity|].
  apply paused_reading_is_frozen; reflexivity.
Defined.

Lemma sync_loop_agree (f1 f2 : nat) ivs rep cur e r1 r2 :
  sync_loop f1 ivs rep cur e = Ret r1 ->
  sync_loop f2 ivs rep cur e = Ret r2 -> r1 = r2.
Proof.
  intros H1 H2.
  pose proof (sync_loop_fuel_mono _ _ _ _ _ _ H1 (Nat.max f1 f2) (Nat.le_max_l _ _)) as H1'.
  pose proof (sync_loop_fuel_mono _ _ _ _ _ _ H2 (Nat.max f1 f2) (Nat.le_max_r _ _)) as H2'.
  congruence.
Qed.

Lemma sync_loop_exit (fuel : nat) :
  forall ivs rep cur e c rem,
    0 <= cur < len ivs ->
    sync_loop fuel ivs rep cur e = Ret (Some (c, rem)) ->
    0 <= c < len ivs /\ (0 <= e -> 0 <= rem).
Proof.
  induction fuel as [|fuel IH]; intros ivs rep cur e c rem Hc H; simpl in H;
    rewrite Z.gtb_ltb in H; destruct (Z.ltb_spec 0 e) as [Hpos|Hneg];
    try discriminate; try (inversion H; subst; split; [exact Hc|lia]).
  destruct (item ivs cur) as [iv|]; [|discriminate].
  destruct (Z.ltb_spec e (Interval.duration iv * 1000)).
  { inversion H; subst. split; [exact Hc|lia]. }
  rewrite !Z.geb_leb in H.
  match type of H with
  | (if ?b then _ else _) = _ => destruct b eqn:Estop; [discriminate|]
  end.
  apply IH in H.
  - destruct H as [Hr Hn]. split; [exact Hr|]. intros _. apply Hn. lia.
  - destruct rep; cbn [andb negb] in *; rewrite ?andb_true_r, ?andb_false_r in *.
    + destruct (Z.leb_spec (len ivs) (cur + 1)); lia.
    + destruct (Z.leb_spec (len ivs) (cur + 1)); [discriminate|lia].
Qed.

Lemma sync_loop_shift (fuel : nat) :
  forall ivs rep cur e c rem iv delta,
    sync_loop fuel ivs rep cur e = Ret (Some (c, rem)) ->
    item ivs c = Some iv ->
    0 <= delta ->
    rem + delta < Interval.duration iv * 1000 ->
    sync_loop (Datatypes.S fuel) ivs rep cur (e + delta) = Ret (Some (c, rem + delta)).
Proof.
  induction fuel as [|fuel IH]; intros ivs rep cur e c rem iv delta H Hiv Hd Hlt.
  - simpl in H. rewrite Z.gtb_ltb in H.
    destruct (Z.ltb_spec 0 e); [discriminate|]. inversion H; subst c rem.
    simpl. rewrite Hiv, Z.gtb_ltb.
    destruct (Z.ltb_spec 0 (e + delta)); [|reflexivity].
    destruct (Z.ltb_spec (e + delta) (Interval.duration iv * 1000)); [reflexivity|lia].
  - cbn [sync_loop] in H. rewrite Z.gtb_ltb in H.
    destruct (Z.ltb_spec 0 e) as [Hpos|Hneg].
    + destruct (item ivs cur) as [iv0|] eqn:Eiv0; [|discriminate].
      destruct (Z.ltb_spec e (Interval.duration iv0 * 1000)) as [Hin|Hover].
      * inversion H; subst c rem. rewrite Hiv in Eiv0. inversion Eiv0; subst iv0.
        cbn [sync_loop]. rewrite Hiv, Z.gtb_ltb.
        destruct (Z.ltb_spec 0 (e + delta)); [|lia].
        destruct (Z.ltb_spec (e + delta) (Interval.duration iv * 1000)); [reflexivity|lia].
      * match type of H with
        | (if ?b then _ else _) = _ => destruct b eqn:Estop; [discriminate|]
        end.
        remember (Datatypes.S fuel) as fuel1.
        cbn [sync_loop]. rewrite Eiv0, Z.gtb_ltb.
        destruct (Z.ltb_spec 0 (e + delta)); [|lia].
        destruct (Z.ltb_spec (e + delta) (Interval.duration iv0 * 1000)); [lia|].
        rewrite Estop. subst fuel1.
        replace (e + delta - Interval.duration iv0 * 1000)
          with (e - Interval.duration iv0 * 1000 + delta) by lia.
        eapply IH; eassumption.
    + inversion H; subst c rem.
      cbn [sync_loop]. rewrite Hiv, Z.gtb_ltb.
      destruct (Z.ltb_spec 0 (e + delta)); [|reflexivity].
      destruct (Z.ltb_spec (e + delta) (Interval.duration iv * 1000)); [reflexivity|lia].
Qed.

(** The part of [sync()] after its early returns. *)
Lemma sync_running (now : Z) (ivs : list Interval.t) (timer : S.t) :
  S.isRunning timer = true -> S.startedAt timer <> 0 -> ivs <> [] ->
  sync now {| intervals := ivs; state := timer |}
  = obind (sync_loop (budget now timer) ivs (S.repeat timer)
                     (if S.startedInterval timer >=? len ivs
                      then 0 else S.startedInterval timer)
                     (elapsed now timer))
      (fun r =>
         match r with
         | None =>
             match item ivs 0 with
             | None => Throw
             | Some first =>
                 Ret {| intervals := ivs;
                        state := stopped (Interval.duration first * 1000) timer |}
             end
         | Some (current, remaining) =>
             match item ivs current with
             | None => Throw
             | Some iv =>
                 Ret {| intervals := ivs;
                        state :=
                          {| S.repeat := S.repeat timer;
                             S.interval := current;
                             S.remaining := Interval.duration iv * 1000 - remaining;
                             S.isRunning := S.isRunning timer;
                             S.isPaused := S.isPaused timer;
                             S.startedInterval := S.startedInterval timer;
                             S.startedAt := S.startedAt timer;
                             S.pausedAt := S.pausedAt timer;
                             S.timePaused := S.timePaused timer |} |}
             end
         end).
Proof.
  intros Hrun Hat Hne. unfold sync, sync_fuel. cbn [state intervals].
  rewrite Hrun. cbn [negb orb].
  destruct (Z.eqb_spec (S.startedAt timer) 0); [contradiction|].
  destruct (Z.eqb_spec (len ivs) 0) as [Hl|Hl]; [|reflexivity].
  destruct ivs; [contradiction|]. unfold len in Hl. simpl in Hl. lia.
Qed.

Lemma nonempty_len (ivs : list Interval.t) : ivs <> [] -> len ivs <> 0.
Proof. destruct ivs; [contradiction|]. unfold len. simpl. lia. Qed.

(** X5.  A running timer that is not paused, with a baseline that was set
    ([startedAt <> 0]), a start index that is not negative and a list of
    valid intervals that is not empty, counts down in real time: if
    [sync()] at [now] leaves it running with [remaining] milliseconds, then
    [delta] milliseconds later, with [delta < remaining], [sync()] finds it
    in the same interval with [remaining - delta] left. *)
Theorem sync_counts_down (now delta : Z) (tc tc1 : t) :
  valid_durations (intervals tc) ->
  0 <= S.startedInterval (state tc) ->
  S.isRunning (state tc) = true ->
  S.startedAt (state tc) <> 0 ->
  intervals tc <> [] ->
  S.isPaused (state tc) = false ->
  sync now tc = Ret tc1 ->
  S.isRunning (state tc1) = true ->
  0 <= delta < S.remaining (state tc1) ->
  exists tc2,
    sync (now + delta) tc = Ret tc2 /\
    S.isRunning (state tc2) = true /\
    S.interval (state tc2) = S.interval (state tc1) /\
    S.remaining (state tc2) = S.remaining (state tc1) - delta.
Proof.
  intros Hv Hsi Hrun Hat Hne Hp Hs Hrun1 Hd.
  destruct tc as [ivs timer]. cbn [state intervals] in *.
  assert (He : elapsed (now + delta) timer = elapsed now timer + delta).
  { unfold elapsed. rewrite Hp. cbn [andb]. lia. }
  pose proof (start_index_range ivs _ Hsi (nonempty_len ivs Hne)) as Hc.
  rewrite (sync_running now ivs timer Hrun Hat Hne) in Hs.
  rewrite (sync_running (now + delta) ivs timer Hrun Hat Hne).
  destruct (sync_loop (budget now timer) ivs (S.repeat timer) _ _)
    as [[[c rem]|]| |] eqn:Eloop; cbn [obind] in Hs; try discriminate.
  2:{ destruct (item ivs 0); [|discriminate]. inversion Hs; subst tc1.
      simpl in Hrun1. discriminate. }
  destruct (item ivs c) as [iv|] eqn:Eiv; [|discriminate].
  inversion Hs; subst tc1; clear Hs. cbn [state S.remaining S.interval] in *.
  assert (Hshift := sync_loop_shift _ _ _ _ _ _ _ iv delta Eloop Eiv
                                    (proj1 Hd) ltac:(lia)).
  destruct (sync_loop_total (budget (now + delta) timer) ivs (S.repeat timer) _
              (elapsed (now + delta) timer) Hv Hc (budget_enough _ _))
    as [r [Hr _]].
  rewrite He in Hr.
  rewrite (sync_loop_agree _ _ _ _ _ _ _ _ Hr Hshift) in Hr.
  rewrite He, Hr. cbn [obind]. rewrite Eiv.
  eexists. split; [reflexivity|]. cbn [state S.isRunning S.interval S.remaining].
  repeat split; [exact Hrun|lia].
Qed.

Lemma sync_counts_down_witness :
  exists tc1 tc2,
    sync 1010000 (start 1000000 (new three_intervals)) = Ret tc1 /\
    sync (1010000 + 4000) (start 1000000 (new three_intervals)) = Ret tc2 /\
    S.remaining (state tc2) = S.remaining (state tc1) - 4000.
Proof.
  eexists.
  destruct (sync_counts_down 1010000 4000 (start 1000000 (new three_intervals))
              _ ltac:(repeat constructor; unfold MIN_DURATION; simpl; lia)
              ltac:(simpl; lia) eq_refl ltac:(simpl; lia) ltac:(discriminate)
              eq_refl eq_refl eq_refl ltac:(vm_compute; split; [discriminate|reflexivity]))
    as [tc2 [H2 [_ [_ Hr]]]].
  exists tc2. split; [reflexivity|]. split; [exact H2|exact Hr].
Defined.

(** X6.  On a running timer with valid intervals [sync()] returns, and
    either it has stopped the timer or the timer runs on an interval of the
    list with a positive remaining time, at most that interval's duration
    when the clock has not gone back; in repeat mode it never stops the
    timer. *)
Theorem sync_running_bounds (now : Z) (tc : t) :
  valid_durations (intervals tc) ->
  0 <= S.startedInterval (state tc) ->
  S.isRunning (state tc) = true ->
  S.startedAt (state tc) <> 0 ->
  intervals tc <> [] ->
  exists tc',
    sync now tc = Ret tc' /\
    (tc' = stop tc \/
     (S.isRunning (state tc') = true /\
      0 <= S.interval (state tc') < len (intervals tc) /\
      0 < S.remaining (state tc') /\
      (0 <= elapsed now (state tc) ->
       S.remaining (state tc')
       <= duration_ms_or_default (intervals tc) (S.interval (state tc'))))) /\
    (S.repeat (state tc) = true -> S.isRunning (state tc') = true).
Proof.
  intros Hv Hsi Hrun Hat Hne.
  destruct tc as [ivs timer]. cbn [state intervals] in *.
  pose proof (start_index_range ivs _ Hsi (nonempty_len ivs Hne)) as Hc.
  rewrite (sync_running now ivs timer Hrun Hat Hne).
  destruct (sync_loop_total (budget now timer) ivs (S.repeat timer) _
              (elapsed now timer) Hv Hc (budget_enough _ _))
    as [r [Hr [Hpost _]]].
  rewrite Hr. cbn [obind]. destruct r as [[c rem]|].
  - destruct Hpost as [iv [Hiv Hlt]]. rewrite Hiv.
    destruct (sync_loop_exit _ _ _ _ _ _ _ Hc Hr) as [Hcr Hrem].
    eexists. split; [reflexivity|]. cbn [state S.isRunning S.interval S.remaining].
    split; [|intros _; exact Hrun].
    right. split; [exact Hrun|]. split; [exact Hcr|]. split; [lia|].
    intros He. unfold duration_ms_or_default. rewrite Hiv. specialize (Hrem He). lia.
  - destruct (item_in_range ivs 0) as [first [Hfirst _]].
    { pose proof (nonempty_len ivs Hne). unfold len in *. lia. }
    rewrite Hfirst. eexists. split; [reflexivity|]. split.
    + left. unfold stop, duration_ms_or_default. cbn [intervals state].
      rewrite Hfirst. reflexivity.
    + rewrite Hpost. discriminate.
Qed.

Lemma sync_running_bounds_witness :
  exists tc',
    sync 1047000 (start 1000000 (repeat (Some true) (new three_intervals))) = Ret tc' /\
    S.isRunning (state tc') = true.
Proof.
  destruct (sync_running_bounds 1047000
              (start 1000000 (repeat (Some true) (new three_intervals)))
              ltac:(repeat constructor; unfold MIN_DURATION; simpl; lia)
              ltac:(simpl; lia) eq_refl ltac:(simpl; lia) ltac:(discriminate))
    as [tc' [Hs [_ Hrep]]].
  exists tc'. split; [exact Hs|]. apply Hrep. reflexivity.
Defined.

(** *** updateIntervals() *)

(** X7.  [updateIntervals()] installs the new list, keeps the running,
    paused and repeat flags, moves an index that fell off the list to the
    first interval, and never leaves more remaining than the duration of
    the interval (1500 s when the list is empty). *)
Theorem updateIntervals_fits (now : Z) (items : list Interval.t) (tc : t) :
  let tc' := updateIntervals now items tc in
  intervals tc' = items /\
  S.remaining (state tc')
  <= duration_ms_or_default items (S.interval (state tc')) /\
  S.isRunning (state tc') = S.isRunning (state tc) /\
  S.isPaused (state tc') = S.isPaused (state tc) /\
  S.repeat (state tc') = S.repeat (state tc) /\
  S.interval (state tc')
  = (if len items <=? S.interval (state tc) then 0 else S.interval (state tc)).
Proof.
  destruct tc as [ivs timer]. unfold updateIntervals. cbn [state intervals].
  rewrite Z.geb_leb.
  destruct (Z.leb_spec (len items) (S.interval timer)) as [Hout|Hin].
  - cbn. repeat split; lia.
  - destruct (S.isRunning timer) eqn:Hrun; cbn [intervals state S.remaining S.interval
      S.isRunning S.isPaused S.repeat].
    + rewrite Z.gtb_ltb.
      destruct (Z.ltb_spec (duration_ms_or_default items (S.interval timer))
                           (S.remaining timer));
        repeat split; try lia; try assumption.
    + repeat split; try lia; try assumption.
Qed.

(** X8.  When the current interval survives the new list with room for
    the remaining time, [updateIntervals()] on a running timer keeps
    [remaining] and makes the current interval the start of the baseline,
    with no paused time. *)
Theorem updateIntervals_rebases (now : Z) (items : list Interval.t) (tc : t) :
  S.interval (state tc) < len items ->
  S.isRunning (state tc) = true ->
  S.remaining (state tc) <= duration_ms_or_default items (S.interval (state tc)) ->
  let tc' := updateIntervals now items tc in
  S.startedInterval (state tc') = S.interval (state tc) /\
  S.timePaused (state tc') = 0 /\
  elapsed now (state tc') = now - S.startedAt (state tc) - S.timePaused (state tc) /\
  S.remaining (state tc') = S.remaining (state tc).
Proof.
  intros Hin Hrun Hfit. destruct tc as [ivs timer]. cbn [state intervals] in *.
  unfold updateIntervals. cbn [state intervals]. rewrite Z.geb_leb.
  destruct (Z.leb_spec (len items) (S.interval timer)); [lia|].
  rewrite Hrun, Z.gtb_ltb.
  destruct (Z.ltb_spec (duration_ms_or_default items (S.interval timer))
                       (S.remaining timer)); [lia|].
  cbn [state S.startedInterval S.timePaused S.remaining].
  repeat split. unfold elapsed.
  cbn [S.isPaused S.pausedAt S.startedAt S.timePaused].
  destruct (S.isPaused timer); cbn [andb]; [|lia].
  rewrite Z.gtb_ltb. destruct (Z.ltb_spec 0 now); lia.
Qed.

Lemma updateIntervals_rebases_witness :
  exists tc1,
    sync 1027000 (start 1000000 (new three_intervals)) = Ret tc1 /\
    S.interval (state tc1) = 1 /\
    S.startedInterval (state (updateIntervals 1027000 three_intervals tc1)) = 1 /\
    elapsed 1027000 (state (updateIntervals 1027000 three_intervals tc1)) = 27000.
Proof.
  eexists. split; [reflexivity|]. split; [reflexivity|].
  match goal with
  | |- context [updateIntervals ?n ?i ?c] =>
      destruct (updateIntervals_rebases n i c) as [Hs [_ [He _]]];
        [vm_compute; reflexivity | reflexivity | vm_compute; discriminate |]
  end.
  split; [exact Hs|]. rewrite He. reflexivity.
Defined.

(** *** Repeat mode *)

Lemma span_ms_antitone (ivs : list Interval.t) (k : nat) :
  forall a, valid_durations ivs -> 0 <= a ->
            span_ms ivs (a + Z.of_nat k) <= span_ms ivs a.
Proof.
  induction k as [|k IH]; intros a Hv Ha.
  - rewrite Z.add_0_r. lia.
  - replace (a + Z.of_nat (Datatypes.S k)) with ((a + 1) + Z.of_nat k) by lia.
    specialize (IH (a + 1) Hv ltac:(lia)).
    destruct (Z_lt_le_dec a (len ivs)) as [Hlt|Hge].
    + destruct (item_in_range ivs a ltac:(lia)) as [iv [Hiv _]].
      rewrite (span_ms_step _ _ _ Hiv).
      pose proof (valid_duration_item _ _ _ Hv Hiv). lia.
    + rewrite (span_ms_end ivs a Hge) in *.
      rewrite (span_ms_end ivs (a + 1)) in IH by lia. exact IH.
Qed.

(** [k] turns of the loop in repeat mode, when the elapsed time covers
    them. *)
Lemma sync_loop_advance (k : nat) :
  forall fuel ivs cur x,
    valid_durations ivs ->
    0 <= cur < len ivs ->
    cur + Z.of_nat k <= len ivs ->
    span_ms ivs cur - span_ms ivs (cur + Z.of_nat k) <= x ->
    sync_loop (k + fuel) ivs true cur x
    = sync_loop fuel ivs true
                (if cur + Z.of_nat k >=? len ivs then 0 else cur + Z.of_nat k)
                (x - (span_ms ivs cur - span_ms ivs (cur + Z.of_nat k))).
Proof.
  induction k as [|k IH]; intros fuel ivs cur x Hv Hc Hk Hx.
  - replace (cur + Z.of_nat 0) with cur in * by lia.
    rewrite Z.geb_leb. destruct (Z.leb_spec (len ivs) cur); [lia|].
    cbn [Nat.add]. f_equal. lia.
  - destruct (item_in_range ivs cur Hc) as [iv [Hiv _]].
    pose proof (valid_duration_item _ _ _ Hv Hiv) as Hd.
    pose proof (span_ms_step _ _ _ Hiv) as Hstep.
    pose proof (span_ms_antitone ivs k (cur + 1) Hv ltac:(lia)) as Hanti.
    replace (cur + Z.of_nat (Datatypes.S k)) with (cur + 1 + Z.of_nat k) in * by lia.
    cbn [Nat.add sync_loop]. rewrite Hiv, Z.gtb_ltb.
    destruct (Z.ltb_spec 0 x); [|lia].
    destruct (Z.ltb_spec x (Interval.duration iv * 1000)); [lia|].
    cbn [negb]. rewrite andb_false_r, andb_true_r, Z.geb_leb.
    destruct (Z.leb_spec (len ivs) (cur + 1)) as [Hend|Hmore].
    + assert (k = 0%nat) by lia. subst k. cbn [Nat.add].
      replace (cur + 1 + Z.of_nat 0) with (cur + 1) in * by lia.
      rewrite Z.geb_leb.
      destruct (Z.leb_spec (len ivs) (cur + 1)); [|lia].
      f_equal. pose proof (span_ms_end ivs (cur + 1) Hend) as Hz. lia.
    + rewrite (IH fuel ivs (cur + 1) (x - Interval.duration iv * 1000)
                  Hv ltac:(lia) Hk ltac:(lia)).
      f_equal. lia.
Qed.

(** One lap of the list in repeat mode. *)
Lemma sync_loop_lap (fuel : nat) (ivs : list Interval.t) (cur e : Z) :
  valid_durations ivs ->
  0 <= cur < len ivs ->
  0 <= e ->
  sync_loop (List.length ivs + fuel) ivs true cur (e + span_ms ivs 0)
  = sync_loop fuel ivs true cur e.
Proof.
  intros Hv Hc He.
  pose proof (span_ms_antitone ivs (Z.to_nat cur) 0 Hv ltac:(lia)) as Hanti.
  rewrite Z.add_0_l, Z2Nat.id in Hanti by lia.
  pose proof (span_ms_nonneg ivs cur Hv) as Hnn.
  pose proof (span_ms_end ivs (len ivs) ltac:(lia)) as Hend.
  assert (Hto : cur + Z.of_nat (Z.to_nat (len ivs - cur)) = len ivs)
    by (rewrite Z2Nat.id; lia).
  assert (Hback : 0 + Z.of_nat (Z.to_nat cur) = cur)
    by (rewrite Z2Nat.id; lia).
  replace (List.length ivs + fuel)%nat
    with (Z.to_nat (len ivs - cur) + (Z.to_nat cur + fuel))%nat
    by (unfold len in *; lia).
  rewrite (sync_loop_advance (Z.to_nat (len ivs - cur)) (Z.to_nat cur + fuel)
             ivs cur (e + span_ms ivs 0) Hv Hc)
    by (rewrite Hto; lia).
  rewrite Hto, Hend, Z.geb_leb.
  destruct (Z.leb_spec (len ivs) (len ivs)); [|lia].
  rewrite (sync_loop_advance (Z.to_nat cur) fuel ivs 0
             (e + span_ms ivs 0 - (span_ms ivs cur - 0)) Hv)
    by (rewrite ?Hback; lia).
  rewrite Hback, Z.geb_leb.
  destruct (Z.leb_spec (len ivs) cur); [lia|].
  f_equal. lia.
Qed.

(** X9.  In repeat mode a running timer is periodic: after one more
    total duration of the list, [sync()] gives the same result. *)
Theorem repeat_reading_is_periodic (now : Z) (tc : t) :
  valid_durations (intervals tc) ->
  0 <= S.startedInterval (state tc) ->
  S.isRunning (state tc) = true ->
  S.startedAt (state tc) <> 0 ->
  intervals tc <> [] ->
  S.isPaused (state tc) = false ->
  S.repeat (state tc) = true ->
  0 <= elapsed now (state tc) ->
  sync (now + span_ms (intervals tc) 0) tc = sync now tc.
Proof.
  intros Hv Hsi Hrun Hat Hne Hp Hrep He.
  destruct tc as [ivs timer]. cbn [state intervals] in *.
  set (T := span_ms ivs 0).
  assert (HeT : elapsed (now + T) timer = elapsed now timer + T).
  { unfold elapsed. rewrite Hp. cbn [andb]. lia. }
  pose proof (start_index_range ivs _ Hsi (nonempty_len ivs Hne)) as Hc.
  rewrite (sync_running now ivs timer Hrun Hat Hne).
  rewrite (sync_running (now + T) ivs timer Hrun Hat Hne).
  rewrite Hrep in *.
  destruct (sync_loop_total (budget now timer) ivs true _
              (elapsed now timer) Hv Hc (budget_enough _ _)) as [r [Hr _]].
  destruct (sync_loop_total (budget (now + T) timer) ivs true _
              (elapsed (now + T) timer) Hv Hc (budget_enough _ _)) as [r' [Hr' _]].
  rewrite Hr, Hr'. rewrite HeT in Hr'.
  pose proof (sync_loop_lap (budget now timer) ivs _ _ Hv Hc He) as Hlap.
  fold T in Hlap. rewrite Hr in Hlap.
  rewrite (sync_loop_agree _ _ _ _ _ _ _ _ Hr' Hlap). reflexivity.
Qed.

Lemma repeat_reading_is_periodic_witness :
  sync (1002000 + span_ms three_intervals 0)
       (start 1000000 (repeat (Some true) (new three_intervals)))
  = sync 1002000 (start 1000000 (repeat (Some true) (new three_intervals))).
Proof.
  apply (repeat_reading_is_periodic 1002000
           (start 1000000 (repeat (Some true) (new three_intervals))));
    try reflexivity; try discriminate;
    repeat constructor; unfold MIN_DURATION; simpl; lia.
Defined.

End TimerCoreLaws.

(** ** The codec *)

Module CodecLaws.
Import CodecSpec CodecFacts CodecLawsSpec AssocFacts.
Local Open Scope string_scope.

(** *** Intervals *)

Lemma length_truncate (n : nat) (s : string) :
  (String.length (truncate n s) <= n)%nat.
Proof.
  unfold truncate. revert s. induction n as [|n IH]; intros s.
  - destruct s; simpl; lia.
  - destruct s as [|c s]; simpl; [lia|]. specialize (IH s). lia.
Qed.

Lemma length_clean (limit : nat) (value : option string) :
  (String.length (clean limit value) <= limit)%nat.
Proof. apply length_truncate. Qed.

Lemma formatInterval_in_bounds (interval : option RawInterval.t) :
  interval_in_bounds (formatInterval interval).
Proof.
  unfold interval_in_bounds, formatInterval.
  cbn [Interval.duration Interval.name Interval.alert Interval.customCSS].
  split; [unfold MIN_DURATION, MAX_DURATION; lia|].
  split; [apply length_clean|].
  assert (Ha : forall value,
             (String.length (str_or "Default" (Some (clean MAX_NAME_LENGTH value)))
              <= MAX_NAME_LENGTH)%nat /\
             str_or "Default" (Some (clean MAX_NAME_LENGTH value)) <> "").
  { intros value. pose proof (length_clean MAX_NAME_LENGTH value) as Hl.
    destruct (clean MAX_NAME_LENGTH value) as [|c s]; cbn [str_or is_empty].
    - split; [unfold MAX_NAME_LENGTH; simpl; lia|discriminate].
    - split; [exact Hl|discriminate]. }
  split; [apply Ha|]. split; [apply Ha|]. apply trim_idem.
Qed.

Lemma number_or_nan (fallback : Z) (value : option JsValue.t) :
  number_or fallback value = NaN <-> CodecSpec.numeric value = false.
Proof.
  unfold number_or, CodecSpec.numeric. destruct value as [v|]; [|split; discriminate].
  destruct (JsValue.truthy v); [|split; discriminate].
  destruct (JsValue.toNumber v); split; intros H; try discriminate H; reflexivity.
Qed.

Lemma formatInterval_formatted (element : option Json.RawInterval.t) :
  formatted_interval (Json.formatInterval element) /\
  (Json.Interval.duration (Json.formatInterval element) = NaN
   <-> CodecSpec.numeric (duration_of element) = false).
Proof.
  unfold formatted_interval, Json.formatInterval.
  cbn [Json.Interval.duration Json.Interval.name Json.Interval.alert
       Json.Interval.customCSS].
  fold (duration_of element).
  assert (Ha : forall value,
             (String.length (str_or "Default" (Some (clean MAX_NAME_LENGTH value)))
              <= MAX_NAME_LENGTH)%nat /\
             str_or "Default" (Some (clean MAX_NAME_LENGTH value)) <> "").
  { intros value. pose proof (length_clean MAX_NAME_LENGTH value) as Hl.
    destruct (clean MAX_NAME_LENGTH value) as [|c s]; cbn [str_or is_empty].
    - split; [unfold MAX_NAME_LENGTH; simpl; lia|discriminate].
    - split; [exact Hl|discriminate]. }
  pose proof (number_or_nan DEFAULT_DURATION (duration_of element)) as Hn.
  destruct (number_or DEFAULT_DURATION (duration_of element)) as [d|];
    cbn [Math_min Math_max].
  - split.
    + split; [unfold MIN_DURATION, MAX_DURATION; lia|].
      split; [apply length_clean|]. split; [apply Ha|]. split; [apply Ha|].
      apply trim_idem.
    + split; [discriminate|]. intros H. apply Hn in H. discriminate H.
  - split.
    + split; [exact I|].
      split; [apply length_clean|]. split; [apply Ha|]. split; [apply Ha|].
      apply trim_idem.
    + split; [intros _; apply Hn; reflexivity|reflexivity].
Qed.

(** X10.  [formatIntervalList], on a frame of any shape, keeps every
    element of an array (and gives the empty list for anything else).
    Each interval it returns has a name and an alert of at most
    [MAX_NAME_LENGTH] characters, an alert that is not empty, a trimmed
    style sheet and a duration that is either a number from
    [MIN_DURATION] to [MAX_DURATION] or [NaN]; it is [NaN] exactly when
    the duration of the element is a truthy value that [Number(...)]
    converts to [NaN].  When no element is such, the list is a typed one
    that the timer core accepts. *)
Theorem formatIntervalList_bounds (now : Z) (intervals : Json.RawIntervalList.t) :
  let items := Json.IntervalList.items (Json.formatIntervalList now intervals) in
  let elements := elements_of (Json.RawIntervalList.items intervals) in
  List.length items = List.length elements /\
  Forall formatted_interval items /\
  Forall2 (fun element iv =>
             Json.Interval.duration iv = NaN
             <-> CodecSpec.numeric (duration_of element) = false)
          elements items /\
  (forallb (fun element => CodecSpec.numeric (duration_of element)) elements = true ->
   items = map Typed.interval (map narrow items) /\
   Forall interval_in_bounds (map narrow items) /\
   TimerCore.valid_durations (map narrow items)).
Proof.
  cbv zeta. unfold Json.formatIntervalList, elements_of.
  cbn [Json.IntervalList.items].
  destruct (Json.RawIntervalList.items intervals) as [elements|other].
  - split; [apply length_map|]. split; [|split].
    + apply Forall_map, Forall_forall. intros e _. apply formatInterval_formatted.
    + induction elements as [|e elements IH]; cbn [map]; constructor;
        [apply formatInterval_formatted|exact IH].
    + intros Hall.
      assert (G : Forall (fun iv => Typed.interval (narrow iv) = iv /\
                                    interval_in_bounds (narrow iv))
                         (map Json.formatInterval elements)).
      { apply Forall_map, Forall_forall. intros e Hin.
        rewrite forallb_forall in Hall. specialize (Hall e Hin).
        destruct (formatInterval_formatted e) as [[Hd [Hn [Ha [Hne Hc]]]] Hnan].
        unfold narrow, Typed.interval, interval_in_bounds.
        cbn [Interval.name Interval.duration Interval.alert Interval.customCSS].
        destruct (Json.formatInterval e) as [name duration alert css].
        cbn [Json.Interval.name Json.Interval.duration Json.Interval.alert
             Json.Interval.customCSS] in *.
        destruct duration as [d|].
        - split; [reflexivity|]. repeat split; try assumption; apply Hd.
        - destruct Hnan as [Hnan _]. rewrite (Hnan eq_refl) in Hall.
          discriminate Hall. }
      split; [|split].
      * rewrite map_map. symmetry. rewrite <- (map_id (map Json.formatInterval elements)) at 2.
        apply map_ext_in. intros iv Hin.
        rewrite Forall_forall in G. apply (G iv Hin).
      * apply Forall_map. eapply Forall_impl; [|exact G]. intros iv [_ H]. exact H.
      * apply Forall_map. eapply Forall_impl; [|exact G]. intros iv [_ H].
        apply H.
  - cbn [map List.length]. repeat split; constructor.
Qed.

(** *** Identifiers *)

Lemma all_chars_lower (p : ascii -> bool) (s : string) :
  (forall c, p c = true -> lower c = c) ->
  all_chars p s = true -> toLowerCase s = s.
Proof.
  intros Hp. induction s as [|c s IH]; simpl; [reflexivity|].
  intros H. apply andb_prop in H. destruct H as [Hc Hs].
  rewrite (Hp c Hc), (IH Hs). reflexivity.
Qed.

Lemma client_id_regex (s : string) :
  CLIENT_ID_REGEX s = all_chars is_client_char s && (String.length s =? 36)%nat.
Proof. reflexivity. Qed.

Lemma client_char_plain (c : ascii) :
  is_client_char c = true -> lower c = c /\ is_space c = false.
Proof.
  destruct c as [[] [] [] [] [] [] [] []]; vm_compute; intros H;
    first [discriminate H | split; reflexivity].
Qed.

Lemma client_id_fixed (s : string) :
  CLIENT_ID_REGEX s = true -> trim (toLowerCase s) = s.
Proof.
  rewrite client_id_regex. intros H. apply andb_prop in H. destruct H as [H _].
  rewrite (all_chars_lower is_client_char s); [|intros c Hc; apply client_char_plain, Hc|exact H].
  apply (trim_no_space is_client_char); [|exact H].
  intros c Hc. apply client_char_plain, Hc.
Qed.

(** X11.  [formatClientId] returns a client id as it is, and whatever
    the input, it returns either a string that matches [CLIENT_ID_REGEX]
    or the identifier just generated. *)
Theorem formatClientId_sound (fresh : string) (input : option string) (id : string) :
  CLIENT_ID_REGEX id = true ->
  formatClientId fresh (Some id) = id /\
  (formatClientId fresh input = fresh \/
   CLIENT_ID_REGEX (formatClientId fresh input) = true).
Proof.
  intros Hid. split.
  - unfold formatClientId. rewrite str_or_empty, (client_id_fixed id Hid), Hid.
    reflexivity.
  - unfold formatClientId.
    destruct (CLIENT_ID_REGEX (trim (toLowerCase (str_or "" input)))) eqn:E;
      [right; exact E|left; reflexivity].
Qed.

Lemma formatClientId_sound_witness :
  CLIENT_ID_REGEX "aaaaaaaa-aaaa-4aaa-8aaa-aaaaaaaaaaaa" = true /\
  formatClientId "fresh" (Some "aaaaaaaa-aaaa-4aaa-8aaa-aaaaaaaaaaaa")
  = "aaaaaaaa-aaaa-4aaa-8aaa-aaaaaaaaaaaa".
Proof.
  split; [reflexivity|].
  apply (formatClientId_sound "fresh" None "aaaaaaaa-aaaa-4aaa-8aaa-aaaaaaaaaaaa").
  reflexivity.
Defined.

(** X12.  [formatSessionId] returns a valid session id as it is, and
    whatever the input, it returns either a string that matches
    [SESSION_ID_REGEX] or the empty string. *)
Theorem formatSessionId_sound (input : option string) (id : string) :
  SESSION_ID_REGEX id = true ->
  formatSessionId (Some id) = id /\
  (formatSessionId input = "" \/ SESSION_ID_REGEX (formatSessionId input) = true).
Proof.
  intros Hid. split.
  - unfold formatSessionId. rewrite str_or_empty, (session_id_no_space id Hid), Hid.
    reflexivity.
  - unfold formatSessionId.
    destruct (SESSION_ID_REGEX (trim (str_or "" input))) eqn:E;
      [right; exact E|left; reflexivity].
Qed.

Lemma formatSessionId_sound_witness :
  SESSION_ID_REGEX "room-1" = true /\ formatSessionId (Some "room-1") = "room-1".
Proof.
  split; [reflexivity|].
  apply (formatSessionId_sound None "room-1"). reflexivity.
Defined.

(** *** Rosters *)

Lemma formatUser_entry (user : RawUser.t) :
  is_empty (str_or "" (RawUser.clientId user)) = false ->
  roster_entry (str_or "" (RawUser.clientId user), formatUser user).
Proof.
  intros Hk. unfold roster_entry, formatUser.
  cbn [fst snd User.clientId User.name User.avatarUrl].
  split; [reflexivity|]. split.
  - intros H. rewrite H in Hk. discriminate.
  - split; apply length_clean.
Qed.

Lemma roster_fold (users : list (string * RawUser.t)) :
  forall acc : list (string * User.t),
    Forall roster_entry acc -> NoDup (map fst acc) ->
    Forall roster_entry (fold_left roster_step users acc) /\
    NoDup (map fst (fold_left roster_step users acc)) /\
    (List.length (fold_left roster_step users acc)
     <= List.length acc + List.length users)%nat.
Proof.
  induction users as [|[k user] users IH]; intros acc Hall Hnd; cbn [fold_left].
  - repeat split; [exact Hall|exact Hnd|lia].
  - assert (Hstep : Forall roster_entry (roster_step acc (k, user)) /\
                    NoDup (map fst (roster_step acc (k, user))) /\
                    (List.length (roster_step acc (k, user))
                     <= Datatypes.S (List.length acc))%nat).
    { unfold roster_step. cbn [snd].
      destruct (is_empty (str_or "" (RawUser.clientId user))) eqn:Ek.
      - repeat split; [exact Hall|exact Hnd|lia].
      - repeat split; [|apply nodup_assign, Hnd|apply length_assign].
        rewrite Forall_forall in *. intros entry Hin.
        destruct (in_assign _ _ _ _ Hin) as [He|He];
          [subst entry; apply formatUser_entry, Ek|apply Hall, He]. }
    destruct Hstep as [Ha [Hn Hl]].
    destruct (IH _ Ha Hn) as [Ha' [Hn' Hl']].
    repeat split; [exact Ha'|exact Hn'|]. cbn [List.length]. lia.
Qed.

(** X13.  The roster [formatUserList] returns is keyed by the client id
    of each user: no key is empty, no key occurs twice, every display
    field is within its limit, and it has at most as many entries as the
    input. *)
Theorem formatUserList_is_keyed_by_clientId (users : list (string * RawUser.t)) :
  Forall roster_entry (formatUserList users) /\
  NoDup (map fst (formatUserList users)) /\
  (List.length (formatUserList users) <= List.length users)%nat.
Proof.
  change (formatUserList users) with (fold_left roster_step users []).
  destruct (roster_fold users [] (Forall_nil _) (NoDup_nil _)) as [Ha [Hn Hl]].
  repeat split; assumption.
Qed.

(** *** generateUUID() *)

Lemma hex_digit_client_char (v : Z) :
  0 <= v < 16 -> is_client_char (UUID.hex_digit v) = true.
Proof.
  intros H.
  assert (Hv : v = 0 \/ v = 1 \/ v = 2 \/ v = 3 \/ v = 4 \/ v = 5 \/ v = 6 \/ v = 7 \/
               v = 8 \/ v = 9 \/ v = 10 \/ v = 11 \/ v = 12 \/ v = 13 \/ v = 14 \/
               v = 15) by lia.
  repeat (destruct Hv as [Hv|Hv]; [subst v; reflexivity|]). subst v. reflexivity.
Qed.

Lemma variant_nibble (r : Z) : 0 <= r -> 8 <= Z.lor (Z.land r 3) 8 < 12.
Proof.
  intros Hr.
  assert (H3 : 0 <= Z.land r 3 < 4).
  { change 3 with (Z.ones 2). rewrite Z.land_ones by lia.
    apply Z.mod_pos_bound. reflexivity. }
  assert (Hv : Z.land r 3 = 0 \/ Z.land r 3 = 1 \/ Z.land r 3 = 2 \/ Z.land r 3 = 3)
    by lia.
  destruct Hv as [Hv|[Hv|[Hv|Hv]]]; rewrite Hv; vm_compute; split; congruence.
Qed.

(** X14.  Whatever the random source draws, [generateUUID()] returns 36
    characters that match [CLIENT_ID_REGEX], with the version digit [4]
    and a variant digit [8], [9], [a] or [b]; so [formatClientId] with this
    generator returns a client id on every input. *)
Theorem generateUUID_is_a_client_id (random : nat -> Z) (input : option string) :
  (forall n, 0 <= random n < 16) ->
  String.length (UUID.generateUUID random) = 36%nat /\
  CLIENT_ID_REGEX (UUID.generateUUID random) = true /\
  get 14 (UUID.generateUUID random) = Some "4"%char /\
  (exists v, 8 <= v < 12 /\
             get 19 (UUID.generateUUID random) = Some (UUID.hex_digit v)) /\
  CLIENT_ID_REGEX (formatClientId (UUID.generateUUID random) input) = true.
Proof.
  intros Hr.
  assert (Hx : forall n, is_client_char (UUID.hex_digit (random n)) = true)
    by (intros n; apply hex_digit_client_char, Hr).
  assert (Hy : forall n, is_client_char
                           (UUID.hex_digit (Z.lor (Z.land (random n) 3) 8)) = true).
  { intros n. apply hex_digit_client_char.
    pose proof (variant_nibble (random n) (proj1 (Hr n))). lia. }
  assert (Hid : CLIENT_ID_REGEX (UUID.generateUUID random) = true).
  { rewrite client_id_regex. unfold UUID.generateUUID, UUID.template.
    cbn [UUID.replace Ascii.eqb Bool.eqb all_chars String.length].
    rewrite !Hx, !Hy. reflexivity. }
  split; [reflexivity|]. split; [exact Hid|]. split; [reflexivity|]. split.
  - exists (Z.lor (Z.land (random 15%nat) 3) 8).
    split; [apply variant_nibble, Hr|reflexivity].
  - unfold formatClientId.
    destruct (CLIENT_ID_REGEX (trim (toLowerCase (str_or "" input)))) eqn:E;
      [exact E|exact Hid].
Qed.

Lemma generateUUID_is_a_client_id_witness :
  (forall n : nat, 0 <= (fun _ => 11) n < 16) /\
  UUID.generateUUID (fun _ => 11) = "bbbbbbbb-bbbb-4bbb-bbbb-bbbbbbbbbbbb" /\
  CLIENT_ID_REGEX (formatClientId (UUID.generateUUID (fun _ => 11)) (Some "Ada")) = true.
Proof.
  assert (H : forall n : nat, 0 <= (fun _ => 11) n < 16) by (intros n; simpl; lia).
  split; [exact H|]. split; [reflexivity|].
  apply (generateUUID_is_a_client_id (fun _ => 11) (Some "Ada") H).
Defined.

End CodecLaws.

(** ** The session manager *)

Module SessionManagerLaws.
Import SessionManager SessionManagerSpec SessionManagerLawsSpec AssocFacts
       SessionManagerFacts.
Local Open Scope string_scope.
Local Open Scope list_scope.

(** *** Writing frames *)

Lemma with_no_frames (m : t) : with_frames m [] = m.
Proof. unfold with_frames. rewrite app_nil_r. destruct m; reflexivity. Qed.

Lemma with_more_frames (m : t) (f1 f2 : list (handle * OutgoingMessage.t)) :
  with_frames (with_frames m f1) f2 = with_frames m (f1 ++ f2).
Proof. unfold with_frames. cbn [sessions connections sent uuids]. rewrite app_assoc. reflexivity. Qed.

Lemma appends_skip (m : t) : appends skip m [].
Proof. unfold appends, skip, ret. rewrite app_nil_r. destruct m; reflexivity. Qed.

Lemma appends_bind (c1 c2 : M unit) (m : t) f1 f2 :
  appends c1 m f1 ->
  appends c2 {| sessions := sessions m; connections := connections m;
                sent := sent m ++ f1; uuids := uuids m |} f2 ->
  appends (bind c1 (fun _ => c2)) m (f1 ++ f2).
Proof.
  unfold appends, bind. intros H1 H2. rewrite H1, H2. cbn [sessions connections sent uuids].
  rewrite app_assoc. reflexivity.
Qed.


Lemma appends_sendMessage (m : t) (ws : handle) (message : OutgoingMessage.t) :
  appends (sendMessage ws message) m (if isOpen m ws then [(ws, message)] else []).
Proof.
  unfold appends, sendMessage, bind, get, send, modify, skip, ret.
  destruct (isOpen m ws); cbn [negb]; [reflexivity|].
  rewrite app_nil_r. destruct m; reflexivity.
Qed.

Lemma appends_sockets (message : OutgoingMessage.t) (exclude : option string)
      (sockets : SocketMap) :
  forall m m0,
    sessions m = sessions m0 -> connections m = connections m0 ->
    appends
      (forEach sockets
               (fun kv =>
                  bind get
                       (fun m =>
                          if nonempty exclude
                             && same_opt exclude
                                         (ServerWebSocket.socketId (socket (snd kv) m))
                          then skip
                          else sendMessage (snd kv) message)))
      m
      (map (fun ws => (ws, message))
           (filter (fun ws =>
                      negb (nonempty exclude
                            && same_opt exclude
                                        (ServerWebSocket.socketId (socket ws m0)))
                      && isOpen m0 ws)
                   (map snd sockets))).
Proof.
  induction sockets as [|[socketId ws] sockets IH]; intros m m0 Hs Hc.
  - apply appends_skip.
  - cbn [forEach map filter snd].
    assert (Hsock : socket ws m = socket ws m0) by (unfold socket; rewrite Hc; reflexivity).
    assert (Hopen : isOpen m ws = isOpen m0 ws) by (unfold isOpen; rewrite Hsock; reflexivity).
    set (skipped := nonempty exclude
                    && same_opt exclude (ServerWebSocket.socketId (socket ws m0))).
    replace (map (fun ws0 => (ws0, message))
                 (if negb skipped && isOpen m0 ws
                  then ws :: filter _ (map snd sockets)
                  else filter _ (map snd sockets)))
      with ((if negb skipped && isOpen m0 ws then [(ws, message)] else [])
              ++ map (fun ws0 => (ws0, message))
                     (filter (fun ws0 =>
                                negb (nonempty exclude
                                      && same_opt exclude
                                           (ServerWebSocket.socketId (socket ws0 m0)))
                                && isOpen m0 ws0)
                             (map snd sockets)))
      by (destruct (negb skipped && isOpen m0 ws); reflexivity).
    apply appends_bind.
    + unfold appends, bind, get. rewrite Hsock. fold skipped.
      destruct skipped; cbn [negb andb].
      * apply appends_skip.
      * rewrite <- Hopen. apply appends_sendMessage.
    + apply IH; assumption.
Qed.

(** The loop of [broadcastToSession] over the users: it writes to the
    users it gets to, and throws at the first it does not get past. *)
Lemma broadcast_loop (message : OutgoingMessage.t) (exclude ignore : option string)
      (m0 : t) (users : list (string * UserInternal.t)) :
  forall m session,
    sessions m = sessions m0 -> connections m = connections m0 ->
    SessionInternal.users session = users ->
    broadcastToSession session message exclude ignore m
    = ((if forallb (passable ignore) users then Ret tt else Throw),
       with_frames m (map (fun ws => (ws, message))
                          (recipients m0 session exclude ignore))).
Proof.
  unfold broadcastToSession, recipients. intros m session Hs Hc Hu. rewrite Hu.
  clear Hu session. revert m Hs Hc.
  induction users as [|[clientId user] users IH]; intros m Hs Hc.
  - cbn [forEach forallb reached flat_map map]. rewrite with_no_frames. reflexivity.
  - cbn [forEach forallb reached flat_map]. unfold bind at 1.
    destruct (nonempty ignore && same ignore clientId) eqn:Hig.
    + assert (Hp : passable ignore (clientId, user) = true)
        by (unfold passable; cbn [fst]; rewrite Hig; reflexivity).
      rewrite Hp. cbn [flat_map fst andb]. rewrite Hig. cbn [app].
      change (skip m) with (Ret tt, m). cbv beta iota.
      exact (IH m Hs Hc).
    + destruct (UserInternal.sockets user) as [sockets|] eqn:Hsk.
      * assert (Hp : passable ignore (clientId, user) = true)
          by (unfold passable, has_sockets; cbn [fst snd]; rewrite Hig, Hsk;
              reflexivity).
        rewrite Hp. cbn [flat_map fst snd andb]. rewrite Hig.
        unfold sockets_of at 1. rewrite Hsk. rewrite map_app.
        pose proof (appends_sockets message exclude sockets m m0 Hs Hc) as Ha.
        unfold appends in Ha. rewrite Ha. cbv beta iota.
        match goal with
        | |- forEach users _ ?m1 = _ => rewrite (IH m1 Hs Hc)
        end.
        rewrite <- with_more_frames. reflexivity.
      * assert (Hp : passable ignore (clientId, user) = false)
          by (unfold passable, has_sockets; cbn [fst snd]; rewrite Hig, Hsk;
              reflexivity).
        rewrite Hp. cbn [flat_map map andb]. rewrite with_no_frames. reflexivity.
Qed.

(** X15.  [broadcastToSession] goes through the users in the order of
    the object.  It writes the message once to each socket of each user
    that is not ignored, leaving out the excluded socket id and the
    connections that are not open, until it meets a user that is not
    ignored and has no [sockets]: there it throws, and the users from that
    one on are not written to.  It returns when there is no such user.  It
    writes nothing else and changes neither sessions nor connections. *)
Theorem broadcastToSession_delivery
        (session : SessionInternal.t) (message : OutgoingMessage.t)
        (exclude ignore : option string) (m : t) :
  broadcastToSession session message exclude ignore m
  = ((if forallb (passable ignore) (SessionInternal.users session)
      then Ret tt else Throw),
     with_frames m (map (fun ws => (ws, message))
                        (recipients m session exclude ignore))) /\
  Forall (fun ws =>
            isOpen m ws = true /\
            nonempty exclude && same_opt exclude (ServerWebSocket.socketId (socket ws m))
            = false)
         (recipients m session exclude ignore).
Proof.
  split.
  - apply (broadcast_loop message exclude ignore m (SessionInternal.users session)
                          m session); reflexivity.
  - unfold recipients. rewrite Forall_forall. intros ws Hin.
    apply in_flat_map in Hin. destruct Hin as [[clientId user] [_ Hin]].
    cbn [fst snd] in Hin.
    destruct (nonempty ignore && same ignore clientId); [destruct Hin|].
    apply filter_In in Hin. destruct Hin as [_ Hf].
    apply andb_prop in Hf. destruct Hf as [Hex Hopen].
    split; [exact Hopen|]. apply negb_true_iff, Hex.
Qed.

(** *** Frames the manager cannot serve *)

Lemma getSocketSession_unbound (now : Z) (ws : handle) (m : t) :
  bound m ws = None ->
  getSocketSession now ws m
  = (Ret None, with_frames m (error_reply m ws "Session not found")).
Proof.
  unfold bound. intros Hb.
  unfold getSocketSession, getSession, bind, get, ret. rewrite Hb.
  fold (bind (sendError ws "Session not found") (fun _ => ret (A:=option SessionInternal.t) None)).
  unfold bind, sendError.
  pose proof (appends_sendMessage m ws (formatErrorMsg "Session not found")) as Hs.
  unfold appends in Hs. rewrite Hs. unfold ret, with_frames, error_reply.
  destruct (isOpen m ws); reflexivity.
Qed.

(** X16.  A [session_update], [timer_update] or [user_list] frame from
    a connection that is bound to no stored session changes nothing and
    is answered by the one error [Session not found] (if the connection is
    open); a [user_update] frame likewise when the connection has a client
    id, and by nothing at all when it has none. *)
Theorem unjoined_socket_is_told
        (sha256_hex : string -> string) (uuid : nat -> string)
        (now : Z) (ws : handle) (m : t)
        (session : option RawSessionUpdate.t) (timer timer' : option RawTimer.t)
        (user : option RawUser.t) :
  bound m ws = None ->
  let told := (Ret tt, with_frames m (error_reply m ws "Session not found")) in
  handleMessage sha256_hex uuid now ws (RawMessage.session_update session timer) m = told /\
  handleMessage sha256_hex uuid now ws (RawMessage.timer_update timer') m = told /\
  handleMessage sha256_hex uuid now ws RawMessage.user_list m = told /\
  handleMessage sha256_hex uuid now ws (RawMessage.user_update user) m
  = if nonempty (ServerWebSocket.clientId (socket ws m)) then told else (Ret tt, m).
Proof.
  intros Hb. cbv zeta.
  pose proof (getSocketSession_unbound now ws m Hb) as Hg.
  repeat split;
    unfold handleMessage, try_catch, bind, lift;
    cbn [formatIncoming IncomingMessage.type formatSessionUpdateMsg formatTimerUpdateMsg
         formatUserListMsg formatUserUpdateMsg handlers String.eqb Ascii.eqb Bool.eqb];
    unfold handleSessionUpdate, handleTimerUpdate, handleUserList, handleUserUpdate,
      formatSessionUpdateMsg, formatTimerUpdateMsg, formatUserListMsg,
      formatUserUpdateMsg, bind, get;
    try (rewrite Hg; reflexivity).
  unfold nonempty.
  destruct (ServerWebSocket.clientId (socket ws m)) as [clientId|]; [|reflexivity].
  destruct (is_empty clientId); cbn [negb]; [reflexivity|].
  rewrite Hg. reflexivity.
Qed.

Lemma unjoined_socket_is_told_witness :
  bound lobby 0%nat = None /\
  handleMessage (fun s => s) (fun _ => "") 5 0%nat RawMessage.user_list lobby
  = (Ret tt, with_frames lobby [(0%nat, OutgoingMessage.error "Session not found")]).
Proof.
  assert (H : bound lobby 0%nat = None) by reflexivity.
  split; [exact H|].
  destruct (unjoined_socket_is_told (fun s => s) (fun _ => "") 5 0%nat lobby
                                    None None None None H)
    as [_ [_ [Hlist _]]].
  exact Hlist.
Defined.

(** X17.  A frame whose [type] names no message changes nothing and is
    answered by one error (if the connection is open): [Invalid message
    format] when the type is missing or empty, [Failed to process <type>],
    trimmed, otherwise. *)
Theorem frames_of_no_known_type
        (sha256_hex : string -> string) (uuid : nat -> string)
        (now : Z) (ws : handle) (type : string) (m : t) :
  known_type type = false ->
  handleWebSocketMessage sha256_hex uuid now ws (RawMessage.unknown type) m
  = (Ret tt,
     with_frames m
       (if isOpen m ws
        then [(ws, formatErrorMsg (if is_empty type then "Invalid message format"
                                   else "Failed to process " ++ type))]
        else [])).
Proof.
  intros _. unfold handleWebSocketMessage. cbn [RawMessage.type].
  destruct (is_empty type) eqn:Hty.
  - apply (appends_sendMessage m ws (formatErrorMsg "Invalid message format")).
  - unfold handleMessage, try_catch, bind, lift. cbn [formatIncoming RawMessage.type].
    unfold str_or. rewrite Hty.
    apply (appends_sendMessage m ws (formatErrorMsg ("Failed to process " ++ type))).
Qed.

Lemma frames_of_no_known_type_witness :
  known_type "hello" = false /\
  sent (snd (handleWebSocketMessage (fun s => s) (fun _ => "") 5 0%nat
                                    (RawMessage.unknown "hello") lobby))
  = [(0%nat, OutgoingMessage.error "Failed to process hello")].
Proof.
  assert (H : known_type "hello" = false) by reflexivity.
  split; [exact H|].
  rewrite (frames_of_no_known_type (fun s => s) (fun _ => "") 5 0%nat "hello" lobby H).
  reflexivity.
Defined.

(** *** The store *)

(** X18.  After [setSession(id, session)], [getSession(id)] returns the
    formatted copy of the session, and every other id returns what it
    returned before; with an empty id nothing is stored. *)
Theorem setSession_getSession (now : Z) (sessionId : string)
        (session : SessionInternal.t) (m : t) (other : string) :
  fst (getSession (Some other) (snd (setSession now sessionId session m)))
  = if negb (is_empty sessionId) && String.eqb other sessionId
    then Ret (Some (formatInternalSession now (RawSession.of_internal session)))
    else fst (getSession (Some other) m).
Proof.
  unfold setSession, getSession, bind, get, ret.
  destruct (is_empty sessionId); cbn [negb andb]; [reflexivity|].
  unfold setSessions, modify. cbn [fst snd sessions].
  unfold slookup, sassign.
  destruct (String.eqb other sessionId) eqn:Heq.
  - apply String.eqb_eq in Heq. subst other.
    fold (@sassign SessionInternal.t) (@slookup SessionInternal.t).
    rewrite lookup_assign_same. reflexivity.
  - apply String.eqb_neq in Heq.
    fold (@sassign SessionInternal.t) (@slookup SessionInternal.t).
    rewrite lookup_assign_other by congruence. reflexivity.
Qed.


(** *** The periodic cleanup *)

Lemma userOnline_sockets (m : t) (user : UserInternal.t) :
  has_sockets user = true ->
  userOnline m user = Ret (existsb (isOpen m) (sockets_of user)).
Proof.
  unfold has_sockets, userOnline, sockets_of.
  destruct (UserInternal.sockets user) as [sockets|]; [|discriminate].
  intros _. f_equal. induction sockets as [|kv sockets IH]; [reflexivity|].
  cbn [existsb map]. rewrite IH. reflexivity.
Qed.

Lemma userOnline_none (m : t) (user : UserInternal.t) :
  has_sockets user = false -> userOnline m user = Throw.
Proof.
  unfold has_sockets, userOnline.
  destruct (UserInternal.sockets user); [discriminate|reflexivity].
Qed.

Lemma userOnline_frame (m m' : t) (user : UserInternal.t) :
  connections m' = connections m -> userOnline m' user = userOnline m user.
Proof.
  intros Hc. unfold userOnline, isOpen, socket. rewrite Hc. reflexivity.
Qed.

Lemma count_sound (m : t) (users : list (string * UserInternal.t)) :
  forallb (fun kv : string * UserInternal.t => has_sockets (snd kv)) users = true ->
  count (fun kv => userOnline m (snd kv)) users
  = Ret (List.length
           (filter (fun kv : string * UserInternal.t =>
                      existsb (isOpen m) (sockets_of (snd kv)))
                   users)).
Proof.
  induction users as [|kv users IH]; [reflexivity|].
  cbn [forallb count filter]. intros H. apply andb_prop in H. destruct H as [Hk Hu].
  rewrite (userOnline_sockets m (snd kv) Hk). cbn [obind]. rewrite (IH Hu).
  destruct (existsb (isOpen m) (sockets_of (snd kv))); reflexivity.
Qed.

Lemma count_unsound (m : t) (users : list (string * UserInternal.t)) :
  forallb (fun kv : string * UserInternal.t => has_sockets (snd kv)) users = false ->
  count (fun kv => userOnline m (snd kv)) users = Throw.
Proof.
  induction users as [|kv users IH]; [discriminate|].
  cbn [forallb count]. intros H.
  destruct (has_sockets (snd kv)) eqn:Hk.
  - rewrite (userOnline_sockets m (snd kv) Hk). cbn [obind].
    rewrite (IH H). reflexivity.
  - rewrite (userOnline_none m (snd kv) Hk). reflexivity.
Qed.

Lemma none_counted {A} (f : A -> bool) (l : list A) :
  (List.length (filter f l) =? 0)%nat = negb (existsb f l).
Proof.
  induction l as [|x l IH]; [reflexivity|].
  cbn [filter existsb]. destruct (f x); [reflexivity|exact IH].
Qed.

(** One turn of the loop of [cleanupSessions]. *)
Lemma cleanupSessions_turn (now : Z) (m0 m : t) (sessionId : string)
      (session : SessionInternal.t) :
  bind (lift (count (fun kv => userOnline m0 (snd kv))
                    (SessionInternal.users session)))
       (fun online =>
          if (online =? 0)%nat
             && truthy (SessionInternal.emptyAt session)
             && (match SessionInternal.emptyAt session with
                 | Some emptyAt => (now - emptyAt >? SESSION_TIMEOUT)%Z
                 | None => false
                 end)
          then setSessions (sremove sessionId)
          else skip) m
  = if sound session
    then (Ret tt,
          if expired m0 now session
          then with_sessions m (sremove sessionId (sessions m))
          else m)
    else (Throw, m).
Proof.
  unfold bind, lift, sound.
  destruct (forallb _ (SessionInternal.users session)) eqn:Hs.
  - rewrite (count_sound m0 _ Hs). rewrite none_counted.
    unfold expired.
    destruct (SessionInternal.emptyAt session) as [emptyAt|]; cbn [truthy].
    + rewrite Z.gtb_ltb, <- andb_assoc.
      destruct (_ && _); reflexivity.
    + rewrite !andb_false_r. reflexivity.
  - rewrite (count_unsound m0 _ Hs). reflexivity.
Qed.

Lemma with_own_sessions (m : t) : with_sessions m (sessions m) = m.
Proof. destruct m; reflexivity. Qed.

Lemma cleanupSessions_loop (now : Z) (m0 : t)
      (body : string * SessionInternal.t -> M unit) :
  (forall sessionId session m,
      body (sessionId, session) m
      = if sound session
        then (Ret tt,
              if expired m0 now session
              then with_sessions m (sremove sessionId (sessions m))
              else m)
        else (Throw, m)) ->
  forall (rest kept : list (string * SessionInternal.t)) (m : t),
    sessions m = kept ++ rest ->
    NoDup (map fst (kept ++ rest)) ->
    forEach rest body m
    = (match unexamined rest with [] => Ret tt | _ :: _ => Throw end,
       with_sessions m
         (kept ++ filter (fun entry => negb (expired m0 now (snd entry)))
                         (examined rest)
               ++ unexamined rest)).
Proof.
  intros Hbody.
  induction rest as [|[sessionId session] rest IH]; intros kept m Hs Hnd.
  - cbn [forEach filter examined unexamined app]. rewrite <- Hs.
    rewrite with_own_sessions. reflexivity.
  - cbn [forEach examined unexamined snd]. unfold bind. rewrite Hbody.
    destruct (sound session).
    + cbn [filter snd].
      destruct (expired m0 now session); cbn [negb].
      * rewrite Hs, remove_fresh.
        -- rewrite (IH kept (with_sessions m (kept ++ rest))).
           ++ reflexivity.
           ++ reflexivity.
           ++ rewrite map_app in *. cbn [map] in Hnd.
              apply NoDup_remove_1 in Hnd. exact Hnd.
        -- rewrite map_app in Hnd. cbn [map fst] in Hnd.
           apply NoDup_remove_2 in Hnd. intros Hin. apply Hnd.
           apply in_or_app. left. exact Hin.
      * rewrite (IH (kept ++ [(sessionId, session)]) m).
        -- rewrite <- app_assoc. reflexivity.
        -- rewrite <- app_assoc. exact Hs.
        -- rewrite <- app_assoc. exact Hnd.
    + cbn [filter app]. rewrite <- Hs, with_own_sessions. reflexivity.
Qed.

(** X19.  [cleanupSessions()] goes through the sessions in the order of
    the map.  It deletes the ones that have no open connection in the
    [sockets] of their users and an [emptyAt] stamp more than
    [SESSION_TIMEOUT] old, until it meets a session with a user that has
    no [sockets]: there it throws, and the sessions from that one on stay
    as they are.  It returns when there is no such session.  The sessions
    that stay keep their order, and no frame is written. *)
Theorem cleanupSessions_deletes_the_expired (now : Z) (m : t) :
  NoDup (map fst (sessions m)) ->
  cleanupSessions now m
  = (match unexamined (sessions m) with [] => Ret tt | _ :: _ => Throw end,
     with_sessions m
       (filter (fun entry => negb (expired m now (snd entry)))
               (examined (sessions m))
        ++ unexamined (sessions m))).
Proof.
  intros Hnd. unfold cleanupSessions, bind at 1, get.
  apply (cleanupSessions_loop now m _ (fun sessionId session m' =>
                                         cleanupSessions_turn now m m' sessionId session)
                              (sessions m) [] m);
    [reflexivity|exact Hnd].
Qed.

Lemma cleanupSessions_deletes_the_expired_witness :
  NoDup (map fst (sessions solo)) /\
  map fst (sessions solo) = ["room-1"] /\
  cleanupSessions 2000000 solo = (Throw, solo).
Proof.
  assert (H : NoDup (map fst (sessions solo))).
  { vm_compute. constructor; [intros []|constructor]. }
  split; [exact H|]. split; [vm_compute; reflexivity|].
  rewrite (cleanupSessions_deletes_the_expired 2000000 solo H).
  vm_compute. reflexivity.
Defined.

Lemma trackUsers_keys (m : t) (now : Z) (users : list (string * UserInternal.t)) :
  map fst (snd (trackUsers m now users)) = map fst users.
Proof.
  induction users as [|[clientId user] users IH]; [reflexivity|].
  cbn [trackUsers]. destruct (userOnline m user); [|reflexivity|reflexivity].
  destruct (trackUsers m now users) as [done rest]. cbn [snd map fst] in *.
  rewrite IH. reflexivity.
Qed.

Lemma trackUsers_unsound (m : t) (now : Z) (users : list (string * UserInternal.t)) :
  forallb (fun kv : string * UserInternal.t => has_sockets (snd kv)) users = false ->
  fst (trackUsers m now users) = Throw.
Proof.
  induction users as [|[clientId user] users IH]; [discriminate|].
  cbn [forallb trackUsers snd]. intros H.
  destruct (has_sockets user) eqn:Hk.
  - rewrite (userOnline_sockets m user Hk).
    specialize (IH H). destruct (trackUsers m now users) as [done rest].
    exact IH.
  - rewrite (userOnline_none m user Hk). reflexivity.
Qed.

Lemma trackUsers_returns (m : t) (now : Z) (users : list (string * UserInternal.t)) :
  forallb (fun kv : string * UserInternal.t => has_sockets (snd kv)) users = true ->
  fst (trackUsers m now users) = Ret tt.
Proof.
  induction users as [|[clientId user] users IH]; [reflexivity|].
  cbn [forallb trackUsers snd]. intros H. apply andb_prop in H. destruct H as [Hk Hu].
  rewrite (userOnline_sockets m user Hk). specialize (IH Hu).
  destruct (trackUsers m now users) as [done rest]. exact IH.
Qed.

Lemma trackUsers_sound (m : t) (now : Z) (users : list (string * UserInternal.t)) :
  now <> 0 ->
  forallb (fun kv : string * UserInternal.t => has_sockets (snd kv)) users = true ->
  fst (trackUsers m now users) = Ret tt /\
  Forall (fun kv : string * UserInternal.t =>
            userOnline m (snd kv)
            = Ret (negb (truthy (UserInternal.offlineAt (snd kv)))))
         (snd (trackUsers m now users)).
Proof.
  intros Hnow.
  induction users as [|[clientId user] users IH]; [split; [reflexivity|constructor]|].
  cbn [forallb trackUsers snd]. intros H. apply andb_prop in H. destruct H as [Hk Hu].
  destruct (IH Hu) as [IH1 IH2]. clear IH.
  rewrite (userOnline_sockets m user Hk).
  destruct (trackUsers m now users) as [done rest]. cbn [fst snd] in *.
  split; [exact IH1|]. constructor; [|exact IH2]. cbn [snd].
  assert (Hon : forall offlineAt,
             userOnline m (withOfflineAt offlineAt user)
             = Ret (existsb (isOpen m) (sockets_of user))).
  { intros offlineAt. rewrite userOnline_sockets; [reflexivity|exact Hk]. }
  destruct (existsb (isOpen m) (sockets_of user)) eqn:Hopen; cbn [negb andb].
  - destruct (truthy (UserInternal.offlineAt user)) eqn:Hoff.
    + rewrite Hon. try rewrite Hopen. reflexivity.
    + rewrite (userOnline_sockets m user Hk), Hopen, Hoff. reflexivity.
  - destruct (truthy (UserInternal.offlineAt user)) eqn:Hoff; cbn [negb].
    + rewrite (userOnline_sockets m user Hk), Hopen, Hoff. reflexivity.
    + rewrite Hon. try rewrite Hopen.
      cbn [withOfflineAt UserInternal.offlineAt truthy].
      apply Z.eqb_neq in Hnow. rewrite Hnow. reflexivity.
Qed.

Lemma trackSessions_keys (m : t) (now : Z) (stored : list (string * SessionInternal.t)) :
  map (fun entry : string * SessionInternal.t =>
         (fst entry, map fst (SessionInternal.users (snd entry))))
      (snd (trackSessions m now stored))
  = map (fun entry : string * SessionInternal.t =>
           (fst entry, map fst (SessionInternal.users (snd entry))))
        stored.
Proof.
  induction stored as [|[sessionId session] stored IH]; [reflexivity|].
  cbn [trackSessions].
  pose proof (trackUsers_keys m now (SessionInternal.users session)) as Hk.
  destruct (trackUsers m now (SessionInternal.users session)) as [done users].
  cbn [snd] in Hk.
  destruct done as [[]| |].
  - destruct (trackSessions m now stored) as [done' rest].
    cbn [snd map fst withUsers SessionInternal.users] in *.
    rewrite IH, Hk. reflexivity.
  - cbn [snd map fst withUsers SessionInternal.users]. rewrite Hk. reflexivity.
  - cbn [snd map fst withUsers SessionInternal.users]. rewrite Hk. reflexivity.
Qed.

Lemma trackSessions_unsound (m : t) (now : Z)
      (stored : list (string * SessionInternal.t)) :
  forallb (fun entry : string * SessionInternal.t => sound (snd entry)) stored = false ->
  fst (trackSessions m now stored) = Throw.
Proof.
  induction stored as [|[sessionId session] stored IH]; [discriminate|].
  cbn [forallb trackSessions snd]. intros H. unfold sound in H at 1.
  destruct (forallb _ (SessionInternal.users session)) eqn:Hs.
  - pose proof (trackUsers_returns m now (SessionInternal.users session) Hs) as Hd.
    destruct (trackUsers m now (SessionInternal.users session)) as [done users].
    cbn [fst] in Hd. subst done. specialize (IH H).
    destruct (trackSessions m now stored) as [done' rest]. exact IH.
  - pose proof (trackUsers_unsound m now (SessionInternal.users session) Hs) as Hd.
    destruct (trackUsers m now (SessionInternal.users session)) as [done users].
    cbn [fst] in Hd. subst done. reflexivity.
Qed.

Lemma trackSessions_sound (m : t) (now : Z)
      (stored : list (string * SessionInternal.t)) :
  now <> 0 ->
  forallb (fun entry : string * SessionInternal.t => sound (snd entry)) stored = true ->
  fst (trackSessions m now stored) = Ret tt /\
  Forall (fun entry : string * SessionInternal.t =>
            Forall (fun kv : string * UserInternal.t =>
                      userOnline m (snd kv)
                      = Ret (negb (truthy (UserInternal.offlineAt (snd kv)))))
                   (SessionInternal.users (snd entry)))
         (snd (trackSessions m now stored)).
Proof.
  intros Hnow.
  induction stored as [|[sessionId session] stored IH]; [split; [reflexivity|constructor]|].
  cbn [forallb trackSessions snd]. intros H. apply andb_prop in H.
  destruct H as [Hs Hrest]. destruct (IH Hrest) as [IH1 IH2]. clear IH.
  destruct (trackUsers_sound m now (SessionInternal.users session) Hnow Hs)
    as [Hd Hu].
  destruct (trackUsers m now (SessionInternal.users session)) as [done users].
  cbn [fst snd] in Hd, Hu. subst done.
  destruct (trackSessions m now stored) as [done' rest]. cbn [fst snd] in *.
  split; [exact IH1|]. constructor; [exact Hu|exact IH2].
Qed.

(** X20.  [trackOfflineUsers()] adds or removes no user and no session,
    and writes no frame.  When every user of every session has [sockets]
    it returns, and then, the clock not reading zero, a user has
    [offlineAt] set exactly when none of their connections is open.
    Otherwise it throws, at the first user that has no [sockets]. *)
Theorem trackOfflineUsers_marks_agree (now : Z) (m : t) :
  now <> 0 ->
  rosters (snd (trackOfflineUsers now m)) = rosters m /\
  sent (snd (trackOfflineUsers now m)) = sent m /\
  connections (snd (trackOfflineUsers now m)) = connections m /\
  if forallb (fun entry : string * SessionInternal.t => sound (snd entry)) (sessions m)
  then fst (trackOfflineUsers now m) = Ret tt /\
       offline_marks_agree (snd (trackOfflineUsers now m))
  else fst (trackOfflineUsers now m) = Throw.
Proof.
  intros Hnow. unfold trackOfflineUsers, rosters, offline_marks_agree.
  pose proof (trackSessions_keys m now (sessions m)) as Hk.
  pose proof (trackSessions_sound m now (sessions m) Hnow) as Hsound.
  pose proof (trackSessions_unsound m now (sessions m)) as Hunsound.
  destruct (trackSessions m now (sessions m)) as [done stored].
  cbn [fst snd sessions sent connections] in *.
  split; [exact Hk|]. split; [reflexivity|]. split; [reflexivity|].
  destruct (forallb _ (sessions m)).
  - destruct (Hsound eq_refl) as [Hd Hf]. split; [exact Hd|].
    apply Forall_forall. intros entry Hin.
    rewrite Forall_forall in Hf. specialize (Hf entry Hin).
    apply Forall_forall. intros kv Hkv.
    rewrite Forall_forall in Hf. rewrite <- (Hf kv Hkv).
    apply userOnline_frame. reflexivity.
  - exact (Hunsound eq_refl).
Qed.

Lemma trackOfflineUsers_marks_agree_witness :
  1002000 <> 0 /\
  rosters solo = [("room-1", [alice])] /\
  fst (trackOfflineUsers 1002000 solo) = Throw /\
  rosters (snd (trackOfflineUsers 1002000 solo)) = rosters solo.
Proof.
  assert (H : 1002000 <> 0) by lia.
  split; [exact H|]. split; [vm_compute; reflexivity|].
  destruct (trackOfflineUsers_marks_agree 1002000 solo H) as [Hr [_ [_ Hthrow]]].
  split; [exact Hthrow|exact Hr].
Defined.

(** *** Closing a connection *)

Lemma rosters_assign (sessionId : string) (stored session : SessionInternal.t)
      (l : list (string * SessionInternal.t)) :
  slookup sessionId l = Some stored ->
  map fst (SessionInternal.users session) = map fst (SessionInternal.users stored) ->
  map (fun entry : string * SessionInternal.t =>
         (fst entry, map fst (SessionInternal.users (snd entry))))
      (sassign sessionId session l)
  = map (fun entry : string * SessionInternal.t =>
           (fst entry, map fst (SessionInternal.users (snd entry)))) l.
Proof.
  unfold slookup, sassign. intros Hl Hk.
  induction l as [|[k0 v0] l IH]; simpl in *; [discriminate|].
  destruct (String.eqb_spec sessionId k0) as [->|Hne]; simpl.
  - injection Hl as ->. rewrite Hk. reflexivity.
  - rewrite (IH Hl). reflexivity.
Qed.

Section Steady.
Variable kept : list (string * list string).
Variable sessionId : string.
Variable keys : list string.


Lemma steady_updateStored (session : SessionInternal.t) :
  map fst (SessionInternal.users session) = keys ->
  preserves (steady kept sessionId keys)
            (updateStored sessionId (fun _ => session)) (fun _ => True).
Proof.
  intros Hk m [Hr Hst]. split; [|intros; exact I].
  unfold steady, stored_keys, rosters in *.
  cbn [updateStored setSessions modify snd sessions].
  destruct (slookup sessionId (sessions m)) as [stored|] eqn:Hl.
  - split.
    + rewrite (rosters_assign sessionId stored session _ Hl); [exact Hr|congruence].
    + rewrite lookup_assign_same. exact Hk.
  - split; [exact Hr|]. rewrite Hl. exact I.
Qed.
End Steady.

Lemma removeClient_rosters (now : Z) (ws : handle) (m : t) :
  rosters (snd (removeClient now ws m)) = rosters m.
Proof.
  unfold removeClient, bind at 1, get. cbv beta iota.
  destruct (ServerWebSocket.socketId (socket ws m)) as [socketId|]; [|reflexivity].
  destruct (ServerWebSocket.sessionId (socket ws m)) as [sessionId|]; [|reflexivity].
  destruct (ServerWebSocket.clientId (socket ws m)) as [clientId|]; [|reflexivity].
  destruct (is_empty socketId || is_empty sessionId || is_empty clientId);
    [reflexivity|].
  unfold bind at 1, getSession, bind at 1, get, ret. cbv beta iota.
  destruct (slookup sessionId (sessions m)) as [session|] eqn:Hsession;
    [|reflexivity].
  destruct (slookup clientId (SessionInternal.users session)) as [user|] eqn:Huser;
    [|reflexivity].
  destruct (UserInternal.sockets user) as [sockets|]; [|reflexivity].
  set (keys := map fst (SessionInternal.users session)).
  assert (Hm : steady (rosters m) sessionId keys m)
    by (split; [reflexivity|unfold stored_keys; rewrite Hsession; reflexivity]).
  set (user1 := withSockets (sremove socketId sockets) user).
  set (session1 := withUsers (sassign clientId user1 (SessionInternal.users session))
                             session).
  assert (Hk1 : map fst (SessionInternal.users session1) = keys)
    by (apply (keys_assign_present clientId user user1 _ Huser)).
  set (user2 := withOfflineAt (Some now) user1).
  set (session2 := withUsers (sassign clientId user2 (SessionInternal.users session1))
                             session1).
  assert (Hk2 : map fst (SessionInternal.users session2) = keys).
  { rewrite <- Hk1.
    apply (keys_assign_present clientId user1 user2 (SessionInternal.users session1)).
    apply lookup_assign_same. }
  match goal with
  | |- rosters (snd (?c m)) = _ =>
      assert (K : preserves (steady (rosters m) sessionId keys) c (fun _ => True))
  end.
  { apply (preserves_bind _ _ (fun _ => True));
      [apply steady_updateStored, Hk1|]. intros _ _.
    destruct (0 <? _)%nat; [apply preserves_skip|].
    apply (preserves_bind _ _ (fun _ => True));
      [apply steady_updateStored, Hk2|]. intros _ _.
    apply (preserves_bind _ _ (fun _ => True)).
    { apply preserves_broadcastToSession. intros ws' m' H. exact H. }
    intros _ _.
    apply (preserves_bind _ _ _ _ preserves_get). intros m' _.
    apply (preserves_bind _ _ (fun _ => True));
      [apply preserves_lift; intros; exact I|]. intros online _.
    destruct (_ && _); [|apply preserves_skip].
    apply steady_updateStored. exact Hk2. }
  exact (proj1 (proj1 (K m Hm))).
Qed.

Lemma socket_assign (ws : handle) (c : ServerWebSocket.t) (m : t)
      (stored : list (string * SessionInternal.t))
      (frames : list (handle * OutgoingMessage.t)) (n : nat) :
  socket ws {| sessions := stored;
               connections := assign Nat.eqb ws c (connections m);
               sent := frames; uuids := n |} = c.
Proof.
  unfold socket. cbn [connections].
  induction (connections m) as [|[ws0 c0] l IH]; simpl.
  - rewrite Nat.eqb_refl. reflexivity.
  - destruct (Nat.eqb ws ws0) eqn:E; simpl.
    + rewrite Nat.eqb_refl. reflexivity.
    + rewrite E. exact IH.
Qed.

(** What [removeClient] does by the user the connection joined as. *)
Lemma removeClient_bound (now : Z) (ws : handle) (m : t) :
  match bound_user m ws with
  | None => removeClient now ws m = (Ret tt, m)
  | Some user =>
      if has_sockets user then True else removeClient now ws m = (Throw, m)
  end.
Proof.
  remember (removeClient now ws m) as r eqn:Hr.
  unfold removeClient, bind at 1, get in Hr. cbv beta iota zeta in Hr.
  unfold bound_user, bound, nonempty.
  destruct (ServerWebSocket.socketId (socket ws m)) as [socketId|]; [|exact Hr].
  destruct (ServerWebSocket.sessionId (socket ws m)) as [sessionId|];
    [|rewrite andb_false_r; exact Hr].
  destruct (ServerWebSocket.clientId (socket ws m)) as [clientId|];
    [|rewrite andb_false_r; exact Hr].
  destruct (is_empty socketId); [exact Hr|].
  destruct (is_empty sessionId); [exact Hr|].
  destruct (is_empty clientId); [exact Hr|].
  cbn [negb andb orb] in *.
  unfold bind at 1, getSession, bind at 1, get, ret in Hr. cbv beta iota in Hr.
  destruct (slookup sessionId (sessions m)) as [session|]; [|exact Hr].
  destruct (slookup clientId (SessionInternal.users session)) as [user|];
    [|exact Hr].
  unfold has_sockets.
  destruct (UserInternal.sockets user); [exact I|exact Hr].
Qed.

(** X21.  [removeClient], and [handleWebSocketClose] which calls it,
    never add or remove a user or a session, however they end.  On a
    connection that joined as no stored user they return.  On a
    connection that joined as a stored user that has no [sockets] they
    throw, at [user.sockets.delete], having changed nothing but the state
    of the connection; nothing catches the exception. *)
Theorem closing_keeps_the_rosters (now : Z) (ws : handle) (m : t) :
  rosters (snd (removeClient now ws m)) = rosters m /\
  rosters (snd (handleWebSocketClose now ws m)) = rosters m /\
  match bound_user m ws with
  | None =>
      fst (removeClient now ws m) = Ret tt /\
      fst (handleWebSocketClose now ws m) = Ret tt
  | Some user =>
      if has_sockets user then True
      else fst (removeClient now ws m) = Throw /\
           sessions (snd (removeClient now ws m)) = sessions m /\
           fst (handleWebSocketClose now ws m) = Throw /\
           sessions (snd (handleWebSocketClose now ws m)) = sessions m
  end.
Proof.
  split; [apply removeClient_rosters|].
  pose (m1 := snd (setSocket
                     ws
                     (fun c =>
                        {| ServerWebSocket.readyState := 3;
                           ServerWebSocket.isAlive := ServerWebSocket.isAlive c;
                           ServerWebSocket.socketId := ServerWebSocket.socketId c;
                           ServerWebSocket.sessionId := ServerWebSocket.sessionId c;
                           ServerWebSocket.clientId := ServerWebSocket.clientId c |})
                     m)).
  assert (Hclose : handleWebSocketClose now ws m = removeClient now ws m1)
    by reflexivity.
  rewrite Hclose.
  split; [exact (removeClient_rosters now ws m1)|].
  assert (Hb : bound_user m1 ws = bound_user m ws).
  { unfold bound_user, bound, m1, setSocket, modify. cbn [snd].
    rewrite !socket_assign.
    cbn [ServerWebSocket.socketId ServerWebSocket.sessionId ServerWebSocket.clientId
         sessions].
    reflexivity. }
  pose proof (removeClient_bound now ws m) as H.
  pose proof (removeClient_bound now ws m1) as H1. rewrite Hb in H1.
  destruct (bound_user m ws) as [user|].
  - destruct (has_sockets user); [exact I|]. rewrite H, H1.
    repeat split.
  - rewrite H, H1. split; reflexivity.
Qed.

(** *** Joining a session that is not stored *)

Lemma client_id_nonempty (s : string) : CLIENT_ID_REGEX s = true -> is_empty s = false.
Proof. destruct s; [intros H; discriminate H|reflexivity]. Qed.

Lemma intervals_updateIntervals (now : Z) (items : list Interval.t) (tc : TimerCore.t) :
  TimerCore.intervals (TimerCore.updateIntervals now items tc) = items.
Proof.
  unfold TimerCore.updateIntervals.
  destruct (_ >=? _); [reflexivity|].
  destruct (TimerStateInternal.isRunning _); reflexivity.
Qed.

Lemma formatClientId_ok (fresh : string) (input : option string) :
  CLIENT_ID_REGEX fresh = true ->
  CLIENT_ID_REGEX (formatClientId fresh input) = true.
Proof.
  intros Hf. unfold formatClientId.
  destruct (CLIENT_ID_REGEX (trim (toLowerCase (str_or "" input)))) eqn:E;
    [exact E|exact Hf].
Qed.

Lemma formatClientId_fixed (fresh clientId : string) :
  CLIENT_ID_REGEX clientId = true ->
  formatClientId fresh (Some clientId) = clientId.
Proof.
  intros H. unfold formatClientId.
  rewrite (CodecFacts.str_or_empty clientId), (CodecLaws.client_id_fixed clientId H), H.
  reflexivity.
Qed.

Lemma new_core_syncs (now : Z) (id : string) (update : SessionUpdate.t)
      (timer : TimerState.t) :
  0 <= TimerState.interval timer ->
  let session := formatInternalSession now (RawSession.of_new id update) in
  exists core,
    TimerCore.sync
      now
      (TimerCore.updateState
         now timer
         (TimerCore.updateIntervals
            now (IntervalList.items (SessionInternal.intervals session))
            (SessionInternal.timerCore session)))
    = Ret core.
Proof.
  intros Ht session.
  destruct (TimerCoreFacts.sync_returns
              now
              (TimerCore.updateState
                 now timer
                 (TimerCore.updateIntervals
                    now (IntervalList.items (SessionInternal.intervals session))
                    (SessionInternal.timerCore session))))
    as [core [Hs _]].
  - cbn [TimerCore.updateState TimerCore.intervals].
    rewrite intervals_updateIntervals.
    unfold session, formatInternalSession.
    cbn [SessionInternal.intervals RawSession.intervals RawSession.of_new
         or_empty_intervals].
    unfold formatIntervalList, RawIntervalList.of_list.
    cbn [IntervalList.items RawIntervalList.items].
    unfold RawItems.of_items.
    apply Forall_map, Forall_forall. intros e _.
    apply (CodecLaws.formatInterval_in_bounds e).
  - cbn [TimerCore.updateState TimerCore.state TimerStateInternal.startedInterval].
    exact Ht.
  - exists core. exact Hs.
Qed.

Lemma setSession_run (now : Z) (id : string) (session : SessionInternal.t) (m : t) :
  setSession now id session m
  = (Ret tt,
     with_sessions m (if is_empty id then sessions m
                      else sassign id (formatInternalSession
                                         now (RawSession.of_internal session))
                                   (sessions m))).
Proof.
  unfold setSession. destruct (is_empty id); [destruct m|]; reflexivity.
Qed.

Lemma syncTimer_run (now : Z) (session : SessionInternal.t) (core : TimerCore.t)
      (m : t) :
  TimerCore.sync now (SessionInternal.timerCore session) = Ret core ->
  syncTimer now None session m
  = (Ret (withTimer core session), snd (shareCore (withTimer core session) m)).
Proof.
  intros Hs. unfold syncTimer, bind at 1, lift. rewrite Hs.
  unfold assignTo, bind, skip, shareCore, updateStored, setSessions, modify, ret.
  reflexivity.
Qed.

Lemma broadcast_to_oneself (session : SessionInternal.t) (message : OutgoingMessage.t)
      (exclude : option string) (clientId : string) (user : UserInternal.t) (m : t) :
  SessionInternal.users session = [(clientId, user)] ->
  is_empty clientId = false ->
  broadcastToSession session message exclude (Some clientId) m = (Ret tt, m).
Proof.
  intros Hu He. unfold broadcastToSession. rewrite Hu. cbn [forEach].
  unfold nonempty, same. rewrite He, String.eqb_refl. reflexivity.
Qed.

Section Join.
Variable sha256_hex : string -> string.
Variable uuid : nat -> string.
Hypothesis uuid_ok : forall n, CLIENT_ID_REGEX (uuid n) = true.

Lemma withClientId_run {A} (input : option string) (format : string -> A) (m : t) :
  withClientId uuid input format m
  = (Ret (format (uuid (uuids m))),
     {| sessions := sessions m; connections := connections m;
        sent := sent m;
        uuids := if CLIENT_ID_REGEX (trim (toLowerCase (str_or "" input)))
                 then uuids m else Datatypes.S (uuids m) |}).
Proof.
  unfold withClientId.
  destruct (CLIENT_ID_REGEX (trim (toLowerCase (str_or "" input)))).
  - destruct m; reflexivity.
  - reflexivity.
Qed.

Lemma join_new (now : Z) (ws : handle) (m : t)
      (id : string) (update : SessionUpdate.t) (timer : TimerState.t) (user : User.t) :
  formatSessionId (Some id) = id ->
  slookup id (sessions m) = None ->
  0 <= TimerState.interval timer ->
  let clientId :=
    formatClientId (uuid (Datatypes.S (uuids m))) (Some (User.clientId user)) in
  exists m' : t,
    handleSessionJoin sha256_hex uuid now ws
                      (IncomingMessage.session_join id update timer user) m
    = (Ret tt, m') /\
    CLIENT_ID_REGEX clientId = true /\
    sent m' = sent m ++ (if isOpen m ws
                         then [(ws, OutgoingMessage.session_created id clientId)]
                         else []) /\
    rosters m' = rosters m ++ (if is_empty id then [] else [(id, [clientId])]) /\
    ServerWebSocket.sessionId (socket ws m') = Some id /\
    ServerWebSocket.clientId (socket ws m') = Some clientId.
Proof.
  intros Hid Hnew Ht clientId.
  assert (Hcid : CLIENT_ID_REGEX clientId = true)
    by (apply formatClientId_ok, uuid_ok).
  destruct (new_core_syncs now id update timer Ht) as [core Hcore].
  cbv zeta in Hcore.
  set (session0 := formatInternalSession now (RawSession.of_new id update)) in *.
  set (core0 := TimerCore.updateState
                  now timer
                  (TimerCore.updateIntervals
                     now (IntervalList.items (SessionInternal.intervals session0))
                     (SessionInternal.timerCore session0))) in *.
  set (session1 := withTimer core0 session0).
  set (session2 := withTimer core session1).
  set (created := formatInternalUser
                    now
                    {| RawUser.clientId := Some (hashString sha256_hex clientId);
                       RawUser.name := Some (User.name user);
                       RawUser.avatarUrl := Some (User.avatarUrl user);
                       RawUser.offlineAt := Some None;
                       RawUser.lastPing := Some now;
                       RawUser.ws := None |}).
  set (session3 := withUsers [(clientId, created)] session2).
  assert (Hid1 : SessionInternal.sessionId session1 = id) by exact Hid.
  assert (Hid2 : SessionInternal.sessionId session2 = id) by exact Hid.
  assert (Hid3 : SessionInternal.sessionId session3 = id) by exact Hid.
  eexists. split.
  - unfold handleSessionJoin.
    unfold bind at 1, generateUUID.
    unfold bind at 1. rewrite withClientId_run.
    cbn [sessions connections sent uuids]. fold clientId.
    unfold bind at 1, setSocket, modify. cbn [sessions connections sent uuids].
    unfold bind at 1, getSession, bind at 1. cbn [get ret sessions].
    unfold get at 1, ret at 1. cbn [sessions]. rewrite Hnew.
    unfold bind at 1, createSession. fold session0. fold core0. fold session1.
    unfold bind at 1. rewrite Hid1, setSession_run.
    unfold ret at 1.
    unfold bind at 1. rewrite (syncTimer_run now session1 core) by exact Hcore.
    fold session2.
    change (SessionInternal.users session1) with (@nil (string * UserInternal.t)).
    change (SessionInternal.users session2) with (@nil (string * UserInternal.t)).
    change (slookup clientId (@nil (string * UserInternal.t))) with (@None UserInternal.t).
    cbv iota. fold created.
    change (sassign clientId created []) with [(clientId, created)].
    fold session3.
    unfold bind at 1. unfold bind at 1, assignTo at 1, skip at 1, ret at 1.
    cbv beta iota. unfold ret at 1.
    unfold bind at 1. rewrite Hid3, setSession_run. cbv beta iota.
    unfold bind at 1.
    rewrite withClientId_run. cbv beta iota.
    unfold formatSessionCreatedMsg at 1.
    rewrite Hid, (formatClientId_fixed _ clientId Hcid).
    unfold bind at 1.
    match goal with
    | |- context [sendMessage ws ?r ?m0] =>
        rewrite (SessionManagerLaws.appends_sendMessage m0 ws r)
    end.
    cbv beta iota.
    rewrite (broadcast_to_oneself session3 _ _ clientId created)
      by (try reflexivity; apply client_id_nonempty, Hcid).
    reflexivity.
  - unfold shareCore, updateStored, setSessions, modify, with_sessions.
    cbn [snd sent sessions connections uuids].
    rewrite Hid2.
    split; [exact Hcid|]. split; [|split; [|split]].
    + unfold isOpen. rewrite socket_assign. reflexivity.
    + unfold rosters. cbn [sessions].
      destruct (is_empty id).
      * rewrite Hnew, app_nil_r. reflexivity.
      * rewrite (assign_fresh id _ (sessions m) Hnew).
        rewrite (lookup_beyond id (sessions m) _ Hnew).
        unfold slookup at 1. cbn [lookup]. rewrite String.eqb_refl.
        rewrite (assign_last id _ _ (sessions m) Hnew).
        rewrite (assign_last id _ _ (sessions m) Hnew).
        rewrite map_app. reflexivity.
    + rewrite socket_assign. reflexivity.
    + rewrite socket_assign. reflexivity.
Qed.

End Join.

(** X22.  With a random source that draws client ids, a [session_join]
    for a session id that is not stored returns, binds the connection to
    the formatted session id and to the client id (the sender's own when it
    is valid, the second identifier drawn otherwise), and answers with the
    one frame [session_created]; no one else is written to.  The session
    is stored, with the sender as its only user, exactly when the formatted
    id is not empty: a join with an invalid session id is answered
    [session_created] with an empty id and stores nothing. *)
Theorem joining_a_new_session
        (sha256_hex : string -> string) (uuid : nat -> string)
        (now : Z) (ws : handle) (m : t)
        (sessionId : option string) (update : option RawSessionUpdate.t)
        (timer : option RawTimer.t) (user : option RawUser.t) :
  (forall n, CLIENT_ID_REGEX (uuid n) = true) ->
  slookup (formatSessionId sessionId) (sessions m) = None ->
  let id := formatSessionId sessionId in
  let clientId :=
    formatClientId (uuid (Datatypes.S (uuids m)))
                   (Some (User.clientId (formatUser (or_empty_user user)))) in
  exists m' : t,
    handleWebSocketMessage sha256_hex uuid now ws
                           (RawMessage.session_join sessionId update timer user) m
    = (Ret tt, m') /\
    CLIENT_ID_REGEX clientId = true /\
    sent m' = sent m ++ (if isOpen m ws
                         then [(ws, OutgoingMessage.session_created id clientId)]
                         else []) /\
    rosters m' = rosters m ++ (if is_empty id then [] else [(id, [clientId])]) /\
    ServerWebSocket.sessionId (socket ws m') = Some id /\
    ServerWebSocket.clientId (socket ws m') = Some clientId.
Proof.
  intros Huuid Hnew id clientId.
  assert (Ht : 0 <= TimerState.interval (formatTimer (or_empty_timer timer)))
    by (unfold formatTimer; cbn [TimerState.interval]; lia).
  destruct (join_new sha256_hex uuid Huuid now ws m id
                     (formatSessionUpdate now (or_empty_update update))
                     (formatTimer (or_empty_timer timer))
                     (formatUser (or_empty_user user))
                     (CodecFacts.formatSessionId_idem sessionId) Hnew Ht)
    as [m' [Hrun Hrest]].
  exists m'. split; [|exact Hrest].
  unfold handleWebSocketMessage. cbn [RawMessage.type is_empty].
  unfold handleMessage, try_catch, bind at 1, lift.
  cbn [formatIncoming]. unfold formatSessionJoinMsg.
  cbn [IncomingMessage.type handlers String.eqb Ascii.eqb Bool.eqb].
  fold id. rewrite Hrun. reflexivity.
Qed.

Lemma joining_a_new_session_witness :
  (forall n, CLIENT_ID_REGEX (SessionManagerSpec.socket_ids n) = true) /\
  slookup (formatSessionId (Some "room-1")) (sessions lobby) = None /\
  exists m' : t,
    handleWebSocketMessage (fun s => s) SessionManagerSpec.socket_ids 1000000 0%nat
                           (SessionManagerSpec.join SessionManagerSpec.alice "Ada")
                           lobby
    = (Ret tt, m') /\
    sent m' = [(0%nat, OutgoingMessage.session_created "room-1" SessionManagerSpec.alice)] /\
    rosters m' = [("room-1", [SessionManagerSpec.alice])].
Proof.
  assert (Hu : forall n, CLIENT_ID_REGEX (SessionManagerSpec.socket_ids n) = true)
    by (intros [|[|[|n]]]; reflexivity).
  assert (Hn : slookup (formatSessionId (Some "room-1")) (sessions lobby) = None)
    by reflexivity.
  split; [exact Hu|]. split; [exact Hn|].
  destruct (joining_a_new_session
              (fun s => s) SessionManagerSpec.socket_ids 1000000 0%nat lobby
              (Some "room-1")
              (Some (SessionManagerSpec.focus
                       (RawItems.Array [Some SessionManagerSpec.work])))
              None
              (Some {| RawUser.clientId := Some SessionManagerSpec.alice;
                       RawUser.name := Some "Ada";
                       RawUser.avatarUrl := Some ""; RawUser.offlineAt := None;
                       RawUser.lastPing := None; RawUser.ws := None |})
              Hu Hn)
    as [m' [Hrun [_ [Hsent [Hrosters _]]]]].
  exists m'. split; [exact Hrun|]. split; [exact Hsent|exact Hrosters].
Defined.


End SessionManagerLaws.
